(** * ChatCut: edit history, undo tracking and editing actions

    A shallow embedding of the plugin's bookkeeping code:
    - [frontend/src/components/container.jsx]: the panel state (chat log,
      edit history, undo counter) and the handlers [handleUndo],
      [handleRedo] and [editClips];
    - [services/editingActions.js]: [addKeyframe], [zoomIn], [zoomOut],
      the two batch loops, [applyBlur] and [applyTransition].

    JavaScript values are modelled by [JsVal]; objects used as option bags
    are finite maps from property names to values; asynchronous functions
    are programs of a state-and-exception monad over the host application,
    each handler being run to its end before the next one starts.
    Functions of the language whose results rest on number formatting,
    rounding or the Unicode tables are taken from the host. Console
    logging ([console.log], [console.error] and the local [log] helper,
    which swallows its own exceptions) has no effect on the panel or the
    host and is left out. *)

From Stdlib Require Import ZArith QArith Qround.
From stdpp Require Import base option list gmap strings pretty.

Open Scope Z_scope.

(** ** JavaScript values *)

Module Js.

(** A number is given by a rational, or is [NaN]; the infinities and the
    negative zero are not modelled, and sums, which the language rounds,
    are left to it (see [numberAdd]). *)
Inductive JsNum : Type :=
| NaN
| Num (q : Q).

Inductive JsVal : Type :=
| VUndefined
| VNull
| VBool (b : bool)
| VNum (n : JsNum)
| VStr (s : string).

(** Plain objects: their own enumerable string-keyed properties (the
    prototype is the default one and the key [__proto__] is not used). *)
Abbreviation JsObject := (gmap string JsVal).

Inductive JsType : Type :=
| TUndefined | TObject | TBoolean | TNumber | TString.

Definition typeof (v : JsVal) : JsType :=
match v with
| VUndefined => TUndefined
| VNull => TObject
| VBool _ => TBoolean
| VNum _ => TNumber
| VStr _ => TString
end.

#[global] Instance JsType_eq_dec : EqDecision JsType.
Proof. solve_decision. Defined.

(** [typeof v === "number"] and [typeof v === "boolean"]. *)
Definition is_number (v : JsVal) : bool := bool_decide (typeof v = TNumber).

Definition is_boolean (v : JsVal) : bool := bool_decide (typeof v = TBoolean).

(** ToBoolean. *)
Definition truthy (v : JsVal) : bool :=
match v with
| VUndefined | VNull => false
| VBool b => b
| VNum NaN => false
| VNum (Num q) => negb (Qeq_bool q 0)
| VStr s => negb (String.eqb s "")
end.

(** [a || b]. *)
Definition or_else (a b : JsVal) : JsVal := if truthy a then a else b.

(** [Object.prototype.hasOwnProperty.call(o, k)]. *)
Definition hasOwnProperty (o : JsObject) (k : string) : bool :=
match o !! k with Some _ => true | None => false end.

(** Property read [o.k]: [undefined] when the property is missing. *)
Definition prop (o : JsObject) (k : string) : JsVal :=
match o !! k with Some v => v | None => VUndefined end.

(** A caught exception, as far as the handlers look at it: the value of
    [err.message || err]. It is a string for an Error that has a message
    and for a thrown string; for anything else (an Error whose message is
    empty, a thrown number or object) it is not a string, and it is kept
    as the text it prints as. A rejection with [null] or [undefined] is
    not modelled. *)
Inductive Thrown : Type :=
| Msg (text : string)
| NotString (text : string).

(** The text of [err.message || err] inside a template literal. *)
Definition shown (err : Thrown) : string :=
match err with
| Msg text => text
| NotString text => text
end.

(** Completion of a call: a value, or a thrown exception. *)
Inductive Completion (A : Type) : Type :=
| Returned (a : A)
| Threw (err : Thrown).
Arguments Returned {A} a.
Arguments Threw {A} err.

(** Programs over a state [S] that may throw. *)
Definition Exec (S A : Type) : Type := S -> Completion A * S.

Definition ret {S A} (a : A) : Exec S A := fun s => (Returned a, s).

Definition bind {S A B} (m : Exec S A) (k : A -> Exec S B) : Exec S B :=
fun s =>
  match m s with
  | (Returned a, s') => k a s'
  | (Threw e, s') => (Threw e, s')
  end.

Definition raise {S A} (e : Thrown) : Exec S A := fun s => (Threw e, s).

(** [throw new Error(e)], and the errors of the language, whose messages
    are not empty. *)
Definition throw {S A} (e : string) : Exec S A := raise (Msg e).

(** [try { body } catch (err) { handler(err) }]. *)
Definition try_catch {S A} (body : Exec S A) (handler : Thrown -> Exec S A) : Exec S A :=
fun s =>
  match body s with
  | (Returned a, s') => (Returned a, s')
  | (Threw e, s') => handler e s'
  end.

Definition modify {S} (f : S -> S) : Exec S unit := fun s => (Returned tt, f s).

(** Run a program over one component of a larger state. *)
Definition focus {S T A} (proj : S -> T) (upd : T -> S -> S) (m : Exec T A) : Exec S A :=
fun s => let '(r, t') := m (proj s) in (r, upd t' s).

#[global] Instance exec_ret {S} : MRet (Exec S) := fun A => @ret S A.
#[global] Instance exec_bind {S} : MBind (Exec S) := fun A B k m => @bind S A B m k.

(** [arr[i]] for an integer index: [undefined] out of range. *)
Definition array_get {A} (l : list A) (i : Z) : option A :=
if i <? 0 then None else l !! Z.to_nat i.

(** Relative index of [Array.prototype.slice]. *)
Definition slice_bound (len k : Z) : Z :=
if k <? 0 then Z.max (len + k) 0 else Z.min k len.

(** [arr.slice(start, end)]. *)
Definition slice {A} (l : list A) (start end_ : Z) : list A :=
let len := Z.of_nat (length l) in
let k := slice_bound len start in
let final := slice_bound len end_ in
take (Z.to_nat (final - k)) (drop (Z.to_nat k) l).

(** [hay.includes(needle)]. *)
Fixpoint includes (hay needle : string) : bool :=
String.prefix needle hay ||
match hay with
| EmptyString => false
| String _ rest => includes rest needle
end.

Definition dquote : string := String (Ascii.ascii_of_nat 34) EmptyString.

End Js.

Import Js.

(** ** The host application *)

(** Opaque references handed out by Premiere Pro and by the services. *)
Class HostTypes : Type := {
  World : Type;          (* state of the host application and of the backend *)
  TrackItem : Type;
  Project : Type;
  ComponentParam : Type;
  ComponentChain : Type;
  TickTime : Type;
  VideoTransition : Type;
  Snapshot : Type;       (* result of capturePreviousState *)
}.

Inductive ModeName : Type := LINEAR | BEZIER | HOLD | EASE_IN | EASE_OUT.

(** The interpolation mode [addKeyframe] hands to the host: a value of
    the language (one of the host's constants), or a member that the
    object literal [modeMap] inherits from [Object.prototype] (a function,
    or the prototype itself under [__proto__]), given by its key. *)
Inductive InterpMode : Type :=
| ModeValue (v : JsVal)
| Inherited (key : string).

(** [{ valid, reason }] as returned by [validateClip]. *)
Record Validation : Type := {
  valid : bool;
  reason : string;
}.

(** [{ successful, failed }]. *)
Record BatchResult : Type := {
  successful : Z;
  failed : Z;
}.

(** The settings put on a [ppro.AddTransitionOptions] object. *)
Record AddTransitionOptions `{HostTypes} : Type := {
  optApplyToStart : JsVal;
  optDuration : TickTime;
  optForceSingleSided : bool;
  optTransitionAlignment : JsVal;
}.

(** The calls to the host that create or change something, in the order
    they are issued. *)
Inductive HostCall `{HostTypes} : Type :=
| BeginUndoGroup (title : string)
| EndUndoGroup
| CreateWithSeconds (seconds : JsVal)
| KeyframeTransaction (param : ComponentParam) (seconds : JsVal) (value : JsNum)
    (interpMode : InterpMode)
| AppendComponent (chain : ComponentChain) (matchName : string)
| SetValue (param : ComponentParam) (value : JsNum)
| AddVideoTransition (item : TrackItem) (matched : string) (opts : AddTransitionOptions).

Record Env `{HostTypes} : Type := {
  world : World;
  journal : list HostCall;
}.

(** The functions the editing actions call: [clipUtils.js], the
    [premierepro] module, and four functions of the language whose
    results are not modelled: the two string/number conversions, the sum
    of two numbers and [String.prototype.toLowerCase]. Grouped
    transactions ([lockedAccess] + [executeTransaction] + the actions
    added to the compound) are one call each. *)
Class PremiereHost `{HostTypes} : Type := {
  validateClip : TrackItem -> Exec World Validation;
  getMotionScaleParam : TrackItem -> Project -> Exec World (option ComponentParam);
  getClipDuration : TrackItem -> Exec World (option JsNum);
  getClipInPoint : TrackItem -> Exec World (option JsNum);
  logClipInfo : TrackItem -> Exec World unit;
  getActiveProject : Exec World (option Project);
  (* app.beginUndoGroup / app.endUndoGroup through whichever undo context
     the host exposes (executeScript, the global app, or none) *)
  hostBeginUndoGroup : string -> Exec World unit;
  hostEndUndoGroup : Exec World unit;
  createWithSeconds : JsVal -> Exec World TickTime;
  InterpolationMode : ModeName -> JsVal;
  (* setTimeVarying(true), addKeyframe(kf at tt), setInterpolationAtKeyframe *)
  keyframeTransaction : ComponentParam -> Project -> TickTime -> JsNum -> InterpMode
                        -> Exec World unit;
  getComponentChain : TrackItem -> Exec World (option ComponentChain);
  (* the inner helper of applyBlur: first parameter named "blurriness" *)
  findBlurrinessParam : ComponentChain -> Exec World (option ComponentParam);
  (* createComponent + createAppendComponentAction + executeAction *)
  appendComponent : ComponentChain -> string -> Project -> Exec World unit;
  (* createKeyframe + createSetValueAction(kf, true) + executeAction *)
  setValueTransaction : ComponentParam -> JsNum -> Project -> Exec World unit;
  getVideoTransitionMatchNames : Exec World (list string);
  (* ppro.TransitionFactory.createVideoTransition *)
  createVideoTransition : string -> Exec World VideoTransition;
  (* createAddVideoTransitionAction + executeAction *)
  addVideoTransition : TrackItem -> VideoTransition -> AddTransitionOptions -> option Project
                       -> Exec World unit;
  stringToNumber : string -> JsNum;
  numberToString : JsNum -> string;
  (* x + y on two numbers that are not NaN *)
  numberAdd : Q -> Q -> JsNum;
  toLowerCase : string -> string;
}.

(** ** services/editingActions.js *)

Module EditingActions.

Section WithHost.
Context `{PremiereHost}.

(** A call that only reads from, or acts on, the host. *)
Definition host {A} (op : Exec World A) : Exec Env A :=
focus world (fun w e => {| world := w; journal := journal e |}) op.

(** Noting a call in the journal, just before it is made. *)
Definition issue (c : HostCall) : Exec Env unit :=
modify (fun e => {| world := world e; journal := journal e ++ [c] |}).

(** [String(v)] as used by [+] with a string operand. *)
Definition toString (v : JsVal) : string :=
match v with
| VUndefined => "undefined"
| VNull => "null"
| VBool true => "true"
| VBool false => "false"
| VNum n => numberToString n
| VStr s => s
end.

(** [Number(v)]. *)
Definition Number (v : JsVal) : JsNum :=
match v with
| VUndefined => NaN
| VNull => Num 0
| VBool true => Num 1
| VBool false => Num 0
| VNum n => n
| VStr s => stringToNumber s
end.

(** Addition of numbers; [NaN] is absorbing. *)
Definition num_add (a b : JsNum) : JsNum :=
match a, b with
| Num x, Num y => numberAdd x y
| _, _ => NaN
end.

(** [a + b]. *)
Definition js_add (a b : JsVal) : JsVal :=
match a, b with
| VStr _, _ | _, VStr _ => VStr (toString a +:+ toString b)
| _, _ => VNum (num_add (Number a) (Number b))
end.

(** [v.toFixed(2)] evaluated for a log line: a TypeError unless [v] is a
    number; the string it builds is only logged. *)
Definition toFixed {S} (v : JsVal) : Exec S unit :=
if is_number v then ret tt else throw "toFixed is not a function".

(** [ppro.TickTime.createWithSeconds(seconds)]. *)
Definition TickTime_createWithSeconds (seconds : JsVal) : Exec Env TickTime :=
issue (CreateWithSeconds seconds);; host (createWithSeconds seconds).

(** The undo group is opened in the host's scripting context; a failure is
    only logged. *)
Definition beginUndoGroup (title : string) : Exec Env unit :=
let t := if String.eqb title "" then "ChatCut Edit" else title in
try_catch (issue (BeginUndoGroup t);; host (hostBeginUndoGroup t))
          (fun _ => ret tt).

(** Closing the undo group, likewise. *)
Definition endUndoGroup : Exec Env unit :=
try_catch (issue EndUndoGroup;; host hostEndUndoGroup)
          (fun _ => ret tt).

(** The keys a plain object inherits from [Object.prototype]. *)
Definition inheritedKeys : list string :=
["constructor"; "toString"; "toLocaleString"; "valueOf"; "hasOwnProperty";
 "isPrototypeOf"; "propertyIsEnumerable"; "__proto__"; "__defineGetter__";
 "__defineSetter__"; "__lookupGetter__"; "__lookupSetter__"].

(** The own properties of the literal [modeMap]. *)
Definition modeNames : list (string * ModeName) :=
[("LINEAR", LINEAR); ("BEZIER", BEZIER); ("HOLD", HOLD); ("EASE_IN", EASE_IN);
 ("EASE_OUT", EASE_OUT)].

(** [modeMap[interp]]: the five own properties of the literal, then the
    members it inherits; [undefined] for any other key. A key that is not
    a string is converted to one, which is none of these names. *)
Definition modeMap (interp : JsVal) : InterpMode :=
match interp with
| VStr key =>
  match list_find (fun own => own.1 = key) modeNames with
  | Some (_, (_, mode)) => ModeValue (InterpolationMode mode)
  | None => if bool_decide (key ∈ inheritedKeys) then Inherited key else ModeValue VUndefined
  end
| _ => ModeValue VUndefined
end.

(** [mode || ppro.Constants.InterpolationMode.BEZIER]: an inherited
    member is an object, hence truthy. *)
Definition or_bezier (mode : InterpMode) : InterpMode :=
match mode with
| ModeValue v => ModeValue (or_else v (InterpolationMode BEZIER))
| Inherited key => Inherited key
end.

(** One keyframe in one transaction; true when everything went through,
    false when anything threw. *)
Definition addKeyframe (param : ComponentParam) (project : Project)
  (seconds value interpolation : JsVal) : Exec Env bool :=
let interp := or_else interpolation (VStr "BEZIER") in
try_catch
  (let interpMode := or_bezier (modeMap interp) in
   tt ← TickTime_createWithSeconds seconds;
   issue (KeyframeTransaction param seconds (Number value) interpMode);;
   host (keyframeTransaction param project tt (Number value) interpMode);;
   toFixed seconds;;
   ret true)
  (fun _ => ret false).

(** The local variables of [zoomIn] after its first ten lines. *)
Record ZoomLocals : Type := {
  startScale : JsVal;
  endScale : JsVal;
  startTime : JsVal;
  duration : JsVal;
  interpolation : JsVal;
  animated : JsVal;
  actualStartScale : JsVal;
  actualEndScale : JsVal;
}.

(** [options || {}]: an absent (or otherwise falsy) argument is [None]. *)
Definition or_empty (options : option JsObject) : JsObject := default ∅ options.

(** [hasOwnProperty.call(options, k) ? options[k] : dflt]. *)
Definition own_or (options : JsObject) (k : string) (dflt : JsVal) : JsVal :=
if hasOwnProperty options k then prop options k else dflt.

Definition zoomIn_locals (options : JsObject) : ZoomLocals :=
let startScale := own_or options "startScale" (VNum (Num 100)) in
let endScale := own_or options "endScale" (VNum (Num 150)) in
let startTime := own_or options "startTime" (VNum (Num 0)) in
let duration := own_or options "duration" VNull in
let interpolation := or_else (prop options "interpolation") (VStr "BEZIER") in
let animated := own_or options "animated" (VBool false) in
{| startScale := startScale; endScale := endScale; startTime := startTime;
   duration := duration; interpolation := interpolation; animated := animated;
   actualStartScale := if truthy animated then startScale else endScale;
   actualEndScale := endScale |}.

Definition zoomIn (trackItem : TrackItem) (options : option JsObject) : Exec Env bool :=
let options := or_empty options in
let l := zoomIn_locals options in
try_catch
  (validation ← host (validateClip trackItem);
   if negb (valid validation) then ret false else
   project ← host getActiveProject;
   match project with
   | None => ret false
   | Some project =>
   context ← host (getMotionScaleParam trackItem project);
   match context with
   | None => ret false
   | Some componentParam =>
   clipDuration ← host (getClipDuration trackItem);
   clipStartTime ← host (getClipInPoint trackItem);
   match clipDuration, clipStartTime with
   | Some clipDuration, Some clipStartTime =>
     let zoomDuration := or_else (duration l) (VNum clipDuration) in
     let absoluteStartTime := js_add (VNum clipStartTime) (startTime l) in
     let absoluteEndTime := js_add absoluteStartTime zoomDuration in
     toFixed zoomDuration;;
     host (logClipInfo trackItem);;
     beginUndoGroup ("ChatCut: " +:+ (if truthy (animated l) then "Animated" else "Static") +:+ " Zoom");;
     startOK ← addKeyframe componentParam project absoluteStartTime (actualStartScale l) (interpolation l);
     if negb startOK then endUndoGroup;; ret false else
     endOK ← addKeyframe componentParam project absoluteEndTime (actualEndScale l) (interpolation l);
     endUndoGroup;;
     if negb endOK then ret false else ret true
   | _, _ => ret false
   end
   end
   end)
  (fun _ => endUndoGroup;; ret false).

(** The [for (var k in options)] copy of the own properties. *)
Definition copy_own (options : JsObject) : JsObject :=
map_fold (fun k v (rest : JsObject) => <[k := v]> rest) ∅ options.

(** The object [rest] that [zoomOut] passes to [zoomIn]. *)
Definition zoomOut_rest (options : JsObject) : JsObject :=
let rest := copy_own options in
let rest := <["startScale" := own_or options "startScale" (VNum (Num 150))]> rest in
let rest := <["endScale" := own_or options "endScale" (VNum (Num 100))]> rest in
rest.

Definition zoomOut (trackItem : TrackItem) (options : option JsObject) : Exec Env bool :=
let options := or_empty options in
zoomIn trackItem (Some (zoomOut_rest options)).

(** The [for] loop shared by the two batch functions, over the items from
    index [i] on, with the two counters. *)
Fixpoint batch_loop (apply : TrackItem -> Exec Env bool) (trackItems : list TrackItem)
  (successful failed : Z) : Exec Env BatchResult :=
match trackItems with
| [] => ret {| successful := successful; failed := failed |}
| item :: rest =>
  ok ← apply item;
  if (ok : bool) then batch_loop apply rest (successful + 1) failed
  else batch_loop apply rest successful (failed + 1)
end.

Definition zoomInBatch (trackItems : list TrackItem) (options : option JsObject) : Exec Env BatchResult :=
let options := or_empty options in
batch_loop (fun item => zoomIn item (Some options)) trackItems 0 0.

Definition zoomOutBatch (trackItems : list TrackItem) (options : option JsObject) : Exec Env BatchResult :=
let options := or_empty options in
batch_loop (fun item => zoomOut item (Some options)) trackItems 0 0.

(** [typeof blurriness === "number" ? blurriness : 50]. *)
Definition applyBlur_blurriness (blurriness : JsVal) : JsVal :=
if is_number blurriness then blurriness else VNum (Num 50).

Definition GaussianBlur : string := "AE.ADBE Gaussian Blur 2".

(** [trackItem] is [None] for a missing (falsy) track item. *)
Definition applyBlur (trackItem : option TrackItem) (blurriness : JsVal) : Exec Env bool :=
let blurriness := applyBlur_blurriness blurriness in
try_catch
  (project ← host getActiveProject;
   match project with
   | None => ret false
   | Some project =>
   match trackItem with
   | None => ret false
   | Some trackItem =>
   componentChain ← host (getComponentChain trackItem);
   match componentChain with
   | None => ret false
   | Some componentChain =>
   blurParam ← host (findBlurrinessParam componentChain);
   blurParam ← match blurParam with
               | Some p => ret (Some p)
               | None =>
                 issue (AppendComponent componentChain GaussianBlur);;
                 host (appendComponent componentChain GaussianBlur project);;
                 host (findBlurrinessParam componentChain)
               end;
   match blurParam with
   | None => ret false
   | Some blurParam =>
     issue (SetValue blurParam (Number blurriness));;
     host (setValueTransaction blurParam (Number blurriness) project);;
     ret true
   end
   end
   end
   end)
  (fun _ => ret false).

(** The three defaulting lines of [applyTransition]. *)
Definition applyTransition_durationSeconds (durationSeconds : JsVal) : JsVal :=
if is_number durationSeconds then durationSeconds else VNum (Num 1).

Definition applyTransition_applyToStart (applyToStart : JsVal) : JsVal :=
if is_boolean applyToStart then applyToStart else VBool true.

Definition applyTransition_transitionAlignment (transitionAlignment : JsVal) : JsVal :=
if is_number transitionAlignment then transitionAlignment else VNum (Num (1 # 2)).

(** [matchNameList.find(n => n.toLowerCase() === transitionName.toLowerCase())]:
    the callback throws on its first call when [transitionName] is not a
    string. *)
Fixpoint find_transition {S} (transitionName : JsVal) (matchNameList : list string)
  : Exec S (option string) :=
match matchNameList with
| [] => ret None
| n :: rest =>
  match transitionName with
  | VStr t =>
    if String.eqb (toLowerCase n) (toLowerCase t) then ret (Some n)
    else find_transition transitionName rest
  | _ => throw "transitionName.toLowerCase is not a function"
  end
end.

Definition applyTransition (item : TrackItem) (transitionName : JsVal)
  (durationSeconds applyToStart transitionAlignment : JsVal) : Exec Env bool :=
let durationSeconds := applyTransition_durationSeconds durationSeconds in
let applyToStart := applyTransition_applyToStart applyToStart in
let transitionAlignment := applyTransition_transitionAlignment transitionAlignment in
try_catch
  (matchNameList ← host getVideoTransitionMatchNames;
   matched ← find_transition transitionName matchNameList;
   match matched with
   | None => ret false
   | Some matched =>
     if String.eqb matched "" then ret false else
     videoTransition ← host (createVideoTransition matched);
     time ← TickTime_createWithSeconds durationSeconds;
     let opts := {| optApplyToStart := applyToStart; optDuration := time;
                    optForceSingleSided := false;
                    optTransitionAlignment := transitionAlignment |} in
     project ← host getActiveProject;
     issue (AddVideoTransition item matched opts);;
     host (addVideoTransition item videoTransition opts project);;
     ret true
   end)
  (fun _ => ret false).

End WithHost.
End EditingActions.

(** ** components/container.jsx *)

(** The response object of the backend ([processPrompt], [processMedia]).
    [action] and [error] are only tested for truth and compared with
    strings: [None] is a field that is missing or null. [parameters] and
    [message] are also printed, where a missing field and a null one
    differ. *)
Module AiResponse.

Inductive Field (A : Type) : Type :=
| Missing
| Null
| Given (a : A).
Arguments Missing {A}.
Arguments Null {A}.
Arguments Given {A} a.

(** The value of a field, if it has one. *)
Definition given {A} (f : Field A) : option A :=
match f with
| Given a => Some a
| Missing | Null => None
end.

Record t : Type := {
  action : option string;
  parameters : Field JsObject;
  message : Field string;
  error : option string;
}.
End AiResponse.

(** An entry of [editHistory]. *)
Record EditHistoryEntry `{HostTypes} : Type := {
  actionName : string;
  trackItems : list TrackItem;
  previousState : Snapshot;
  parameters : JsObject;
}.

(** The service modules the container imports ([undoService],
    [actionDispatcher], [backendClient], [clipUtils]) and
    [JSON.stringify]. Each call may change the host and may throw. *)
Class FrontendServices `{HostTypes} : Type := {
  executeUndo : EditHistoryEntry -> Exec Env BatchResult;
  capturePreviousState : list TrackItem -> string -> Exec Env Snapshot;
  dispatchAction : string -> list TrackItem -> JsObject -> Exec Env BatchResult;
  processPrompt : string -> Exec Env AiResponse.t;
  processMedia : list string -> string -> Exec Env AiResponse.t;
  getSelectedMediaFilePaths : Project -> Exec Env (list string);
  JSON_stringify : AiResponse.Field JsObject -> string;
}.

Module Container.

Inductive Sender : Type := bot | user.

(** A chat message; its [id] (a timestamp) is left out. *)
Record Message : Type := {
  sender : Sender;
  text : string;
}.

Section WithServices.
Context `{FrontendServices}.

(** The [useState] cells of the component. *)
Record ContainerState : Type := {
  message : list Message;
  processMediaMode : bool;
  editHistory : list EditHistoryEntry;
  chatCutUndosCount : Z;
}.

Definition initialState : ContainerState :=
{| message := [ {| sender := bot;
                   text := "Welcome to ChatCut! Edit videos with words, not clicks!" |} ];
   processMediaMode := true;
   editHistory := [];
   chatCutUndosCount := 0 |}.

(** The setters, applied to an updater function. *)
Definition setMessage (f : list Message -> list Message) (st : ContainerState) : ContainerState :=
{| message := f (message st); processMediaMode := processMediaMode st;
   editHistory := editHistory st; chatCutUndosCount := chatCutUndosCount st |}.

Definition setProcessMediaMode (b : bool) (st : ContainerState) : ContainerState :=
{| message := message st; processMediaMode := b;
   editHistory := editHistory st; chatCutUndosCount := chatCutUndosCount st |}.

Definition setEditHistory (f : list EditHistoryEntry -> list EditHistoryEntry)
  (st : ContainerState) : ContainerState :=
{| message := message st; processMediaMode := processMediaMode st;
   editHistory := f (editHistory st); chatCutUndosCount := chatCutUndosCount st |}.

Definition setChatCutUndosCount (f : Z -> Z) (st : ContainerState) : ContainerState :=
{| message := message st; processMediaMode := processMediaMode st;
   editHistory := editHistory st; chatCutUndosCount := f (chatCutUndosCount st) |}.

(** What a handler runs on: the component state and the host. *)
Record Panel : Type := {
  ui : ContainerState;
  env : Env;
}.

Definition setState (f : ContainerState -> ContainerState) : Exec Panel unit :=
modify (fun p => {| ui := f (ui p); env := env p |}).

(** The state cells as a handler's closure sees them. *)
Definition readState : Exec Panel ContainerState :=
fun p => (Returned (ui p), p).

Definition service {A} (op : Exec Env A) : Exec Panel A :=
focus env (fun e p => {| ui := ui p; env := e |}) op.

Definition addMessage (msg : Message) : Exec Panel unit :=
setState (setMessage (fun prev => prev ++ [msg])).

(** [writeToConsole] with a string argument. *)
Definition writeToConsole (consoleMessage : string) : Exec Panel unit :=
addMessage {| sender := bot; text := consoleMessage |}.

Definition clearConsole : Exec Panel unit :=
setState (setMessage (fun _ => [])).

(** The handler of the undo button. The values of [editHistory] and
    [chatCutUndosCount] are the ones of the state the handler starts from;
    the count is updated through its functional setter. *)
Definition handleUndo : Exec Panel unit :=
st ← readState;
let editHistory := editHistory st in
let chatCutUndosCount := chatCutUndosCount st in
let remainingEdits := Z.of_nat (length editHistory) - chatCutUndosCount in
if remainingEdits <=? 0 then
  writeToConsole "ℹ️ No ChatCut edits to undo.";;
  writeToConsole "💡 Tip: Make a new ChatCut edit first, then you can undo it."
else
  let editIndex := Z.of_nat (length editHistory) - chatCutUndosCount - 1 in
  match array_get editHistory editIndex with
  | None => writeToConsole "❌ Could not find edit history entry to undo."
  | Some historyEntry =>
    writeToConsole ("🔄 Attempting to undo ChatCut edit " +:+ pretty (chatCutUndosCount + 1)
                    +:+ " of " +:+ pretty (length editHistory)
                    +:+ " (" +:+ actionName historyEntry +:+ ")...");;
    try_catch
      (result ← service (executeUndo historyEntry);
       if successful result >? 0 then
         setState (setChatCutUndosCount (fun prev => prev + 1));;
         writeToConsole ("↩️ Undo completed! Reversed " +:+ pretty (successful result) +:+ " clip(s).");;
         if failed result >? 0 then
           writeToConsole ("⚠️ Failed to undo " +:+ pretty (failed result) +:+ " clip(s).")
         else ret tt
       else
         writeToConsole "❌ Undo failed - could not reverse the edit.")
      (fun err => writeToConsole ("❌ Undo failed with error: " +:+ shown err))
  end.

Definition handleRedo : Exec Panel unit :=
writeToConsole "ℹ️ Redo is not yet implemented. Use Premiere's native undo/redo (Ctrl+Z / Ctrl+Shift+Z) if needed.".

(** A string used as a condition: missing and empty strings are falsy. *)
Definition truthy_str (o : option string) : option string :=
match o with
| Some s => if String.eqb s "" then None else Some s
| None => None
end.

(** A field inside a template literal. *)
Definition template (f : AiResponse.Field string) : string :=
match f with
| AiResponse.Missing => "undefined"
| AiResponse.Null => "null"
| AiResponse.Given s => s
end.

Definition error_is (aiResponse : AiResponse.t) (code : string) : bool :=
match AiResponse.error aiResponse with
| Some e => String.eqb e code
| None => false
end.

(** The updater passed to [setEditHistory] in [editClips]. *)
Definition trimAndAppend (currentUndoCount : Z) (historyEntry : EditHistoryEntry)
  (prev : list EditHistoryEntry) : list EditHistoryEntry :=
if currentUndoCount >? 0 then
  let newHistory := slice prev 0 (Z.of_nat (length prev) - currentUndoCount) in
  newHistory ++ [historyEntry]
else
  prev ++ [historyEntry].

(** Storing an edit: the history update and the reset of the undo count
    in the success branch of [editClips]. *)
Definition recordEdit (currentUndoCount : Z) (historyEntry : EditHistoryEntry) : Exec Panel unit :=
setState (setEditHistory (trimAndAppend currentUndoCount historyEntry));;
if currentUndoCount >? 0 then setState (setChatCutUndosCount (fun _ => 0)) else ret tt.

(** The choice between the prompt flow and the media flow. *)
Definition askBackend (st : ContainerState) (project : Project) (text : string)
  : Exec Panel AiResponse.t :=
if processMediaMode st then
  filePaths ← service (getSelectedMediaFilePaths project);
  if bool_decide (length filePaths = 0%nat) then
    writeToConsole "⚠️ No accessible file paths found. Falling back to prompt-only mode.";;
    writeToConsole "💡 Tip: Make sure clips are not offline and have valid media paths.";;
    service (processPrompt text)
  else
    writeToConsole ("Sending " +:+ pretty (length filePaths) +:+ " media file path(s) to Backend");;
    aiResponse ← service (processMedia filePaths text);
    if error_is aiResponse "FILE_ACCESS_ERROR" then
      writeToConsole "⚠️ File access error. Falling back to prompt-only mode.";;
      service (processPrompt text)
    else ret aiResponse
else
  service (processPrompt text).

(** [editClips], lines 173-219: the checks and the request to the
    backend. [None] stands for the early returns, [Some] carries the
    action name and the response on to the rest of the function. *)
Definition requestAction (st : ContainerState) (project : Project)
  (trackItems : list TrackItem) (text : string) : Exec Panel (option (string * AiResponse.t)) :=
if bool_decide (length trackItems = 0%nat) then
  writeToConsole "❌ No clips selected. Please select at least one clip on the timeline.";;
  ret None
else
  writeToConsole ("Found " +:+ pretty (length trackItems) +:+ " selected clip(s)");;
  writeToConsole ("🤖 Sending to AI: " +:+ dquote +:+ text +:+ dquote);;
  aiResponse ← askBackend st project text;
  match truthy_str (AiResponse.action aiResponse) with
  | Some action =>
    writeToConsole ("✨ AI extracted: " +:+ dquote +:+ action +:+ dquote +:+ " with parameters: "
                    +:+ JSON_stringify (AiResponse.parameters aiResponse));;
    match truthy_str (AiResponse.given (AiResponse.message aiResponse)) with
    | Some m => writeToConsole ("💬 AI message: " +:+ m)
    | None => ret tt
    end;;
    ret (Some (action, aiResponse))
  | None =>
    (if error_is aiResponse "SMALL_TALK" then
       writeToConsole (default "Hi! How can I help edit your video?"
                               (truthy_str (AiResponse.given (AiResponse.message aiResponse))))
     else if error_is aiResponse "NEEDS_SELECTION" || error_is aiResponse "NEEDS_SPECIFICATION" then
       writeToConsole ("🤔 " +:+ template (AiResponse.message aiResponse))
     else
       writeToConsole ("❌ AI couldn't understand: " +:+
                       default "Try: 'zoom in by 120%', 'zoom out', etc."
                               (truthy_str (AiResponse.given (AiResponse.message aiResponse))));;
       match truthy_str (AiResponse.error aiResponse) with
       | Some e => writeToConsole ("⚠️ Error: " +:+ e)
       | None => ret tt
       end);;
    ret None
  end.

(** [editClips], lines 221-230: the snapshot, then the dispatch. *)
Definition captureAndDispatch (trackItems : list TrackItem) (action : string)
  (aiResponse : AiResponse.t) : Exec Panel (Snapshot * BatchResult) :=
writeToConsole "📸 Capturing previous state for undo...";;
previousState ← service (capturePreviousState trackItems action);
result ← service (dispatchAction action trackItems
                    (default ∅ (AiResponse.given (AiResponse.parameters aiResponse))));
ret (previousState, result).

(** The entry built at lines 234-239. *)
Definition historyEntryOf (trackItems : list TrackItem) (action : string)
  (aiResponse : AiResponse.t) (previousState : Snapshot) : EditHistoryEntry :=
{| actionName := action; trackItems := trackItems; previousState := previousState;
   parameters := default ∅ (AiResponse.given (AiResponse.parameters aiResponse)) |}.

(** [editClips], lines 232-271: what is done with the dispatch result. *)
Definition storeResult (st : ContainerState) (trackItems : list TrackItem) (action : string)
  (aiResponse : AiResponse.t) (previousState : Snapshot) (result : BatchResult)
  : Exec Panel unit :=
if successful result >? 0 then
  let historyEntry := historyEntryOf trackItems action aiResponse previousState in
  let currentUndoCount := chatCutUndosCount st in
  recordEdit currentUndoCount historyEntry;;
  writeToConsole ("✅ Action applied successfully to " +:+ pretty (successful result) +:+ " clip(s)!");;
  (if failed result >? 0 then
     writeToConsole ("⚠️ Failed on " +:+ pretty (failed result) +:+ " clip(s)")
   else ret tt);;
  writeToConsole "ℹ️ Use the panel's Undo button to revert ChatCut edits only."
else
  writeToConsole "❌ Failed to apply action to any clips. Check console for errors.".

(** The [catch] block of [editClips]. [errorMessage] is [err.message ||
    err]; when it is not a string it has no [includes], and the call is a
    TypeError that leaves the block. *)
Definition editClips_catch (err : Thrown) : Exec Panel unit :=
writeToConsole ("❌ Error: " +:+ shown err);;
match err with
| Msg errorMessage =>
  if includes errorMessage "Backend server is not running" then
    writeToConsole "💡 Hint: Start the backend: cd ChatCut/backend && . .venv/bin/activate && python main.py"
  else if includes errorMessage "503" || includes errorMessage "Network request failed" then
    writeToConsole "💡 Hint: Make sure the backend server is running on port 3001"
  else ret tt
| NotString _ => throw "errorMessage.includes is not a function"
end.

Definition editClips (project : Project) (trackItems : list TrackItem) (text : string)
  : Exec Panel unit :=
st ← readState;
try_catch
  (request ← requestAction st project trackItems text;
   match request with
   | None => ret tt
   | Some (action, aiResponse) =>
     '(previousState, result) ← captureAndDispatch trackItems action aiResponse;
     storeResult st trackItems action aiResponse previousState result
   end)
  editClips_catch.

(** [editHistory.length > chatCutUndosCount]. *)
Definition canUndo (st : ContainerState) : bool :=
Z.of_nat (length (editHistory st)) >? chatCutUndosCount st.

End WithServices.
End Container.

(** ** The provider contract of the backend *)

Module Provider.

(** One extracted operation. *)
Record Operation : Type := {
  opAction : string;
  opParameters : JsObject;
}.

(** Modelled from the spec: the [ActionResult] record of the data model.
    The backend that builds it is not part of the sources at hand; the
    fields are the ones the data model lists, with [None] for an absent
    [action] or [error] and the empty list for absent [actions]. *)
Record ActionResult : Type := {
  action : option string;
  actions : list Operation;
  parameters : JsObject;
  confidence : Q;
  message : string;
  error : option string;
}.

(** Modelled from the spec: the three ways a provider builds its result,
    as the test plan of the result helper describes them. A success has
    confidence 1.0 and no error; a single action fills [action], several
    fill [actions] and leave [action] absent; a failure has confidence
    0.0, the error code, and no action. *)
Definition success (a : Operation) (msg : string) : ActionResult :=
{| action := Some (opAction a); actions := []; parameters := opParameters a;
   confidence := 1; message := msg; error := None |}.

Definition success_multiple (first : Operation) (others : list Operation) (msg : string)
  : ActionResult :=
{| action := None; actions := first :: others; parameters := ∅;
   confidence := 1; message := msg; error := None |}.

Definition failure (code : string) (msg : string) : ActionResult :=
{| action := None; actions := []; parameters := ∅;
   confidence := 0; message := msg; error := Some code |}.

(** Modelled from the spec: what the upstream service can answer to one
    request, seen from the provider boundary. *)
Inductive UpstreamReply : Type :=
| NetworkFailure (code : string) (detail : string)
| Unparseable (detail : string)
| NeedsInput (code : string) (question : string)   (* NEEDS_SELECTION, NEEDS_SPECIFICATION *)
| Extracted (first : Operation) (others : list Operation) (msg : string).

(** Modelled from the spec: a media file of the optional media context,
    after validation. *)
Inductive MediaCheck : Type :=
| MediaOk
| MediaRejected (code : string).   (* FILE_NOT_FOUND, FILE_TOO_LARGE, FILE_ACCESS_ERROR *)

(** Modelled from the spec: a provider variant (cloud language model,
    deterministic stub, video generation) is given by whether it is
    configured, its small-talk heuristic, its media validation and its
    upstream service. *)
Record Provider : Type := {
  getProviderName : string;
  isConfigured : bool;
  isSmallTalk : string -> bool;
  checkMedia : string -> MediaCheck;
  upstream : string -> list string -> list string -> UpstreamReply;
}.

Fixpoint firstRejected (check : string -> MediaCheck) (paths : list string) : option string :=
match paths with
| [] => None
| p :: rest =>
  match check p with
  | MediaRejected code => Some code
  | MediaOk => firstRejected check rest
  end
end.

(** Modelled from the spec: [processPrompt] of the provider contract.
    Missing credentials, small talk and rejected media files are answered
    without an upstream call; every upstream failure becomes a failure
    result. *)
Definition processPrompt (P : Provider) (promptText : string)
  (availableActionsCatalog : list string) (mediaContext : list string) : ActionResult :=
if negb (isConfigured P) then failure "API_KEY_MISSING" "API key is not configured"
else if isSmallTalk P promptText then failure "SMALL_TALK" "Hi! How can I help edit your video?"
else
  match firstRejected (checkMedia P) mediaContext with
  | Some code => failure code "media file rejected"
  | None =>
    match upstream P promptText availableActionsCatalog mediaContext with
    | NetworkFailure code detail => failure code detail
    | Unparseable detail => failure "INVALID_RESPONSE" detail
    | NeedsInput code question => failure code question
    | Extracted first [] msg => success first msg
    | Extracted first (second :: others) msg => success_multiple first (second :: others) msg
    end
  end.

(** The three conditions of the invariant. *)
Definition actionPresent (r : ActionResult) : Prop := is_Some (action r).
Definition actionsNonEmpty (r : ActionResult) : Prop := actions r ≠ [].
Definition errorPresent (r : ActionResult) : Prop := is_Some (error r).

Definition exactlyOne (r : ActionResult) : Prop :=
(actionPresent r ∧ ¬ actionsNonEmpty r ∧ ¬ errorPresent r) ∨
(¬ actionPresent r ∧ actionsNonEmpty r ∧ ¬ errorPresent r) ∨
(¬ actionPresent r ∧ ¬ actionsNonEmpty r ∧ errorPresent r).

End Provider.

(** ** Notions used to state the properties *)

Module EditingSpec.
Import EditingActions.

Section WithHost.
Context `{PremiereHost}.

(** A keyframe write, as the pair of the time and the value written. *)
Definition keyframeOf (c : HostCall) : option (JsVal * JsNum) :=
match c with
| KeyframeTransaction _ seconds value _ => Some (seconds, value)
| _ => None
end.

(** A value written by [createSetValueAction]. *)
Definition setValueOf (c : HostCall) : option JsNum :=
match c with SetValue _ value => Some value | _ => None end.

(** What [applyTransition] asks of the host: the seconds a duration is
    created from, and the options of a transition added. *)
Definition transitionOf (c : HostCall) : option (JsVal + AddTransitionOptions) :=
match c with
| CreateWithSeconds seconds => Some (inl seconds)
| AddVideoTransition _ _ opts => Some (inr opts)
| _ => None
end.

Definition keyframes (calls : list HostCall) : list (JsVal * JsNum) := omap keyframeOf calls.
Definition setValues (calls : list HostCall) : list JsNum := omap setValueOf calls.
Definition transitionCalls (calls : list HostCall) : list (JsVal + AddTransitionOptions) :=
omap transitionOf calls.

(** [observes f m Q]: from every state, [m] only appends calls to the
    journal, and [Q] holds of its completion and of what [f] selects
    among the calls it appended. *)
Definition observes {A X} (f : HostCall -> option X) (m : Exec Env A)
  (Q : Completion A -> list X -> Prop) : Prop :=
forall e, exists calls, journal (m e).2 = journal e ++ calls /\ Q (m e).1 (omap f calls).

(** The two keyframes of a zoom with the local variables [l], on a clip
    starting at [clipStartTime] and lasting [clipDuration]. *)
Definition zoomKeyframes (l : ZoomLocals) (clipStartTime clipDuration : JsNum)
  : list (JsVal * JsNum) :=
let absoluteStartTime := js_add (VNum clipStartTime) (startTime l) in
let absoluteEndTime := js_add absoluteStartTime (or_else (duration l) (VNum clipDuration)) in
[(absoluteStartTime, Number (actualStartScale l)); (absoluteEndTime, Number (actualEndScale l))].

(** What a transition with the given arguments asks of the host, [time]
    being the duration the host created. *)
Definition expectedTransitionCalls (durationSeconds applyToStart transitionAlignment : JsVal)
  (time : TickTime) : list (JsVal + AddTransitionOptions) :=
[inl (applyTransition_durationSeconds durationSeconds);
 inr {| optApplyToStart := applyTransition_applyToStart applyToStart;
        optDuration := time;
        optForceSingleSided := false;
        optTransitionAlignment := applyTransition_transitionAlignment transitionAlignment |}].

(** The per-item operation applied to each item in turn, the host state
    being passed from one application to the next; the list of the
    values returned. It stops at an application that throws. *)
Fixpoint applyEach (apply : TrackItem -> Exec Env bool) (items : list TrackItem) (e : Env)
  : list bool * Env :=
match items with
| [] => ([], e)
| item :: rest =>
  match apply item e with
  | (Returned ok, e') => let '(oks, e'') := applyEach apply rest e' in (ok :: oks, e'')
  | (Threw _, e') => ([], e')
  end
end.

Definition count (b : bool) (oks : list bool) : Z :=
Z.of_nat (length (filter (fun ok => ok = b) oks)).

(** The options of [zoomOut] as a caller of [zoomIn] would write them:
    the two scales are added when their keys are absent. *)
Definition withZoomOutDefaults (options : JsObject) : JsObject :=
let o1 := match options !! "startScale" with
          | Some _ => options
          | None => <["startScale" := VNum (Num 150)]> options
          end in
match options !! "endScale" with
| Some _ => o1
| None => <["endScale" := VNum (Num 100)]> o1
end.

End WithHost.
End EditingSpec.

Module ContainerSpec.
Section WithServices.
Context `{FrontendServices}.
Import Container.


(** Console messages with the given texts. *)
Definition botSays (texts : list string) : list Message :=
(fun t => {| sender := bot; text := t |}) <$> texts.

(** The panel after [writeToConsole text]. *)
Definition told (text : string) (p : Panel) : Panel :=
{| ui := setMessage (fun prev => prev ++ botSays [text]) (ui p); env := env p |}.

(** The texts written to the console between [p] and [p']. *)
Definition newTexts (p p' : Panel) : list string :=
text <$> drop (length (message (ui p))) (message (ui p')).

(** The panel with another host state. *)
Definition withEnv (e : Env) (p : Panel) : Panel := {| ui := ui p; env := e |}.

(** The panel with one more edit undone. *)
Definition undone (p : Panel) : Panel :=
{| ui := setChatCutUndosCount (fun prev => prev + 1) (ui p); env := env p |}.

(** [0 <= cursor <= length(history)]. *)
Definition cursorInRange (st : ContainerState) : Prop :=
0 <= chatCutUndosCount st <= Z.of_nat (length (editHistory st)).

(** The history and the undo count are the same in two states. *)
Definition sameHistory (st st' : ContainerState) : Prop :=
editHistory st' = editHistory st /\ chatCutUndosCount st' = chatCutUndosCount st.

(** [keeps m]: [m] leaves the history and the undo count as they are. *)
Definition keeps {A} (m : Exec Panel A) : Prop :=
forall p, sameHistory (ui p) (ui (m p).2).

(** One user interaction with the panel. *)
Inductive step : Panel -> Panel -> Prop :=
| step_undo p : step p (handleUndo p).2
| step_redo p : step p (handleRedo p).2
| step_edit project trackItems text p : step p (editClips project trackItems text p).2
| step_record historyEntry p :
    step p (recordEdit (chatCutUndosCount (ui p)) historyEntry p).2
| step_message msg p : step p (addMessage msg p).2
| step_clear p : step p (clearConsole p).2
| step_mode b p : step p (setState (setProcessMediaMode b) p).2
| step_host e p : step p {| ui := ui p; env := e |}.

End WithServices.
End ContainerSpec.

(** ** A small host to run the definitions on *)

Module Demo.

(** Clips are numbered; the world counts the calls made to the host. *)
#[local] Instance types : HostTypes := {|
  World := nat;
  TrackItem := nat;
  Project := unit;
  ComponentParam := nat;
  ComponentChain := nat;
  TickTime := JsVal;
  VideoTransition := string;
  Snapshot := string;
|}.

Definition answer {A} (a : A) : Exec nat A := fun w => (Returned a, S w).

(** Lower case on the letters A to Z, which is all the names of this
    host need. *)
Definition lower_ascii (c : Ascii.ascii) : Ascii.ascii :=
let n := Ascii.N_of_ascii c in
if ((65 <=? n) && (n <=? 90))%N then Ascii.ascii_of_N (n + 32) else c.

Fixpoint lowerCase (s : string) : string :=
match s with
| EmptyString => EmptyString
| String c rest => String (lower_ascii c) (lowerCase rest)
end.

(** Clip 1 is offline and the timing of clip 3 cannot be read; every
    other call succeeds. Clips last ten seconds and start at zero. *)
#[local] Instance premiere : PremiereHost := {|
  validateClip item := answer {| valid := negb (Nat.eqb item 1); reason := "offline" |};
  getMotionScaleParam item _ := answer (Some item);
  getClipDuration item := if Nat.eqb item 3 then throw "no duration" else answer (Some (Num 10));
  getClipInPoint _ := answer (Some (Num 0));
  logClipInfo _ := answer tt;
  getActiveProject := answer (Some tt);
  hostBeginUndoGroup _ := answer tt;
  hostEndUndoGroup := answer tt;
  createWithSeconds seconds := answer seconds;
  InterpolationMode m :=
    match m with
    | LINEAR => VNum (Num 0) | BEZIER => VNum (Num 5) | HOLD => VNum (Num 4)
    | EASE_IN => VUndefined | EASE_OUT => VUndefined
    end;
  keyframeTransaction _ _ _ _ _ := answer tt;
  getComponentChain item := answer (Some item);
  findBlurrinessParam chain := answer (Some chain);
  appendComponent _ _ _ := answer tt;
  setValueTransaction _ _ _ := answer tt;
  getVideoTransitionMatchNames := answer ["AE.ADBE Cross Dissolve New"; "AE.ADBE Dip To Black"];
  createVideoTransition matched := answer matched;
  addVideoTransition _ _ _ _ := answer tt;
  stringToNumber _ := NaN;
  numberToString _ := "n";
  numberAdd x y := Num (Qred (x + y));
  toLowerCase := lowerCase;
|}.

Definition clip (n : nat) : TrackItem := n.

Definition clips (l : list nat) : list TrackItem := l.

Definition project : Project := tt.

Definition start : Env := {| world := 0%nat; journal := [] |}.

(** A dispatcher for the two zoom actions; an unknown action name fails
    on every clip. Undo reverses every clip of the entry, except that an
    entry without clips makes it throw. *)
#[local] Instance services : FrontendServices := {|
  executeUndo entry :=
    match trackItems entry with
    | [] => throw "nothing to restore"
    | items => ret {| successful := Z.of_nat (length items); failed := 0 |}
    end;
  capturePreviousState _ action := ret ("before " +:+ action);
  dispatchAction action items params :=
    if String.eqb action "zoomIn" then EditingActions.zoomInBatch items (Some params)
    else if String.eqb action "zoomOut" then EditingActions.zoomOutBatch items (Some params)
    else ret {| successful := 0; failed := Z.of_nat (length items) |};
  processPrompt text :=
    if String.eqb text "zoom in by 120%" then
      ret {| AiResponse.action := Some "zoomIn";
             AiResponse.parameters := AiResponse.Given {[ "endScale" := VNum (Num 120) ]};
             AiResponse.message := AiResponse.Missing; AiResponse.error := None |}
    else
      ret {| AiResponse.action := Some text; AiResponse.parameters := AiResponse.Missing;
             AiResponse.message := AiResponse.Missing; AiResponse.error := None |};
  processMedia _ text := throw "Backend server is not running";
  getSelectedMediaFilePaths _ := ret [];
  JSON_stringify _ := "{}";
|}.

Definition entry (name : string) (items : list nat) : EditHistoryEntry :=
{| actionName := name; trackItems := items; previousState := "before " +:+ name;
   parameters := ∅ |}.

Definition panel (history : list EditHistoryEntry) (count : Z) : Container.Panel :=
{| Container.ui := {| Container.message := []; Container.processMediaMode := true;
                      Container.editHistory := history;
                      Container.chatCutUndosCount := count |};
   Container.env := start |}.

Definition provider : Provider.Provider :=
{| Provider.getProviderName := "stub";
   Provider.isConfigured := true;
   Provider.isSmallTalk s := String.eqb s "hello";
   Provider.checkMedia _ := Provider.MediaOk;
   Provider.upstream prompt _ _ :=
     Provider.Extracted {| Provider.opAction := "zoomIn";
                           Provider.opParameters := {[ "endScale" := VNum (Num 120) ]} |}
                        [] "zooming" |}.

End Demo.

(** ** The rest of services/editingActions.js *)

(** The timeline and the effect factories of [premierepro], as far as
    [applyFilter], [applyRandomFilter], [testZoom] and the container's
    [selectClips] use them, and [Math.random]. [None] is a null result. *)
Class TimelineHost `{HostTypes} : Type := {
  Sequence : Type;
  Selection : Type;
  Component : Type;
  getActiveSequence : Project -> Exec World (option Sequence);
  getSelection : Sequence -> Exec World (option Selection);
  (* [clipsOnly] is true for getTrackItems(TrackItemType.CLIP, false) *)
  getTrackItems : Selection -> bool -> Exec World (option (list TrackItem));
  getComponentCount : ComponentChain -> Exec World Z;
  getComponentAtIndex : ComponentChain -> Z -> Exec World (option Component);
  getMatchName : Component -> Exec World string;
  (* ppro.VideoFilterFactory *)
  getMatchNames : Exec World (option (list string));
  createComponent : option string -> Exec World Component;
  (* createAppendComponentAction + executeAction *)
  appendComponentAction : ComponentChain -> Component -> Project -> Exec World unit;
  Math_random : Exec World Q;
}.

Module EditingActionsRest.
Import EditingActions.

(** [s.replace(/c/g, by)] for a one-character pattern. *)
Fixpoint replaceAll (c : Ascii.ascii) (by_ : string) (s : string) : string :=
match s with
| EmptyString => EmptyString
| String a rest =>
  if Ascii.eqb a c then by_ +:+ replaceAll c by_ rest
  else String a (replaceAll c by_ rest)
end.

Definition backslash : Ascii.ascii := Ascii.ascii_of_nat 92.
Definition quote : Ascii.ascii := Ascii.ascii_of_nat 34.

Definition escapeForExtendScript (str : string) : string :=
replaceAll quote (String backslash (String quote EmptyString))
  (replaceAll backslash (String backslash (String backslash EmptyString)) str).

(** The script [beginUndoGroup] hands to [executeScript]. *)
Definition beginUndoGroup_script (title : string) : string :=
let t := if String.eqb title "" then "ChatCut Edit" else title in
"app.beginUndoGroup(" +:+ dquote +:+ escapeForExtendScript t +:+ dquote +:+ ")".

Section WithHost.
Context `{PremiereHost} `{!TimelineHost}.

(** Reading a property of a value that may be null: a TypeError on null. *)
Definition nonNull {S A} (o : option A) : Exec S A :=
match o with
| Some a => ret a
| None => throw "Cannot read properties of null"
end.

(** The last four statements of the two filter functions: the component
    chain of the item, the project, the append action and its execution. *)
Definition appendTo (item : TrackItem) (name : string) (component : Component)
  : Exec Env unit :=
componentChain ← host (getComponentChain item);
project ← host getActiveProject;
componentChain ← nonNull componentChain;
project ← nonNull project;
issue (AppendComponent componentChain name);;
host (appendComponentAction componentChain component project).

(** [matchNames.indexOf(filterName) !== -1]: the comparison is strict, so
    only a string can be found; the result is that string. *)
Definition listed (matchNames : list string) (filterName : JsVal) : option string :=
match filterName with
| VStr s => if bool_decide (s ∈ matchNames) then Some s else None
| _ => None
end.

Definition applyFilter (item : TrackItem) (filterName : JsVal) : Exec Env bool :=
try_catch
  (matchNames ← host getMatchNames;
   matchNames ← nonNull matchNames;
   match listed matchNames filterName with
   | None => ret false
   | Some filterName =>
     component ← host (createComponent (Some filterName));
     appendTo item filterName component;;
     ret true
   end)
  (fun _ => ret false).





End WithHost.
End EditingActionsRest.

(** ** The rest of components/container.jsx *)

Module ContainerRest.
Import EditingActions EditingActionsRest Container.

Section WithServices.
Context `{FrontendServices} `{!PremiereHost} `{!TimelineHost}.

(** [text.trim()] is left to the language. *)
Variable trim : string -> string.

(** The inner loop of [selectClips] from component [j] on, [fuel] being
    the number of indices left below [componentCount]: true at the first
    component whose match name contains one of the three words; a
    component that cannot be read is skipped. *)
Fixpoint hasVideoFrom (fuel : nat) (componentChain : ComponentChain) (j : Z) : Exec Env bool :=
match fuel with
| O => ret false
| S fuel' =>
  found ← try_catch
            (component ← host (getComponentAtIndex componentChain j);
             component ← nonNull component;
             matchName ← host (getMatchName component);
             ret (includes matchName "Motion" || includes matchName "ADBE"
                  || includes matchName "Video"))
            (fun _ => ret false);
  if (found : bool) then ret true else hasVideoFrom fuel' componentChain (j + 1)
end.

(** The body of the outer loop for one clip; a clip whose components
    cannot be read is not kept. *)
Definition hasVideo (clip : TrackItem) : Exec Env bool :=
try_catch
  (componentChain ← host (getComponentChain clip);
   componentChain ← nonNull componentChain;
   componentCount ← host (getComponentCount componentChain);
   hasVideoFrom (Z.to_nat componentCount) componentChain 0)
  (fun _ => ret false).

(** The outer loop, with the array [videoTrackItems] filled so far. *)
Fixpoint videoClips (trackItems videoTrackItems : list TrackItem) : Exec Env (list TrackItem) :=
match trackItems with
| [] => ret videoTrackItems
| clip :: rest =>
  keep ← hasVideo clip;
  videoClips rest (if (keep : bool) then videoTrackItems ++ [clip] else videoTrackItems)
end.

(** [ppro.Project.getActiveProject()] of the container: the module is
    replaced by a stub whose call throws when it could not be loaded. *)
Definition containerProject (loaded : bool) : Exec Env (option Project) :=
if loaded then host getActiveProject else throw "Premiere Pro API not available".

Definition selectClips (loaded : bool) (text : string) : Exec Panel unit :=
try_catch
  (project ← service (containerProject loaded);
   project ← nonNull project;
   sequence ← service (host (getActiveSequence project));
   sequence ← nonNull sequence;
   selection ← service (host (getSelection sequence));
   selection ← nonNull selection;
   trackItems ← service (host (getTrackItems selection true));
   trackItems ← nonNull trackItems;
   videoTrackItems ← service (videoClips trackItems []);
   if bool_decide (length videoTrackItems = 0%nat) then
     writeToConsole "❌ No video clips selected. Please select clips with video content on video tracks."
   else
     editClips project videoTrackItems text)
  (fun err => addMessage {| sender := bot; text := "Error: " +:+ shown err |}).

Definition onSend (loaded : bool) (text : string) : Exec Panel unit :=
if String.eqb text "" || String.eqb (trim text) "" then ret tt
else
  addMessage {| sender := user; text := trim text |};;
  selectClips loaded text.

End WithServices.
End ContainerRest.

(** ** Notions used to state the further properties *)

Module RestSpec.
Import EditingActions EditingActionsRest Container ContainerRest.

(** The line terminators of the scripting language, as the UTF-8 text of
    the model holds them: line feed, carriage return, and the line and
    paragraph separators U+2028 and U+2029. *)
Definition LF : string := String (Ascii.ascii_of_nat 10) EmptyString.
Definition CR : string := String (Ascii.ascii_of_nat 13) EmptyString.
Definition LS : string :=
String (Ascii.ascii_of_nat 226) (String (Ascii.ascii_of_nat 128)
  (String (Ascii.ascii_of_nat 168) EmptyString)).
Definition PS : string :=
String (Ascii.ascii_of_nat 226) (String (Ascii.ascii_of_nat 128)
  (String (Ascii.ascii_of_nat 169) EmptyString)).

(** A line terminator starts the text. *)
Definition startsWithTerminator (body : string) : bool :=
String.prefix LF body || String.prefix CR body || String.prefix LS body || String.prefix PS body.

(** The text holds a line terminator. *)
Definition hasLineTerminator (str : string) : bool :=
includes str LF || includes str CR || includes str LS || includes str PS.

(** The text a double-quoted string literal with the given body denotes.
    A backslash followed by a backslash or a quote stands for that
    character; the other escape sequences are given no reading here. A
    bare quote would end the literal early, a backslash at the very end
    would take the closing quote with it, and a line terminator inside a
    literal is a syntax error: none of these has a reading. *)
Fixpoint literalBody (body : string) : option string :=
match body with
| EmptyString => Some EmptyString
| String a rest =>
  if Ascii.eqb a backslash then
    match rest with
    | EmptyString => None
    | String b rest' =>
      if Ascii.eqb b backslash || Ascii.eqb b quote then String b <$> literalBody rest'
      else None
    end
  else if Ascii.eqb a quote then None
  else if startsWithTerminator body then None
  else String a <$> literalBody rest
end.

Section WithHost.
Context `{PremiereHost} `{!TimelineHost}.


(** The calls of [applyBlur] that change the clip: the name of a
    component appended, or a value set. *)
Definition blurCallOf (c : HostCall) : option (string + JsNum) :=
match c with
| AppendComponent _ name => Some (inl name)
| SetValue _ value => Some (inr value)
| _ => None
end.

(** The name of a component appended. *)
Definition appendedOf (c : HostCall) : option string :=
match c with
| AppendComponent _ name => Some name
| _ => None
end.


(** The calls issued between two states of the host. *)
Definition issued (e e' : Env) : list HostCall := drop (length (journal e)) (journal e').

End WithHost.

Section WithServices.
Context `{FrontendServices}.

(** The panel after [n] clicks on the undo button. *)
Definition undoTimes (n : nat) (p : Panel) : Panel :=
Nat.iter n (fun q => (handleUndo q).2) p.

(** [respects R m]: every run of [m] takes a panel to one related by [R]. *)
Definition respects {A} (R : Panel -> Panel -> Prop) (m : Exec Panel A) : Prop :=
forall p, R p (m p).2.

(** A relation that composes and that neither a change of the host nor a
    line written to the console breaks. *)
Class Stable (R : Panel -> Panel -> Prop) : Prop := {
  stable_refl : forall p, R p p;
  stable_trans : forall p q r, R p q -> R q r -> R p r;
  stable_env : forall p e, R p (ContainerSpec.withEnv e p);
  stable_told : forall p text, R p (ContainerSpec.told text p);
}.

(** Between [p] and [p'] the chat log has only grown, by console lines,
    and the media mode is the same. *)
Definition logged (p p' : Panel) : Prop :=
(exists texts, message (ui p') = message (ui p) ++ ContainerSpec.botSays texts) /\
processMediaMode (ui p') = processMediaMode (ui p).

(** The undo count is in range in [p'] when it is in [p]. *)
Definition inRangeAfter (p p' : Panel) : Prop :=
ContainerSpec.cursorInRange (ui p) -> ContainerSpec.cursorInRange (ui p').

(** [still m]: [m] notes no call in the journal, however it ends. *)
Definition still {A} (m : Exec Env A) : Prop :=
forall e, journal (m e).2 = journal e.

(** [hay] contains [needle]. *)
Definition contains (hay needle : string) : Prop :=
exists pre post, hay = pre +:+ needle +:+ post.

End WithServices.
End RestSpec.

(** ** The small host, continued *)

Module DemoRest.
#[local] Existing Instance Demo.types.
#[local] Existing Instance Demo.premiere.

(** A selection is the list of its clips; every clip has two components,
    except clip 2, whose components cannot be read, and clip 4, which has
    only an audio component. *)
#[local] Instance timeline : TimelineHost := {|
  Sequence := unit;
  Selection := list nat;
  Component := string;
  getActiveSequence _ := Demo.answer (Some tt);
  getSelection _ := Demo.answer (Some [0; 2; 4; 5]%nat);
  getTrackItems selection _ := Demo.answer (Some selection);
  getComponentCount chain := if Nat.eqb chain 2 then throw "offline" else Demo.answer 2;
  getComponentAtIndex chain j :=
    Demo.answer (if Nat.eqb chain 4 then Some "Audio Gain"
                 else if j =? 0 then None else Some "AE.ADBE Motion");
  getMatchName component := Demo.answer component;
  getMatchNames := Demo.answer (Some ["AE.ADBE Gaussian Blur 2"; "AE.ADBE Tint"]);
  createComponent name := Demo.answer (default "undefined" name);
  appendComponentAction _ _ _ := Demo.answer tt;
  Math_random := Demo.answer (3 # 4)%Q;
|}.

(** The services with the backend down: every request to it fails. *)
#[local] Instance offline : FrontendServices := {|
  executeUndo _ := throw "nothing to restore";
  capturePreviousState _ action := ret ("before " +:+ action);
  dispatchAction _ items _ := ret {| successful := 0; failed := Z.of_nat (length items) |};
  processPrompt _ := throw "HTTP 503: Backend server is not running";
  processMedia _ _ := throw "Network request failed";
  getSelectedMediaFilePaths _ := ret [];
  JSON_stringify _ := "{}";
|}.

(** The services with a backend client that fails with [new Error("")]:
    [err.message || err] is then the Error object, which prints as
    "Error". *)
#[local] Instance wordless : FrontendServices := {|
  executeUndo _ := raise (NotString "Error");
  capturePreviousState _ action := ret ("before " +:+ action);
  dispatchAction _ items _ := ret {| successful := 0; failed := Z.of_nat (length items) |};
  processPrompt _ := raise (NotString "Error");
  processMedia _ _ := raise (NotString "Error");
  getSelectedMediaFilePaths _ := ret [];
  JSON_stringify _ := "{}";
|}.

End DemoRest.

(** * Properties *)

(** ** The batch loops and zoomOut *)

Module EditingFacts.
Import EditingActions EditingSpec.

(** Case analysis on the run that a [match] of the goal inspects. *)
Tactic Notation "case_run" "as" simple_intropattern(pat) :=
  match goal with
  | |- context [match ?run with _ => _ end] => destruct run as pat
  end.

Section WithHost.
Context `{PremiereHost}.

Lemma endUndoGroup_returns (e : Env) :
  exists e', endUndoGroup e = (Returned tt, e').
Proof.
  unfold endUndoGroup, try_catch.
  case_run as [[[]|err] e']; cbn; unfold ret; eauto.
Qed.

(** [zoomIn] catches everything: it returns a boolean from every state. *)
Lemma zoomIn_returns (trackItem : TrackItem) (options : option JsObject) (e : Env) :
  exists ok e', zoomIn trackItem options e = (Returned ok, e').
Proof.
  unfold zoomIn, try_catch.
  case_run as [[ok|err] e1]; [eauto|].
  cbv beta. unfold mbind, exec_bind, Js.bind.
  destruct (endUndoGroup_returns e1) as [e2 ->]. unfold ret. eauto.
Qed.

Lemma zoomOut_returns (trackItem : TrackItem) (options : option JsObject) (e : Env) :
  exists ok e', zoomOut trackItem options e = (Returned ok, e').
Proof. apply zoomIn_returns. Qed.

Lemma count_cons (b ok : bool) (oks : list bool) :
  count b (ok :: oks) = (if bool_decide (ok = b) then 1 else 0) + count b oks.
Proof.
  unfold count. rewrite filter_cons.
  case_bool_decide; destruct (decide (ok = b)); try done; cbn [length]; lia.
Qed.

Lemma count_total (oks : list bool) :
  count true oks + count false oks = Z.of_nat (length oks).
Proof.
  induction oks as [|[] oks IH]; [done| |];
    rewrite !count_cons; cbn [length]; repeat case_bool_decide; try done; lia.
Qed.

(** The loop, from any value of its two counters. *)
Lemma batch_loop_applyEach (apply : TrackItem -> Exec Env bool) :
  (forall item e, exists ok e', apply item e = (Returned ok, e')) ->
  forall items s f e,
    length (applyEach apply items e).1 = length items /\
    batch_loop apply items s f e =
      (Returned {| successful := s + count true (applyEach apply items e).1;
                   failed := f + count false (applyEach apply items e).1 |},
       (applyEach apply items e).2).
Proof.
  intros Hret items. induction items as [|item rest IH]; intros s f e.
  - cbn. split; [done|]. unfold count. cbn. by rewrite !Z.add_0_r.
  - cbn [batch_loop applyEach]. unfold mbind, exec_bind, Js.bind.
    destruct (Hret item e) as (ok & e1 & ->).
    destruct (applyEach apply rest e1) as [oks e2] eqn:Hrest.
    assert (Hoks : oks = (applyEach apply rest e1).1) by (by rewrite Hrest).
    assert (He2 : e2 = (applyEach apply rest e1).2) by (by rewrite Hrest).
    cbn [fst snd length]. rewrite !count_cons. subst oks e2.
    destruct ok.
    + destruct (IH (s + 1) f e1) as [Hlen ->]. split; [by rewrite Hlen|].
      repeat case_bool_decide; try done. do 2 f_equal. f_equal; lia.
    + destruct (IH s (f + 1) e1) as [Hlen ->]. split; [by rewrite Hlen|].
      repeat case_bool_decide; try done. do 2 f_equal. f_equal; lia.
Qed.

Lemma copy_own_id (options : JsObject) : copy_own options = options.
Proof.
  unfold copy_own.
  apply (map_fold_weak_ind (fun (r : JsObject) (m : JsObject) => r = m)); [done|].
  by intros i x m r _ ->.
Qed.

Lemma own_or_lookup (options : JsObject) (k : string) (dflt : JsVal) :
  own_or options k dflt = default dflt (options !! k).
Proof. unfold own_or, hasOwnProperty, prop. by destruct (options !! k). Qed.

Lemma zoomOut_rest_defaults (options : JsObject) :
  zoomOut_rest options = withZoomOutDefaults options.
Proof.
  unfold zoomOut_rest, withZoomOutDefaults.
  rewrite copy_own_id, !own_or_lookup.
  destruct (options !! "startScale") as [s|] eqn:Hs;
    destruct (options !! "endScale") as [t|] eqn:Ht; cbn [default].
  - rewrite (insert_id options "startScale" s) by done. by rewrite insert_id.
  - by rewrite (insert_id options "startScale" s) by done.
  - rewrite insert_id; [done|]. by rewrite lookup_insert_ne.
  - done.
Qed.

(** *** Reasoning on the calls a program issues *)

Lemma observes_ret {A X} (f : HostCall -> option X) (a : A) (Q : Completion A -> list X -> Prop) :
  Q (Returned a) [] -> observes f (ret a) Q.
Proof. intros HQ e. exists []. cbn. by rewrite app_nil_r. Qed.

Lemma observes_throw {A X} (f : HostCall -> option X) (err : string)
  (Q : Completion A -> list X -> Prop) :
  Q (Threw (Msg err)) [] -> observes f (throw err) Q.
Proof. intros HQ e. exists []. cbn. by rewrite app_nil_r. Qed.

Lemma observes_host {A X} (f : HostCall -> option X) (op : Exec World A)
  (Q : Completion A -> list X -> Prop) :
  (forall c, Q c []) -> observes f (host op) Q.
Proof.
  intros HQ e. exists []. unfold host, focus.
  destruct (op (world e)) as [c w]. cbn. by rewrite app_nil_r.
Qed.

Lemma observes_issue {X} (f : HostCall -> option X) (c : HostCall)
  (Q : Completion unit -> list X -> Prop) :
  Q (Returned tt) (omap f [c]) -> observes f (issue c) Q.
Proof. intros HQ e. by exists [c]. Qed.

Lemma observes_weaken {A X} (f : HostCall -> option X) (m : Exec Env A)
  (P Q : Completion A -> list X -> Prop) :
  observes f m P -> (forall c xs, P c xs -> Q c xs) -> observes f m Q.
Proof. intros Hm HPQ e. destruct (Hm e) as (calls & Hj & HP). eauto. Qed.

Lemma observes_bind {A B X} (f : HostCall -> option X) (m : Exec Env A) (k : A -> Exec Env B)
  (P : Completion A -> list X -> Prop) (Q : Completion B -> list X -> Prop) :
  observes f m P ->
  (forall a xs, P (Returned a) xs -> observes f (k a) (fun c ys => Q c (xs ++ ys))) ->
  (forall err xs, P (Threw err) xs -> Q (Threw err) xs) ->
  observes f (m ≫= k) Q.
Proof.
  intros Hm Hk Herr e. unfold mbind, exec_bind, Js.bind.
  destruct (Hm e) as (calls & Hj & HP).
  destruct (m e) as [[a|err] e1]; cbn [fst snd] in *.
  - destruct (Hk a _ HP e1) as (calls' & Hj' & HQ).
    exists (calls ++ calls'). rewrite Hj', Hj, omap_app, app_assoc. done.
  - exists calls. split; [done|]. by apply Herr.
Qed.

Lemma observes_try {A X} (f : HostCall -> option X) (body : Exec Env A)
  (handler : Thrown -> Exec Env A)
  (P Q : Completion A -> list X -> Prop) :
  observes f body P ->
  (forall a xs, P (Returned a) xs -> Q (Returned a) xs) ->
  (forall err xs, P (Threw err) xs -> observes f (handler err) (fun c ys => Q c (xs ++ ys))) ->
  observes f (try_catch body handler) Q.
Proof.
  intros Hb Hret Hh e. unfold try_catch.
  destruct (Hb e) as (calls & Hj & HP).
  destruct (body e) as [[a|err] e1]; cbn [fst snd] in *.
  - exists calls. split; [done|]. by apply Hret.
  - destruct (Hh err _ HP e1) as (calls' & Hj' & HQ).
    exists (calls ++ calls'). rewrite Hj', Hj, omap_app, app_assoc. done.
Qed.

(** A call to the host in front of a continuation. *)
Lemma observes_bind_host {A B X} (f : HostCall -> option X) (op : Exec World A)
  (k : A -> Exec Env B) (Q : Completion B -> list X -> Prop) :
  (forall a, observes f (k a) Q) ->
  (forall err, Q (Threw err) []) ->
  observes f (host op ≫= k) Q.
Proof.
  intros Hk Herr.
  apply observes_bind with (P := fun _ xs => xs = []).
  - by apply observes_host.
  - intros a xs ->. apply Hk.
  - intros err xs ->. apply Herr.
Qed.

(** A program that issues nothing [f] selects and cannot throw, in front
    of a continuation. *)
Lemma observes_bind_silent {B X} (f : HostCall -> option X) (m : Exec Env unit)
  (k : unit -> Exec Env B) (Q : Completion B -> list X -> Prop) :
  observes f m (fun c xs => c = Returned tt /\ xs = []) ->
  observes f (k tt) Q ->
  observes f (m ≫= k) Q.
Proof.
  intros Hm Hk. eapply observes_bind; [exact Hm| |].
  - intros [] xs [_ ->]. apply Hk.
  - intros err xs [? _]. done.
Qed.

Lemma toFixed_throws_or_returns {X} (f : HostCall -> option X) (v : JsVal) {B}
  (k : unit -> Exec Env B) (Q : Completion B -> list X -> Prop) :
  observes f (k tt) Q ->
  (forall err, Q (Threw err) []) ->
  observes f (toFixed v ≫= k) Q.
Proof.
  intros Hk Herr. apply observes_bind with (P := fun _ xs => xs = []).
  - unfold toFixed. destruct (is_number v); [by apply observes_ret|by apply observes_throw].
  - intros [] xs ->. apply Hk.
  - intros err xs ->. apply Herr.
Qed.

Lemma beginUndoGroup_silent {X} (f : HostCall -> option X) (title : string) :
  (forall t, f (BeginUndoGroup t) = None) ->
  observes f (beginUndoGroup title) (fun c xs => c = Returned tt /\ xs = []).
Proof.
  intros Hf. unfold beginUndoGroup.
  apply observes_try with (P := fun _ xs => xs = []).
  - apply observes_bind with (P := fun c xs => c = Returned tt /\ xs = []).
    + apply observes_issue. cbn. by rewrite Hf.
    + intros [] xs [_ ->]. by apply observes_host.
    + by intros err xs [? _].
  - by intros [] xs ->.
  - intros err xs ->. by apply observes_ret.
Qed.

Lemma endUndoGroup_silent {X} (f : HostCall -> option X) :
  f EndUndoGroup = None ->
  observes f endUndoGroup (fun c xs => c = Returned tt /\ xs = []).
Proof.
  intros Hf. unfold endUndoGroup.
  apply observes_try with (P := fun _ xs => xs = []).
  - apply observes_bind with (P := fun c xs => c = Returned tt /\ xs = []).
    + apply observes_issue. cbn. by rewrite Hf.
    + intros [] xs [_ ->]. by apply observes_host.
    + by intros err xs [? _].
  - by intros [] xs ->.
  - intros err xs ->. by apply observes_ret.
Qed.

Lemma createWithSeconds_observed {X} (f : HostCall -> option X) (seconds : JsVal) :
  observes f (TickTime_createWithSeconds seconds)
    (fun _ xs => xs = omap f [CreateWithSeconds seconds]).
Proof.
  unfold TickTime_createWithSeconds.
  apply observes_bind with (P := fun c xs => c = Returned () /\ xs = omap f [CreateWithSeconds seconds]).
  - by apply observes_issue.
  - intros [] xs [_ ->]. apply observes_host. intros c. by rewrite app_nil_r.
  - by intros err xs [? _].
Qed.

(** [addKeyframe] writes at most the keyframe it is asked for, and has
    written it when it returns true. *)
Lemma addKeyframe_keyframes param project seconds value interp :
  observes keyframeOf (addKeyframe param project seconds value interp)
    (fun c kf => exists ok, c = Returned ok /\
                 (kf = [] \/ kf = [(seconds, Number value)]) /\
                 (ok = true -> kf = [(seconds, Number value)])).
Proof.
  unfold addKeyframe.
  apply observes_try with
    (P := fun c kf => match c with
                      | Returned ok => ok = true /\ kf = [(seconds, Number value)]
                      | Threw _ => kf = [] \/ kf = [(seconds, Number value)]
                      end).
  - eapply observes_bind; [apply createWithSeconds_observed| |].
    2: { intros err kf ->. by left. }
    intros tt kf0 ->. cbn [omap list_omap keyframeOf app].
    apply observes_bind with (P := fun c kf => c = Returned () /\ kf = [(seconds, Number value)]).
    + by apply observes_issue.
    + intros [] kf [_ ->].
      apply observes_bind_host; [|by right]. intros [].
      apply toFixed_throws_or_returns; [|by right].
      by apply observes_ret.
    + by intros err kf [? _].
  - intros ok kf [-> ->]. exists true. eauto.
  - intros err kf Hkf. apply observes_ret. exists false.
    rewrite app_nil_r. split; [done|]. split; [done|]. done.
Qed.

(** The keyframes of one [zoomIn]: a prefix of the two keyframes of the
    zoom, both of them when it returns true. *)
Lemma zoomIn_keyframes (trackItem : TrackItem) (options : option JsObject) :
  let l := zoomIn_locals (or_empty options) in
  observes keyframeOf (zoomIn trackItem options)
    (fun c kf => exists ok clipStartTime clipDuration,
                 c = Returned ok /\
                 kf `prefix_of` zoomKeyframes l clipStartTime clipDuration /\
                 (ok = true -> kf = zoomKeyframes l clipStartTime clipDuration)).
Proof.
  intros l. unfold zoomIn. fold l.
  set (post := fun (ok : bool) (kf : list (JsVal * JsNum)) =>
                 exists clipStartTime clipDuration,
                   kf `prefix_of` zoomKeyframes l clipStartTime clipDuration /\
                   (ok = true -> kf = zoomKeyframes l clipStartTime clipDuration)).
  assert (Hnone : post false []).
  { exists (Num 0), (Num 0). split; [apply prefix_nil|done]. }
  apply observes_try with
    (P := fun c kf => match c with Returned ok => post ok kf | Threw _ => kf = [] end).
  - apply observes_bind_host; [|done]. intros validation.
    destruct (negb (valid validation)); [by apply observes_ret|].
    apply observes_bind_host; [|done]. intros [project|]; [|by apply observes_ret].
    apply observes_bind_host; [|done]. intros [componentParam|]; [|by apply observes_ret].
    apply observes_bind_host; [|done]. intros clipDuration.
    apply observes_bind_host; [|done]. intros clipStartTime.
    destruct clipDuration as [clipDuration|]; [|by apply observes_ret].
    destruct clipStartTime as [clipStartTime|]; [|by apply observes_ret].
    apply toFixed_throws_or_returns; [|done].
    apply observes_bind_host; [|done]. intros [].
    apply observes_bind_silent; [by apply beginUndoGroup_silent|].
    eapply observes_bind; [apply addKeyframe_keyframes| |].
    2: { by intros err kf (ok & ? & _). }
    intros startOK kf1 (ok1 & [= <-] & Hkf1 & Hok1).
    destruct startOK; cbn [negb].
    + rewrite (Hok1 eq_refl).
      eapply observes_bind; [apply addKeyframe_keyframes| |].
      2: { by intros err kf (ok & ? & _). }
      intros endOK kf2 (ok2 & [= <-] & Hkf2 & Hok2).
      apply observes_bind_silent.
      { eapply observes_weaken; [by apply endUndoGroup_silent|].
        intros c xs [-> ->]. done. }
      destruct endOK; cbn [negb]; apply observes_ret; rewrite app_nil_r;
        exists clipStartTime, clipDuration.
      * rewrite (Hok2 eq_refl). done.
      * split; [|done]. destruct Hkf2 as [->| ->]; [by eexists [_]|done].
    + apply observes_bind_silent.
      { eapply observes_weaken; [by apply endUndoGroup_silent|].
        intros c xs [-> ->]. done. }
      apply observes_ret. rewrite app_nil_r. exists clipStartTime, clipDuration.
      split; [|done]. destruct Hkf1 as [->| ->]; [apply prefix_nil|by eexists [_]].
  - intros ok kf (cst & cd & Hkf). exists ok, cst, cd. done.
  - intros err kf ->. apply observes_bind_silent.
    { eapply observes_weaken; [by apply endUndoGroup_silent|].
      intros c xs [-> ->]. done. }
    apply observes_ret. exists false, (Num 0), (Num 0).
    split; [done|]. split; [apply prefix_nil|done].
Qed.

(** The value [applyBlur] writes is the number of its defaulted argument. *)
Lemma applyBlur_setValues (trackItem : option TrackItem) (blurriness : JsVal) :
  observes setValueOf (applyBlur trackItem blurriness)
    (fun c sv => exists ok, c = Returned ok /\
                 sv `prefix_of` [Number (applyBlur_blurriness blurriness)] /\
                 (ok = true -> sv = [Number (applyBlur_blurriness blurriness)])).
Proof.
  unfold applyBlur.
  set (written := [Number (applyBlur_blurriness blurriness)]).
  apply observes_try with
    (P := fun c sv => match c with
                      | Returned ok => sv `prefix_of` written /\ (ok = true -> sv = written)
                      | Threw _ => sv `prefix_of` written
                      end).
  - assert (Hnone : ([] : list JsNum) `prefix_of` written) by apply prefix_nil.
    apply observes_bind_host; [|done]. intros [project|]; [|by apply observes_ret].
    destruct trackItem as [trackItem|]; [|by apply observes_ret].
    apply observes_bind_host; [|done]. intros [componentChain|]; [|by apply observes_ret].
    apply observes_bind_host; [|done]. intros found.
    apply observes_bind with (P := fun _ sv => sv = []).
    + destruct found as [p|]; [by apply observes_ret|].
      apply observes_bind with (P := fun c sv => c = Returned () /\ sv = []).
      * by apply observes_issue.
      * intros [] sv [_ ->]. apply observes_bind_host; [|done]. intros [].
        by apply observes_host.
      * by intros err sv [? _].
    + intros blurParam sv ->. destruct blurParam as [blurParam|]; [|by apply observes_ret].
      apply observes_bind with (P := fun c sv => c = Returned () /\ sv = written).
      * by apply observes_issue.
      * intros [] sv [_ ->]. apply observes_bind_host; [|done]. intros [].
        by apply observes_ret.
      * by intros err sv [? _].
    + by intros err sv ->.
  - intros ok sv [Hsv Hok]. eauto.
  - intros err sv Hsv. apply observes_ret. exists false. by rewrite app_nil_r.
Qed.

(** [applyTransition] creates the duration from its defaulted
    [durationSeconds] and adds the transition with its defaulted options. *)
Lemma applyTransition_calls (item : TrackItem) (transitionName : JsVal)
  (durationSeconds applyToStart transitionAlignment : JsVal) :
  let expected := expectedTransitionCalls durationSeconds applyToStart transitionAlignment in
  observes transitionOf
    (applyTransition item transitionName durationSeconds applyToStart transitionAlignment)
    (fun c os => exists ok, c = Returned ok /\
       (os = [] \/ os = [inl (applyTransition_durationSeconds durationSeconds)] \/
        exists time, os = expected time) /\
       (ok = true -> exists time, os = expected time)).
Proof.
  intros expected. unfold applyTransition.
  set (shape := fun os : list (JsVal + AddTransitionOptions) =>
         os = [] \/ os = [inl (applyTransition_durationSeconds durationSeconds)] \/
         exists time, os = expected time).
  apply observes_try with
    (P := fun c os => match c with
                      | Returned ok => shape os /\ (ok = true -> exists time, os = expected time)
                      | Threw _ => shape os
                      end).
  - apply observes_bind_host; [|by left]. intros matchNameList.
    apply observes_bind with (P := fun _ os => os = []).
    + induction matchNameList as [|n rest IH]; cbn [find_transition].
      * by apply observes_ret.
      * destruct transitionName; try by apply observes_throw.
        destruct (String.eqb _ _); [by apply observes_ret|apply IH].
    + intros matched os ->. destruct matched as [matched|];
        [|apply observes_ret; split; [by left|done]].
      destruct (String.eqb matched ""); [apply observes_ret; split; [by left|done]|].
      apply observes_bind_host; [|by left]. intros videoTransition.
      eapply observes_bind; [apply createWithSeconds_observed| |].
      2: { intros err os ->. right. by left. }
      intros time os ->. cbn [omap list_omap transitionOf app].
      apply observes_bind_host; [|right; by left]. intros project.
      apply observes_bind with (P := fun c os => c = Returned () /\ exists t, [inl (applyTransition_durationSeconds durationSeconds)] ++ os = expected t).
      * apply observes_issue. split; [done|]. by exists time.
      * intros [] os [_ [t Hos]]. apply observes_bind_host.
        -- intros []. apply observes_ret. rewrite !app_nil_r.
           split; [right; right|]; by exists t.
        -- intros err. rewrite !app_nil_r. right; right. by exists t.
      * by intros err os [? _].
    + intros err os ->. by left.
  - intros ok os [Hos Hok]. eauto.
  - intros err os Hos. apply observes_ret. exists false. by rewrite app_nil_r.
Qed.

(** C5. When the [animated] option is truthy, the keyframes [zoomIn]
    writes at the start and end times carry the number of [startScale] and
    the number of [endScale]; when it is false or absent, both carry the
    number of [endScale]. A run writes a prefix of these two keyframes, and
    both of them when it returns true. The two values are distinct exactly
    when the zoom is animated and the numbers of the two scales differ. *)
Theorem zoom_keyframe_values (trackItem : TrackItem) (options : option JsObject) (e : Env) :
  let l := zoomIn_locals (or_empty options) in
  (exists ok e' calls clipStartTime clipDuration,
     zoomIn trackItem options e = (Returned ok, e') /\
     journal e' = journal e ++ calls /\
     keyframes calls `prefix_of` zoomKeyframes l clipStartTime clipDuration /\
     (ok = true -> keyframes calls = zoomKeyframes l clipStartTime clipDuration)) /\
  (forall clipStartTime clipDuration,
     snd <$> zoomKeyframes l clipStartTime clipDuration =
       if truthy (animated l) then [Number (startScale l); Number (endScale l)]
       else [Number (endScale l); Number (endScale l)]) /\
  (forall clipStartTime clipDuration,
     NoDup (snd <$> zoomKeyframes l clipStartTime clipDuration) <->
     truthy (animated l) = true /\ Number (startScale l) <> Number (endScale l)) /\
  (or_empty options !! "animated" = None -> truthy (animated l) = false) /\
  (forall b, or_empty options !! "animated" = Some (VBool b) -> truthy (animated l) = b).
Proof.
  intros l.
  assert (Hvalues : forall cst cd,
            snd <$> zoomKeyframes l cst cd =
              if truthy (animated l) then [Number (startScale l); Number (endScale l)]
              else [Number (endScale l); Number (endScale l)]).
  { intros cst cd. unfold zoomKeyframes, l, zoomIn_locals.
    cbn [actualStartScale actualEndScale startScale endScale animated fmap list_fmap snd].
    by destruct (truthy _). }
  split; [|split; [exact Hvalues|split; [|split]]].
  - destruct (zoomIn_keyframes trackItem options e)
      as (calls & Hj & ok & cst & cd & Hc & Hpre & Hok).
    destruct (zoomIn trackItem options e) as [c e'] eqn:Hrun. cbn [fst snd] in *. subst c.
    exists ok, e', calls, cst, cd. done.
  - intros cst cd. rewrite Hvalues.
    destruct (truthy (animated l)); rewrite NoDup_cons, list_elem_of_singleton; split.
    + intros [Hne _]. done.
    + intros [_ Hne]. split; [done|]. apply NoDup_singleton.
    + intros [Hne _]. done.
    + intros [Hfalse _]. done.
  - intros Hnone. unfold l, zoomIn_locals. cbn [animated].
    by rewrite own_or_lookup, Hnone.
  - intros b Hb. unfold l, zoomIn_locals. cbn [animated].
    by rewrite own_or_lookup, Hb.
Qed.

(** The values of the keyframes of one [zoomIn], by its local variables. *)
Lemma zoomIn_written (trackItem : TrackItem) (options : option JsObject) (e : Env) :
  let l := zoomIn_locals (or_empty options) in
  let written := if truthy (animated l) then [Number (startScale l); Number (endScale l)]
                 else [Number (endScale l); Number (endScale l)] in
  exists ok e' calls,
    zoomIn trackItem options e = (Returned ok, e') /\
    journal e' = journal e ++ calls /\
    (keyframes calls).*2 `prefix_of` written /\
    (ok = true -> (keyframes calls).*2 = written).
Proof.
  intros l written.
  destruct (zoomIn_keyframes trackItem options e)
    as (calls & Hj & ok & cst & cd & Hc & Hpre & Hok).
  fold l in Hpre, Hok.
  assert (Hvalues : (zoomKeyframes l cst cd).*2 = written).
  { unfold zoomKeyframes, written, l, zoomIn_locals.
    cbn [actualStartScale actualEndScale startScale endScale animated fmap list_fmap snd].
    by destruct (truthy _). }
  destruct (zoomIn trackItem options e) as [c e'] eqn:Hrun. cbn [fst snd] in *. subst c.
  exists ok, e', calls. split; [done|]. split; [done|]. rewrite <- Hvalues. split.
  - destruct Hpre as [k Hk]. exists (k.*2). unfold keyframes in *. by rewrite Hk, fmap_app.
  - intros Htrue. unfold keyframes in *. by rewrite (Hok Htrue).
Qed.

(** C6. Defaults. [zoomIn] takes [startScale] 100 and [endScale] 150 when
    the key is absent, and the value of the key when it is present;
    [zoomOut] passes 150 and 100 in the same way. The keyframes of a zoom
    carry the numbers of these two scales when the zoom is animated; when
    it is static (animated false or absent) both carry the number of
    [endScale], and [startScale], default or supplied, is not written.
    [applyBlur] uses 50 unless [blurriness] is a number;
    [applyTransition] uses 1.0 unless [durationSeconds] is a number, 0.5
    unless [transitionAlignment] is a number, and true unless
    [applyToStart] is a boolean; an argument of the expected type is used
    as given. These are the values that reach the host. *)
Theorem parameter_defaults :
  (forall o : JsObject,
     startScale (zoomIn_locals o) = default (VNum (Num 100)) (o !! "startScale") /\
     endScale (zoomIn_locals o) = default (VNum (Num 150)) (o !! "endScale") /\
     startScale (zoomIn_locals (zoomOut_rest o)) = default (VNum (Num 150)) (o !! "startScale") /\
     endScale (zoomIn_locals (zoomOut_rest o)) = default (VNum (Num 100)) (o !! "endScale")) /\
  (applyBlur_blurriness VUndefined = VNum (Num 50) /\
   applyTransition_durationSeconds VUndefined = VNum (Num 1) /\
   applyTransition_transitionAlignment VUndefined = VNum (Num (1 # 2)) /\
   applyTransition_applyToStart VUndefined = VBool true) /\
  (forall n b,
     applyBlur_blurriness (VNum n) = VNum n /\
     applyTransition_durationSeconds (VNum n) = VNum n /\
     applyTransition_transitionAlignment (VNum n) = VNum n /\
     applyTransition_applyToStart (VBool b) = VBool b) /\
  (forall v,
     (typeof v <> TNumber ->
        applyBlur_blurriness v = VNum (Num 50) /\
        applyTransition_durationSeconds v = VNum (Num 1) /\
        applyTransition_transitionAlignment v = VNum (Num (1 # 2))) /\
     (typeof v <> TBoolean -> applyTransition_applyToStart v = VBool true)) /\
  (forall trackItem blurriness e,
     exists ok e' calls,
       applyBlur trackItem blurriness e = (Returned ok, e') /\
       journal e' = journal e ++ calls /\
       setValues calls `prefix_of` [Number (applyBlur_blurriness blurriness)] /\
       (ok = true -> setValues calls = [Number (applyBlur_blurriness blurriness)])) /\
  (forall item transitionName durationSeconds applyToStart transitionAlignment e,
     let expected := expectedTransitionCalls durationSeconds applyToStart transitionAlignment in
     exists ok e' calls,
       applyTransition item transitionName durationSeconds applyToStart transitionAlignment e
         = (Returned ok, e') /\
       journal e' = journal e ++ calls /\
       (transitionCalls calls = [] \/
        transitionCalls calls = [inl (applyTransition_durationSeconds durationSeconds)] \/
        exists time, transitionCalls calls = expected time) /\
       (ok = true -> exists time, transitionCalls calls = expected time)) /\
  (forall trackItem options e,
     let o := or_empty options in
     let startScale := default (VNum (Num 100)) (o !! "startScale") in
     let endScale := default (VNum (Num 150)) (o !! "endScale") in
     let written := if truthy (default (VBool false) (o !! "animated"))
                    then [Number startScale; Number endScale]
                    else [Number endScale; Number endScale] in
     exists ok e' calls,
       zoomIn trackItem options e = (Returned ok, e') /\
       journal e' = journal e ++ calls /\
       (keyframes calls).*2 `prefix_of` written /\
       (ok = true -> (keyframes calls).*2 = written)) /\
  (forall trackItem options e,
     let o := or_empty options in
     let startScale := default (VNum (Num 150)) (o !! "startScale") in
     let endScale := default (VNum (Num 100)) (o !! "endScale") in
     let written := if truthy (default (VBool false) (o !! "animated"))
                    then [Number startScale; Number endScale]
                    else [Number endScale; Number endScale] in
     exists ok e' calls,
       zoomOut trackItem options e = (Returned ok, e') /\
       journal e' = journal e ++ calls /\
       (keyframes calls).*2 `prefix_of` written /\
       (ok = true -> (keyframes calls).*2 = written)).
Proof.
  assert (Hlocals : forall o : JsObject,
     startScale (zoomIn_locals o) = default (VNum (Num 100)) (o !! "startScale") /\
     endScale (zoomIn_locals o) = default (VNum (Num 150)) (o !! "endScale") /\
     startScale (zoomIn_locals (zoomOut_rest o)) = default (VNum (Num 150)) (o !! "startScale") /\
     endScale (zoomIn_locals (zoomOut_rest o)) = default (VNum (Num 100)) (o !! "endScale")).
  { intros o. rewrite zoomOut_rest_defaults.
    unfold zoomIn_locals. cbn [startScale endScale]. rewrite !own_or_lookup.
    repeat split; try done.
    + unfold withZoomOutDefaults.
      destruct (o !! "startScale") eqn:Hs; destruct (o !! "endScale") eqn:Ht; cbn;
        rewrite ?lookup_insert_ne by done; rewrite ?lookup_insert_eq, ?Hs; done.
    + unfold withZoomOutDefaults.
      destruct (o !! "startScale") eqn:Hs; destruct (o !! "endScale") eqn:Ht; cbn;
        rewrite ?lookup_insert_eq, ?Ht; try done.
      by rewrite lookup_insert_ne, Ht. }
  assert (Hanimated : forall o : JsObject,
     animated (zoomIn_locals o) = default (VBool false) (o !! "animated") /\
     animated (zoomIn_locals (zoomOut_rest o)) = default (VBool false) (o !! "animated")).
  { intros o. rewrite zoomOut_rest_defaults.
    unfold zoomIn_locals. cbn [animated]. rewrite !own_or_lookup. split; [done|].
    unfold withZoomOutDefaults.
    destruct (o !! "startScale"); destruct (o !! "endScale");
      by rewrite ?lookup_insert_ne by done. }
  split; [exact Hlocals|]. split; [|split; [|split; [|split; [|split; [|split]]]]].
  - done.
  - done.
  - intros v. split.
    + intros Hv. unfold applyBlur_blurriness, applyTransition_durationSeconds,
        applyTransition_transitionAlignment, is_number.
      by rewrite bool_decide_eq_false_2.
    + intros Hv. unfold applyTransition_applyToStart, is_boolean.
      by rewrite bool_decide_eq_false_2.
  - intros trackItem blurriness e.
    destruct (applyBlur_setValues trackItem blurriness e) as (calls & Hj & ok & Hc & Hpre & Hok).
    destruct (applyBlur trackItem blurriness e) as [c e'] eqn:Hrun. cbn [fst snd] in *. subst c.
    by exists ok, e', calls.
  - intros item transitionName durationSeconds applyToStart transitionAlignment e expected.
    destruct (applyTransition_calls item transitionName durationSeconds applyToStart
                transitionAlignment e) as (calls & Hj & ok & Hc & Hos & Hok).
    destruct (applyTransition _ _ _ _ _ e) as [c e'] eqn:Hrun. cbn [fst snd] in *. subst c.
    by exists ok, e', calls.
  - intros trackItem options e o startScale' endScale' written.
    pose proof (zoomIn_written trackItem options e) as Hrun. cbv zeta in Hrun. fold o in Hrun.
    destruct (Hlocals o) as (Hs & Ht & _). destruct (Hanimated o) as [Ha _].
    by rewrite Hs, Ht, Ha in Hrun.
  - intros trackItem options e o startScale' endScale' written.
    pose proof (zoomIn_written trackItem (Some (zoomOut_rest o)) e) as Hrun.
    cbv zeta in Hrun. change (or_empty (Some (zoomOut_rest o))) with (zoomOut_rest o) in Hrun.
    destruct (Hlocals o) as (_ & _ & Hs & Ht). destruct (Hanimated o) as [_ Ha].
    by rewrite Hs, Ht, Ha in Hrun.
Qed.

(** C4. Batch dispatch ([zoomInBatch], [zoomOutBatch]) applies the per-item
    operation to each of the N items in order, whatever the earlier items
    returned; it never throws; it returns the number of items for which
    the operation returned true and the number for which it returned
    false, which add up to N. With 5 items of which exactly 2 fail the
    result is [{successful: 3, failed: 2}]. *)
Theorem batch_dispatch_counts (trackItems : list TrackItem) (options : option JsObject) (e : Env) :
  let zin := applyEach (fun item => zoomIn item (Some (or_empty options))) trackItems e in
  let zout := applyEach (fun item => zoomOut item (Some (or_empty options))) trackItems e in
  (length zin.1 = length trackItems /\
   zoomInBatch trackItems options e =
     (Returned {| successful := count true zin.1; failed := count false zin.1 |}, zin.2) /\
   count true zin.1 + count false zin.1 = Z.of_nat (length trackItems) /\
   (length trackItems = 5%nat -> count false zin.1 = 2 ->
    zoomInBatch trackItems options e = (Returned {| successful := 3; failed := 2 |}, zin.2)))
  /\
  (length zout.1 = length trackItems /\
   zoomOutBatch trackItems options e =
     (Returned {| successful := count true zout.1; failed := count false zout.1 |}, zout.2) /\
   count true zout.1 + count false zout.1 = Z.of_nat (length trackItems) /\
   (length trackItems = 5%nat -> count false zout.1 = 2 ->
    zoomOutBatch trackItems options e = (Returned {| successful := 3; failed := 2 |}, zout.2))).
Proof.
  intros zin zout.
  assert (Hin := batch_loop_applyEach (fun item => zoomIn item (Some (or_empty options)))
                   (fun item e => zoomIn_returns item _ e) trackItems 0 0 e).
  assert (Hout := batch_loop_applyEach (fun item => zoomOut item (Some (or_empty options)))
                    (fun item e => zoomOut_returns item _ e) trackItems 0 0 e).
  fold zin in Hin. fold zout in Hout.
  destruct Hin as [Hlin Hin], Hout as [Hlout Hout].
  rewrite !Z.add_0_l in Hin, Hout.
  assert (Htin := count_total zin.1). assert (Htout := count_total zout.1).
  unfold zoomInBatch, zoomOutBatch. rewrite Hin, Hout.
  repeat split; try done; try lia.
  - intros H5 H2. do 2 f_equal. f_equal; lia.
  - intros H5 H2. do 2 f_equal. f_equal; lia.
Qed.

(** C9. [zoomOut(item, options)] is [zoomIn(item, options')], where
    [options'] is [options] with [startScale] set to 150 and [endScale]
    set to 100 when those keys are absent, every key that is present being
    kept; with both scales supplied, [zoomOut] and [zoomIn] run alike on
    the same arguments. *)
Theorem zoomOut_is_zoomIn_with_defaults (trackItem : TrackItem) (options : option JsObject) (e : Env) :
  let options' := withZoomOutDefaults (or_empty options) in
  zoomOut trackItem options e = zoomIn trackItem (Some options') e /\
  options' !! "startScale" = Some (default (VNum (Num 150)) (or_empty options !! "startScale")) /\
  options' !! "endScale" = Some (default (VNum (Num 100)) (or_empty options !! "endScale")) /\
  (forall k, k <> "startScale" -> k <> "endScale" -> options' !! k = or_empty options !! k) /\
  (forall o, options = Some o -> is_Some (o !! "startScale") -> is_Some (o !! "endScale") ->
     zoomOut trackItem options e = zoomIn trackItem options e).
Proof.
  intros options'. unfold zoomOut. rewrite zoomOut_rest_defaults. fold options'.
  split; [done|].
  assert (Hs : options' !! "startScale"
               = Some (default (VNum (Num 150)) (or_empty options !! "startScale"))).
  { unfold options', withZoomOutDefaults.
    destruct (or_empty options !! "startScale") eqn:Hs;
      destruct (or_empty options !! "endScale") eqn:Ht; cbn [default];
      rewrite ?lookup_insert_ne by done; by rewrite ?lookup_insert_eq. }
  assert (Ht : options' !! "endScale"
               = Some (default (VNum (Num 100)) (or_empty options !! "endScale"))).
  { unfold options', withZoomOutDefaults.
    destruct (or_empty options !! "startScale") eqn:Hs';
      destruct (or_empty options !! "endScale") eqn:Ht; cbn [default];
      rewrite ?lookup_insert_eq; try done.
    by rewrite lookup_insert_ne. }
  repeat split; try done.
  - intros k Hks Hkt. unfold options', withZoomOutDefaults.
    destruct (or_empty options !! "startScale");
      destruct (or_empty options !! "endScale");
      by rewrite ?lookup_insert_ne by done.
  - intros o -> [s Hso] [t Hto]. do 2 f_equal.
    unfold options', withZoomOutDefaults, or_empty. simpl.
    by rewrite Hso, Hto.
Qed.

End WithHost.
End EditingFacts.

(** ** The edit history and the undo count *)

Module ContainerFacts.
Import Container ContainerSpec.

Section WithServices.
Context `{FrontendServices}.

Lemma keeps_ret {A} (a : A) : keeps (ret (S := Panel) a).
Proof. by intros p. Qed.

Lemma keeps_bind {A B} (m : Exec Panel A) (k : A -> Exec Panel B) :
  keeps m -> (forall a, keeps (k a)) -> keeps (m ≫= k).
Proof.
  intros Hm Hk p. unfold mbind, exec_bind, Js.bind.
  destruct (Hm p) as [Hh Hc]. destruct (m p) as [[a|err] p1]; cbn [fst snd] in *.
  - destruct (Hk a p1) as [Hh' Hc']. split; congruence.
  - done.
Qed.

Lemma keeps_service {A} (op : Exec Env A) : keeps (service op).
Proof. intros p. unfold service, focus. by destruct (op (env p)). Qed.

Lemma writeToConsole_told (text : string) (p : Panel) :
  writeToConsole text p = (Returned tt, told text p).
Proof. done. Qed.

Lemma keeps_write (text : string) : keeps (writeToConsole text).
Proof. by intros p. Qed.

Lemma keeps_askBackend st project text : keeps (askBackend st project text).
Proof.
  unfold askBackend. destruct (processMediaMode st); [|apply keeps_service].
  apply keeps_bind; [apply keeps_service|]. intros filePaths.
  case_bool_decide.
  - repeat (apply keeps_bind; [apply keeps_write|intros _]). apply keeps_service.
  - apply keeps_bind; [apply keeps_write|intros _].
    apply keeps_bind; [apply keeps_service|]. intros aiResponse.
    destruct (error_is _ _); [|apply keeps_ret].
    apply keeps_bind; [apply keeps_write|intros _]. apply keeps_service.
Qed.

Lemma keeps_requestAction st project trackItems text :
  keeps (requestAction st project trackItems text).
Proof.
  unfold requestAction. case_bool_decide.
  - apply keeps_bind; [apply keeps_write|intros _]. apply keeps_ret.
  - repeat (apply keeps_bind; [apply keeps_write|intros _]).
    apply keeps_bind; [apply keeps_askBackend|]. intros aiResponse.
    destruct (truthy_str (AiResponse.action aiResponse)) as [action|].
    + apply keeps_bind; [apply keeps_write|intros _].
      apply keeps_bind; [|intros _; apply keeps_ret].
      destruct (truthy_str _); [apply keeps_write|apply keeps_ret].
    + apply keeps_bind; [|intros _; apply keeps_ret].
      destruct (error_is _ _); [apply keeps_write|].
      destruct (_ || _); [apply keeps_write|].
      apply keeps_bind; [apply keeps_write|intros _].
      destruct (truthy_str _); [apply keeps_write|apply keeps_ret].
Qed.

Lemma keeps_captureAndDispatch trackItems action aiResponse :
  keeps (captureAndDispatch trackItems action aiResponse).
Proof.
  unfold captureAndDispatch.
  apply keeps_bind; [apply keeps_write|intros _].
  apply keeps_bind; [apply keeps_service|intros previousState].
  apply keeps_bind; [apply keeps_service|intros result]. apply keeps_ret.
Qed.

Lemma keeps_editClips_catch err : keeps (editClips_catch err).
Proof.
  unfold editClips_catch. apply keeps_bind; [apply keeps_write|intros _].
  destruct err as [errorMessage|shownText]; [|by intros p].
  destruct (includes _ _); [apply keeps_write|].
  destruct (_ || _); [apply keeps_write|apply keeps_ret].
Qed.

Lemma recordEdit_run (c : Z) (historyEntry : EditHistoryEntry) (p : Panel) :
  recordEdit c historyEntry p =
    (Returned tt,
     {| ui := setChatCutUndosCount (fun old => if c >? 0 then 0 else old)
                (setEditHistory (trimAndAppend c historyEntry) (ui p));
        env := env p |}).
Proof. unfold recordEdit. by destruct (c >? 0). Qed.

(** What [storeResult] does to the history, the count and the host. *)
Lemma storeResult_run st trackItems action aiResponse previousState result (p : Panel) :
  exists p', storeResult st trackItems action aiResponse previousState result p = (Returned tt, p') /\
    env p' = env p /\
    if successful result >? 0 then
      editHistory (ui p') =
        trimAndAppend (chatCutUndosCount st)
          (historyEntryOf trackItems action aiResponse previousState) (editHistory (ui p)) /\
      chatCutUndosCount (ui p') =
        (if chatCutUndosCount st >? 0 then 0 else chatCutUndosCount (ui p))
    else sameHistory (ui p) (ui p').
Proof.
  unfold storeResult. destruct (successful result >? 0).
  - unfold mbind, exec_bind, Js.bind. rewrite recordEdit_run.
    destruct (failed result >? 0); eexists; (split; [reflexivity|]); done.
  - eexists. split; [reflexivity|]. done.
Qed.

(** The catch block of [editClips] keeps the host as it is. *)
Lemma editClips_catch_env (err : Thrown) (p : Panel) :
  env (editClips_catch err p).2 = env p.
Proof.
  unfold editClips_catch, mbind, exec_bind, Js.bind. rewrite writeToConsole_told.
  cbn [fst snd]. destruct err as [errorMessage|shownText]; [|done].
  destruct (includes _ _); [done|]. by destruct (_ || _).
Qed.

(** The snapshot, then the dispatch on the host the snapshot left. *)
Lemma captureAndDispatch_run trackItems action aiResponse (p : Panel) :
  let q := told "📸 Capturing previous state for undo..." p in
  captureAndDispatch trackItems action aiResponse p =
    match capturePreviousState trackItems action (env p) with
    | (Threw err, e1) => (Threw err, withEnv e1 q)
    | (Returned previousState, e1) =>
      match dispatchAction action trackItems (default ∅ (AiResponse.given (AiResponse.parameters aiResponse))) e1 with
      | (Threw err, e2) => (Threw err, withEnv e2 q)
      | (Returned result, e2) => (Returned (previousState, result), withEnv e2 q)
      end
    end.
Proof.
  intros q. unfold captureAndDispatch, mbind, exec_bind, Js.bind.
  rewrite writeToConsole_told. cbn [fst snd]. fold q.
  unfold service, focus. change (env q) with (env p).
  destruct (capturePreviousState trackItems action (env p)) as [[previousState|err] e1];
    cbn [fst snd env]; [|done].
  by destruct (dispatchAction _ _ _ e1) as [[result|err] e2].
Qed.


Lemma trimAndAppend_last (c : Z) (historyEntry : EditHistoryEntry) (prev : list EditHistoryEntry) :
  last (trimAndAppend c historyEntry prev) = Some historyEntry.
Proof. unfold trimAndAppend. destruct (c >? 0); apply last_snoc. Qed.

(** The run of [editClips], by what happened up to the dispatch. *)
Lemma editClips_run project trackItems text (p : Panel) :
  let p' := (editClips project trackItems text p).2 in
  let c := chatCutUndosCount (ui p) in
  match requestAction (ui p) project trackItems text p with
  | (Returned (Some (action, aiResponse)), p1) =>
    match capturePreviousState trackItems action (env p1) with
    | (Returned previousState, e1) =>
      match dispatchAction action trackItems
              (default ∅ (AiResponse.given (AiResponse.parameters aiResponse))) e1 with
      | (Returned result, e2) =>
        (editClips project trackItems text p).1 = Returned tt /\
        env p' = e2 /\
        if successful result >? 0 then
          editHistory (ui p') =
            trimAndAppend c (historyEntryOf trackItems action aiResponse previousState)
              (editHistory (ui p)) /\
          chatCutUndosCount (ui p') = (if c >? 0 then 0 else c)
        else sameHistory (ui p) (ui p')
      | (Threw err, e2) => env p' = e2 /\ sameHistory (ui p) (ui p')
      end
    | (Threw err, e1) => env p' = e1 /\ sameHistory (ui p) (ui p')
    end
  | (Returned None, p1) =>
    editClips project trackItems text p = (Returned tt, p1) /\ sameHistory (ui p) (ui p')
  | (Threw err, p1) => env p' = env p1 /\ sameHistory (ui p) (ui p')
  end.
Proof.
  intros p' c. subst p'.
  change (editClips project trackItems text p) with
    (try_catch
       (request ← requestAction (ui p) project trackItems text;
        match request with
        | None => ret tt
        | Some (action, aiResponse) =>
          '(previousState, result) ← captureAndDispatch trackItems action aiResponse;
          storeResult (ui p) trackItems action aiResponse previousState result
        end) editClips_catch p).
  unfold try_catch, mbind, exec_bind, Js.bind, keeps, sameHistory in *.
  pose proof (keeps_requestAction (ui p) project trackItems text p) as [Hh1 Hc1].
  destruct (requestAction (ui p) project trackItems text p)
    as [[[[action aiResponse]|]|err] p1]; cbn [fst snd] in *.
  - pose proof (keeps_captureAndDispatch trackItems action aiResponse p1) as [Hh2 Hc2].
    rewrite captureAndDispatch_run in *.
    destruct (capturePreviousState trackItems action (env p1)) as [[previousState|err] e1].
    + destruct (dispatchAction action trackItems _ e1) as [[result|err] e2];
        cbn [fst snd] in *.
      * destruct (storeResult_run (ui p) trackItems action aiResponse previousState result
                    (withEnv e2 (told "📸 Capturing previous state for undo..." p1)))
          as (p3 & -> & Henv & Hstore).
        cbn [fst snd]. split; [done|]. split; [by rewrite Henv|].
        destruct (successful result >? 0).
        -- destruct Hstore as [-> ->]. fold c. rewrite Hh2, Hh1, Hc2, Hc1. done.
        -- destruct Hstore as [-> ->]. split; congruence.
      * rewrite editClips_catch_env. split; [done|].
        destruct (keeps_editClips_catch err
                    (withEnv e2 (told "📸 Capturing previous state for undo..." p1)))
          as [-> ->].
        split; congruence.
    + cbn [fst snd] in *. rewrite editClips_catch_env. split; [done|].
      destruct (keeps_editClips_catch err
                  (withEnv e1 (told "📸 Capturing previous state for undo..." p1)))
        as [-> ->].
      split; congruence.
  - done.
  - rewrite editClips_catch_env. split; [done|].
    destruct (keeps_editClips_catch err p1) as [-> ->]. done.
Qed.

(** The run of [handleUndo], case by case. *)
Lemma handleUndo_run (p : Panel) :
  let st := ui p in
  let N := Z.of_nat (length (editHistory st)) in
  let c := chatCutUndosCount st in
  if N - c <=? 0 then
    handleUndo p =
      (Returned tt,
       told "💡 Tip: Make a new ChatCut edit first, then you can undo it."
         (told "ℹ️ No ChatCut edits to undo." p))
  else
    match array_get (editHistory st) (N - c - 1) with
    | None =>
      handleUndo p = (Returned tt, told "❌ Could not find edit history entry to undo." p)
    | Some historyEntry =>
      let attempt := "🔄 Attempting to undo ChatCut edit " +:+ pretty (c + 1)
                     +:+ " of " +:+ pretty (length (editHistory st))
                     +:+ " (" +:+ actionName historyEntry +:+ ")..." in
      match executeUndo historyEntry (env p) with
      | (Returned result, e') =>
        if successful result >? 0 then
          handleUndo p =
            (Returned tt,
             (if failed result >? 0
              then told ("⚠️ Failed to undo " +:+ pretty (failed result) +:+ " clip(s).")
              else fun q => q)
               (told ("↩️ Undo completed! Reversed " +:+ pretty (successful result) +:+ " clip(s).")
                  (undone (withEnv e' (told attempt p)))))
        else
          handleUndo p =
            (Returned tt,
             told "❌ Undo failed - could not reverse the edit." (withEnv e' (told attempt p)))
      | (Threw err, e') =>
        handleUndo p =
          (Returned tt, told ("❌ Undo failed with error: " +:+ shown err) (withEnv e' (told attempt p)))
      end
    end.
Proof.
  intros st N c. unfold handleUndo, mbind, exec_bind, Js.bind, readState.
  fold st. fold N. fold c.
  destruct (N - c <=? 0); [done|].
  destruct (array_get (editHistory st) (N - c - 1)) as [historyEntry|]; [|done].
  rewrite writeToConsole_told. unfold try_catch, service, focus. cbn [env told].
  destruct (executeUndo historyEntry (env p)) as [[result|err] e']; [|done].
  destruct (successful result >? 0); [|done].
  by destruct (failed result >? 0).
Qed.

(** Reading the console texts off a panel built with [told]. *)
Ltac console :=
  unfold newTexts, told, withEnv, undone, botSays;
  cbn [ui env message setMessage setChatCutUndosCount editHistory chatCutUndosCount
       fst snd fmap list_fmap];
  rewrite <- ?app_assoc, ?drop_app_length; cbn [app fmap list_fmap text].

(** C1. For a history of length N and an undo count c with 0 <= c <= N:
    when c = N, [handleUndo] reports that there is nothing to undo and
    changes neither the history, the count nor the host; otherwise it
    takes the entry at index N - c - 1 and runs [executeUndo] on it; the
    count becomes c + 1 when the result has at least one success, and
    stays c, with a failure message, when it has none. The history is
    never changed. *)
Theorem undo_behaviour (p : Panel) :
  let st := ui p in
  let N := Z.of_nat (length (editHistory st)) in
  let c := chatCutUndosCount st in
  let p' := (handleUndo p).2 in
  0 <= c <= N ->
  (handleUndo p).1 = Returned tt /\
  editHistory (ui p') = editHistory st /\
  (c = N ->
     chatCutUndosCount (ui p') = c /\ env p' = env p /\
     newTexts p p' = ["ℹ️ No ChatCut edits to undo.";
                      "💡 Tip: Make a new ChatCut edit first, then you can undo it."]) /\
  (c < N ->
     exists historyEntry,
       editHistory st !! Z.to_nat (N - c - 1) = Some historyEntry /\
       env p' = (executeUndo historyEntry (env p)).2 /\
       match (executeUndo historyEntry (env p)).1 with
       | Returned result =>
         (0 < successful result ->
            chatCutUndosCount (ui p') = c + 1 /\
            ("↩️ Undo completed! Reversed " +:+ pretty (successful result) +:+ " clip(s).")
              ∈ newTexts p p') /\
         (successful result <= 0 ->
            chatCutUndosCount (ui p') = c /\
            last (newTexts p p') = Some "❌ Undo failed - could not reverse the edit.")
       | Threw err =>
         chatCutUndosCount (ui p') = c /\
         last (newTexts p p') = Some ("❌ Undo failed with error: " +:+ shown err)
       end).
Proof.
  intros st N c p' Hc. subst p'.
  pose proof (handleUndo_run p) as Hrun. cbv zeta in Hrun. fold st N c in Hrun.
  destruct (N - c <=? 0) eqn:Hrem.
  { rewrite Hrun. split; [done|]. split; [done|]. split; [|lia].
    intros _. split; [done|]. split; [done|]. by console. }
  assert (HcN : c < N) by lia.
  assert (Hidx : (Z.to_nat (N - c - 1) < length (editHistory st))%nat) by lia.
  apply lookup_lt_is_Some_2 in Hidx as [historyEntry Hentry].
  unfold array_get in Hrun. destruct (N - c - 1 <? 0) eqn:Hneg; [lia|].
  rewrite Hentry in Hrun.
  destruct (executeUndo historyEntry (env p)) as [[result|err] e'] eqn:Hundo.
  - destruct (successful result >? 0) eqn:Hs.
    + rewrite Hrun. split; [done|]. split; [by destruct (failed result >? 0)|].
      split; [lia|]. intros _. exists historyEntry. rewrite Hundo. cbn [fst snd].
      split; [done|]. split; [by destruct (failed result >? 0)|].
      split; [|lia]. intros _. split; [by destruct (failed result >? 0)|].
      destruct (failed result >? 0); console;
        apply list_elem_of_further, list_elem_of_here.
    + rewrite Hrun. split; [done|]. split; [done|]. split; [lia|].
      intros _. exists historyEntry. rewrite Hundo. cbn [fst snd].
      split; [done|]. split; [done|]. split; [lia|]. intros _. split; [done|].
      by console.
  - rewrite Hrun. split; [done|]. split; [done|]. split; [lia|].
    intros _. exists historyEntry. rewrite Hundo. cbn [fst snd].
    split; [done|]. split; [done|]. split; [done|]. by console.
Qed.

(** C10. When [executeUndo] throws, [handleUndo] catches the exception,
    writes it to the console as a failure and leaves the undo count (and
    the history) unchanged; the count only changes, by one, on the path
    where [executeUndo] returns a result with at least one success. *)
Theorem undo_exception_keeps_count (p : Panel) :
  let st := ui p in
  let N := Z.of_nat (length (editHistory st)) in
  let c := chatCutUndosCount st in
  let p' := (handleUndo p).2 in
  (forall historyEntry err e',
     0 < N - c ->
     array_get (editHistory st) (N - c - 1) = Some historyEntry ->
     executeUndo historyEntry (env p) = (Threw err, e') ->
     (handleUndo p).1 = Returned tt /\
     chatCutUndosCount (ui p') = c /\
     editHistory (ui p') = editHistory st /\
     env p' = e' /\
     last (newTexts p p') = Some ("❌ Undo failed with error: " +:+ shown err)) /\
  (chatCutUndosCount (ui p') <> c ->
     exists historyEntry result e',
       array_get (editHistory st) (N - c - 1) = Some historyEntry /\
       executeUndo historyEntry (env p) = (Returned result, e') /\
       0 < successful result /\
       chatCutUndosCount (ui p') = c + 1).
Proof.
  intros st N c p'. subst p'.
  pose proof (handleUndo_run p) as Hrun. cbv zeta in Hrun. fold st N c in Hrun.
  split.
  - intros historyEntry err e' Hrem Hentry Hundo.
    destruct (N - c <=? 0) eqn:Hle; [lia|].
    rewrite Hentry, Hundo in Hrun. rewrite Hrun.
    repeat split; try done. by console.
  - intros Hchanged.
    destruct (N - c <=? 0); [by rewrite Hrun in Hchanged|].
    destruct (array_get (editHistory st) (N - c - 1)) as [historyEntry|] eqn:Hentry;
      [|by rewrite Hrun in Hchanged].
    destruct (executeUndo historyEntry (env p)) as [[result|err] e'] eqn:Hundo;
      [|by rewrite Hrun in Hchanged].
    destruct (successful result >? 0) eqn:Hs; [|by rewrite Hrun in Hchanged].
    exists historyEntry, result, e'. rewrite Hrun.
    split; [done|]. split; [done|]. split; [lia|]. by destruct (failed result >? 0).
Qed.

(** The history and the count after [handleUndo], from any state. *)
Lemma handleUndo_count (p : Panel) :
  let p' := (handleUndo p).2 in
  editHistory (ui p') = editHistory (ui p) /\
  (chatCutUndosCount (ui p') = chatCutUndosCount (ui p) \/
   (chatCutUndosCount (ui p) < Z.of_nat (length (editHistory (ui p))) /\
    chatCutUndosCount (ui p') = chatCutUndosCount (ui p) + 1)).
Proof.
  intros p'. subst p'. pose proof (handleUndo_run p) as Hrun. cbv zeta in Hrun.
  destruct (_ <=? 0) eqn:Hrem; [rewrite Hrun; by auto|].
  destruct (array_get _ _) as [historyEntry|]; [|rewrite Hrun; by auto].
  destruct (executeUndo historyEntry (env p)) as [[result|err] e'];
    [|rewrite Hrun; by auto].
  destruct (successful result >? 0); [|rewrite Hrun; by auto].
  rewrite Hrun. split; [by destruct (failed result >? 0)|].
  right. split; [lia|]. by destruct (failed result >? 0).
Qed.

Lemma trimAndAppend_length (c : Z) (historyEntry : EditHistoryEntry) (prev : list EditHistoryEntry) :
  (0 < length (trimAndAppend c historyEntry prev))%nat.
Proof. unfold trimAndAppend. destruct (c >? 0); rewrite length_app; cbn; lia. Qed.

Lemma recordEdit_inRange (p : Panel) (historyEntry : EditHistoryEntry) :
  cursorInRange (ui p) ->
  cursorInRange (ui (recordEdit (chatCutUndosCount (ui p)) historyEntry p).2).
Proof.
  unfold cursorInRange. intros Hc. rewrite recordEdit_run.
  cbn [snd ui setChatCutUndosCount setEditHistory editHistory chatCutUndosCount].
  pose proof (trimAndAppend_length (chatCutUndosCount (ui p)) historyEntry (editHistory (ui p))).
  destruct (chatCutUndosCount (ui p) >? 0) eqn:Hpos; lia.
Qed.

Lemma editClips_inRange project trackItems text (p : Panel) :
  cursorInRange (ui p) ->
  cursorInRange (ui (editClips project trackItems text p).2).
Proof.
  unfold cursorInRange. intros Hc.
  pose proof (editClips_run project trackItems text p) as Hrun. cbv zeta in Hrun.
  assert (Hsame : sameHistory (ui p) (ui (editClips project trackItems text p).2) ->
                  0 <= chatCutUndosCount (ui (editClips project trackItems text p).2)
                    <= Z.of_nat (length (editHistory (ui (editClips project trackItems text p).2)))).
  { intros [-> ->]. lia. }
  destruct (requestAction (ui p) project trackItems text p)
    as [[[[action ai]|]|err] p1]; [|by apply Hsame, Hrun..].
  destruct (capturePreviousState trackItems action (env p1)) as [[previousState|err] e1];
    [|by apply Hsame, Hrun].
  destruct (dispatchAction action trackItems _ e1) as [[result|err] e2];
    [|by apply Hsame, Hrun].
  destruct Hrun as (_ & _ & Hrun).
  destruct (successful result >? 0); [|by apply Hsame].
  destruct Hrun as [-> ->].
  pose proof (trimAndAppend_length (chatCutUndosCount (ui p))
                (historyEntryOf trackItems action ai previousState) (editHistory (ui p))).
  destruct (chatCutUndosCount (ui p) >? 0) eqn:Hpos; lia.
Qed.


(** C3. The invariant 0 <= count <= length(history) holds of the initial
    state and is kept by every interaction with the panel: an undo,
    successful or not, the redo no-op, an edit request, the recording of an
    edit, and everything that only touches the console, the mode or the
    host. The undo button is enabled exactly when count < length(history). *)
Theorem cursor_invariant :
  cursorInRange initialState /\
  (forall p p', cursorInRange (ui p) -> step p p' -> cursorInRange (ui p')) /\
  (forall st, canUndo st = true <-> chatCutUndosCount st < Z.of_nat (length (editHistory st))).
Proof.
  split; [|split].
  - unfold cursorInRange. cbn. lia.
  - intros p p' Hc Hstep. destruct Hstep; try exact Hc.
    + unfold cursorInRange in *. destruct (handleUndo_count p) as [-> [-> | [Hlt ->]]]; lia.
    + by apply editClips_inRange.
    + by apply recordEdit_inRange.
  - intros st. unfold canUndo. rewrite Z.gtb_ltb. apply Z.ltb_lt.
Qed.

(** C8. In a run of [editClips], an entry is added to the history exactly
    when [dispatchAction] returns a result with [successful > 0]: the
    history then becomes the trimmed history followed by the new entry,
    which holds the action, the clips, the snapshot and the parameters of
    that dispatch. When [dispatchAction] reports no success the history
    and the undo count are unchanged; and they change in no other run:
    not when the request names no action, nor when the request, the
    snapshot or the dispatch throws. *)
Theorem history_entry_iff_dispatch_success project trackItems text (p : Panel) :
  let p' := (editClips project trackItems text p).2 in
  let c := chatCutUndosCount (ui p) in
  (forall action aiResponse p1 previousState e1 result e2,
     requestAction (ui p) project trackItems text p
       = (Returned (Some (action, aiResponse)), p1) ->
     capturePreviousState trackItems action (env p1) = (Returned previousState, e1) ->
     dispatchAction action trackItems (default ∅ (AiResponse.given (AiResponse.parameters aiResponse))) e1
       = (Returned result, e2) ->
     let historyEntry :=
       {| actionName := action; trackItems := trackItems; previousState := previousState;
          parameters := default ∅ (AiResponse.given (AiResponse.parameters aiResponse)) |} in
     (editClips project trackItems text p).1 = Returned tt /\
     (0 < successful result ->
        editHistory (ui p') = trimAndAppend c historyEntry (editHistory (ui p)) /\
        last (editHistory (ui p')) = Some historyEntry /\
        chatCutUndosCount (ui p') = (if c >? 0 then 0 else c)) /\
     (successful result <= 0 -> sameHistory (ui p) (ui p'))) /\
  (~ sameHistory (ui p) (ui p') ->
     exists action aiResponse p1 previousState e1 result e2,
       requestAction (ui p) project trackItems text p
         = (Returned (Some (action, aiResponse)), p1) /\
       capturePreviousState trackItems action (env p1) = (Returned previousState, e1) /\
       dispatchAction action trackItems (default ∅ (AiResponse.given (AiResponse.parameters aiResponse))) e1
         = (Returned result, e2) /\
       0 < successful result).
Proof.
  intros p' c. pose proof (editClips_run project trackItems text p) as Hrun.
  cbv zeta in Hrun. fold p' c in Hrun. split.
  - intros action aiResponse p1 previousState e1 result e2 Hreq Hcap Hdispatch historyEntry.
    rewrite Hreq, Hcap, Hdispatch in Hrun. destruct Hrun as (Hret & _ & Hrun).
    split; [done|]. destruct (successful result >? 0) eqn:Hs.
    + split; [|lia]. intros _. destruct Hrun as [Hh Hcount].
      rewrite Hh. split; [done|]. split; [apply trimAndAppend_last|done].
    + split; [lia|]. done.
  - intros Hchanged.
    destruct (requestAction (ui p) project trackItems text p)
      as [[[[action aiResponse]|]|err] p1]; [|destruct Hchanged; apply Hrun..].
    destruct (capturePreviousState trackItems action (env p1)) as [[previousState|err] e1]
      eqn:Hcap; [|destruct Hchanged; apply Hrun].
    destruct (dispatchAction action trackItems _ e1) as [[result|err] e2] eqn:Hdispatch;
      [|destruct Hchanged; apply Hrun].
    destruct Hrun as (_ & _ & Hrun).
    destruct (successful result >? 0) eqn:Hs; [|destruct Hchanged; exact Hrun].
    exists action, aiResponse, p1, previousState, e1, result, e2.
    split; [done|]. split; [done|]. split; [done|]. lia.
Qed.

End WithServices.
End ContainerFacts.

(** ** The provider contract *)

Module ProviderFacts.
Import Provider.

Lemma failure_exactlyOne (code msg : string) :
  exactlyOne (failure code msg) /\ confidence (failure code msg) = 0%Q.
Proof.
  split; [|done]. right; right. unfold actionPresent, actionsNonEmpty, errorPresent. cbn.
  split; [by intros [? ?]|]. split; [by intros ?|]. by eexists.
Qed.

Lemma success_exactlyOne (a : Operation) (msg : string) :
  exactlyOne (success a msg) /\ ~ errorPresent (success a msg).
Proof.
  unfold exactlyOne, actionPresent, actionsNonEmpty, errorPresent. cbn.
  split; [|by intros [? ?]]. left.
  split; [by eexists|]. split; [by intros ?|]. by intros [? ?].
Qed.

Lemma success_multiple_exactlyOne (first : Operation) (others : list Operation) (msg : string) :
  exactlyOne (success_multiple first others msg) /\
  ~ errorPresent (success_multiple first others msg).
Proof.
  unfold exactlyOne, actionPresent, actionsNonEmpty, errorPresent. cbn.
  split; [|by intros [? ?]]. right; left.
  split; [by intros [? ?]|]. split; [done|]. by intros [? ?].
Qed.

(** C7. Every result of a provider's [processPrompt] satisfies exactly one
    of: the action is present, the actions are non-empty, the error is
    present; and a result with an error has confidence 0.0. *)
Theorem provider_result_invariant (P : Provider) (promptText : string)
  (availableActionsCatalog mediaContext : list string) :
  let r := processPrompt P promptText availableActionsCatalog mediaContext in
  exactlyOne r /\ (errorPresent r -> confidence r = 0%Q).
Proof.
  intros r. subst r. unfold processPrompt.
  destruct (negb (isConfigured P)); [by destruct (failure_exactlyOne "API_KEY_MISSING" "API key is not configured")|].
  destruct (isSmallTalk P promptText);
    [by destruct (failure_exactlyOne "SMALL_TALK" "Hi! How can I help edit your video?")|].
  destruct (firstRejected _ _) as [code|];
    [by destruct (failure_exactlyOne code "media file rejected")|].
  destruct (upstream P promptText availableActionsCatalog mediaContext)
    as [code detail|detail|code question|first [|second others] msg].
  - by destruct (failure_exactlyOne code detail).
  - by destruct (failure_exactlyOne "INVALID_RESPONSE" detail).
  - by destruct (failure_exactlyOne code question).
  - by destruct (success_exactlyOne first msg).
  - by destruct (success_multiple_exactlyOne first (second :: others) msg).
Qed.

End ProviderFacts.

(** ** The properties on the small host *)

Module Examples.
Import EditingActions EditingSpec EditingFacts.
Import Container ContainerSpec ContainerFacts.

#[local] Existing Instance Demo.types.
#[local] Existing Instance Demo.premiere.
#[local] Existing Instance Demo.services.

(** Two edits, the second one already undone: the undo reverses the first
    and the count becomes 2. *)
Lemma undo_behaviour_witness :
  let p := Demo.panel [Demo.entry "zoomIn" [0%nat]; Demo.entry "applyBlur" [2%nat]] 1 in
  0 <= 1 <= 2 /\
  (handleUndo p).1 = Returned tt /\
  chatCutUndosCount (ui (handleUndo p).2) = 2.
Proof.
  intros p. assert (Hc : 0 <= 1 <= 2) by lia.
  split; [exact Hc|].
  destruct (undo_behaviour p Hc) as (Hret & _ & _ & Hlt).
  split; [exact Hret|].
  destruct Hlt as (historyEntry & Hentry & _ & Hresult); [reflexivity|].
  vm_compute in Hentry. injection Hentry as <-.
  destruct Hresult as [Hsuccess _]. apply Hsuccess. reflexivity.
Defined.



(** A fresh panel stays in range through an edit request. *)
Lemma cursor_invariant_witness :
  let p := Demo.panel [] 0 in
  let p' := (editClips Demo.project (Demo.clips [0; 1]%nat) "zoom in by 120%" p).2 in
  cursorInRange (ui p) /\ step p p' /\ cursorInRange (ui p').
Proof.
  intros p p'. destruct cursor_invariant as (_ & Hstep & _).
  assert (Hp : cursorInRange (ui p)) by (unfold cursorInRange; cbn; lia).
  assert (Hs : step p p') by apply step_edit.
  split; [exact Hp|]. split; [exact Hs|]. exact (Hstep p p' Hp Hs).
Defined.

(** Five clips, of which clip 1 and clip 3 fail. *)
Lemma batch_dispatch_counts_witness :
  let trackItems : list TrackItem := [0; 1; 2; 3; 4]%nat in
  let oks := (applyEach (fun item => zoomIn item (Some ∅)) trackItems Demo.start).1 in
  length trackItems = 5%nat /\ count false oks = 2 /\
  (zoomInBatch trackItems None Demo.start).1 = Returned {| successful := 3; failed := 2 |}.
Proof.
  intros trackItems oks.
  destruct (batch_dispatch_counts trackItems None Demo.start) as [(_ & _ & _ & Hfive) _].
  assert (H5 : length trackItems = 5%nat) by reflexivity.
  assert (H2 : count false oks = 2) by (vm_compute; reflexivity).
  split; [exact H5|]. split; [exact H2|].
  rewrite (Hfive H5 H2). reflexivity.
Defined.

(** An animated zoom from 100 to 150. *)
Lemma zoom_keyframe_values_witness :
  let options : JsObject := {[ "animated" := VBool true ]} in
  or_empty (Some options) !! "animated" = Some (VBool true) /\
  truthy (animated (zoomIn_locals (or_empty (Some options)))) = true.
Proof.
  intros options.
  destruct (zoom_keyframe_values (Demo.clip 0) (Some options) Demo.start)
    as (_ & _ & _ & _ & Hbool).
  assert (Ha : or_empty (Some options) !! "animated" = Some (VBool true))
    by (vm_compute; reflexivity).
  split; [exact Ha|]. exact (Hbool true Ha).
Defined.

(** C5, as stated with two distinct values: an animated zoom whose start
    scale is given as 150 writes 150 at both keyframes. *)
Lemma animated_zoom_values_not_distinct :
  let options : JsObject := {[ "animated" := VBool true; "startScale" := VNum (Num 150) ]} in
  let run := zoomIn (Demo.clip 0) (Some options) Demo.start in
  options !! "animated" = Some (VBool true) /\
  run.1 = Returned true /\
  snd <$> keyframes (journal run.2) = [Num 150; Num 150] /\
  ~ NoDup (snd <$> keyframes (journal run.2)).
Proof.
  intros options run.
  assert (Hvalues : snd <$> keyframes (journal run.2) = [Num 150; Num 150])
    by (vm_compute; reflexivity).
  split; [vm_compute; reflexivity|]. split; [vm_compute; reflexivity|].
  split; [exact Hvalues|].
  rewrite Hvalues. intros Hnodup. apply NoDup_cons_1_1 in Hnodup.
  apply Hnodup. apply list_elem_of_here.
Defined.

(** A blurriness that is not a number, and the two zooms without
    options on clip 0: static, at 150 and at 100. *)
Lemma parameter_defaults_witness :
  typeof (VStr "30") <> TNumber /\
  applyBlur_blurriness (VStr "30") = VNum (Num 50) /\
  (keyframes (journal (zoomIn (Demo.clip 0) None Demo.start).2)).*2 = [Num 150; Num 150] /\
  (keyframes (journal (zoomOut (Demo.clip 0) None Demo.start).2)).*2 = [Num 100; Num 100].
Proof.
  destruct parameter_defaults as (_ & _ & _ & Hother & _ & _ & Hin & Hout).
  assert (Ht : typeof (VStr "30") <> TNumber) by discriminate.
  split; [exact Ht|]. split.
  { destruct (Hother (VStr "30")) as [Hnumber _].
    destruct (Hnumber Ht) as [Hblur _]. exact Hblur. }
  split.
  - destruct (Hin (Demo.clip 0) None Demo.start) as (ok & e' & calls & Hrun & Hj & _ & Hok).
    assert (Htrue : ok = true).
    { pose proof Hrun as Hc. vm_compute in Hc. injection Hc as Hc _. symmetry. exact Hc. }
    rewrite Hrun. cbn [snd]. rewrite Hj. exact (Hok Htrue).
  - destruct (Hout (Demo.clip 0) None Demo.start) as (ok & e' & calls & Hrun & Hj & _ & Hok).
    assert (Htrue : ok = true).
    { pose proof Hrun as Hc. vm_compute in Hc. injection Hc as Hc _. symmetry. exact Hc. }
    rewrite Hrun. cbn [snd]. rewrite Hj. exact (Hok Htrue).
Defined.

(** C6, as stated for every supplied value: the string "30" supplied as
    blurriness is not used, 50 is written instead. *)
Lemma supplied_blurriness_not_used :
  VStr "30" <> VUndefined /\
  applyBlur_blurriness (VStr "30") <> VStr "30" /\
  setValues (journal (applyBlur (Some 2%nat) (VStr "30") Demo.start).2) = [Num 50] /\
  ~ (forall v, v <> VUndefined -> applyBlur_blurriness v = v).
Proof.
  split; [discriminate|]. split; [discriminate|]. split; [vm_compute; reflexivity|].
  intros Hall. specialize (Hall (VStr "30")). discriminate Hall. discriminate.
Defined.

(** Small talk is answered with an error and confidence 0. *)
Lemma provider_result_invariant_witness :
  let r := Provider.processPrompt Demo.provider "hello" [] [] in
  Provider.errorPresent r /\ Provider.confidence r = 0%Q.
Proof.
  intros r.
  destruct (ProviderFacts.provider_result_invariant Demo.provider "hello" [] []) as [_ Herr].
  assert (He : Provider.errorPresent r) by (by eexists).
  split; [exact He|]. exact (Herr He).
Defined.

(** A zoom applied to two clips, of which one fails: one entry is stored. *)
Lemma history_entry_iff_dispatch_success_witness :
  let p := Demo.panel [] 0 in
  let p' := (editClips Demo.project (Demo.clips [0; 1]%nat) "zoom in by 120%" p).2 in
  exists action aiResponse p1 previousState e1 result e2,
    requestAction (ui p) Demo.project (Demo.clips [0; 1]%nat) "zoom in by 120%" p
      = (Returned (Some (action, aiResponse)), p1) /\
    capturePreviousState (Demo.clips [0; 1]%nat) action (env p1) = (Returned previousState, e1) /\
    dispatchAction action (Demo.clips [0; 1]%nat)
      (default ∅ (AiResponse.given (AiResponse.parameters aiResponse))) e1 = (Returned result, e2) /\
    0 < successful result /\
    last (editHistory (ui p'))
      = Some {| actionName := action; trackItems := Demo.clips [0; 1]%nat;
                previousState := previousState;
                parameters := default ∅ (AiResponse.given (AiResponse.parameters aiResponse)) |}.
Proof.
  intros p p'.
  destruct (requestAction (ui p) Demo.project (Demo.clips [0; 1]%nat) "zoom in by 120%" p)
    as [[[[action aiResponse]|]|err] p1] eqn:Hreq; [|discriminate Hreq..].
  destruct (capturePreviousState (Demo.clips [0; 1]%nat) action (env p1))
    as [[previousState|err] e1] eqn:Hcap; [|discriminate Hcap].
  destruct (dispatchAction action (Demo.clips [0; 1]%nat)
              (default ∅ (AiResponse.given (AiResponse.parameters aiResponse))) e1) as [[result|err] e2] eqn:Hd.
  2: { vm_compute in Hreq. injection Hreq as <- <- <-. vm_compute in Hcap.
       injection Hcap as <- <-. discriminate Hd. }
  assert (Hs : 0 < successful result).
  { vm_compute in Hreq. injection Hreq as <- <- <-. vm_compute in Hcap.
    injection Hcap as <- <-. vm_compute in Hd. injection Hd as <- <-. reflexivity. }
  exists action, aiResponse, p1, previousState, e1, result, e2.
  split; [reflexivity|]. split; [exact Hcap|]. split; [exact Hd|]. split; [exact Hs|].
  destruct (history_entry_iff_dispatch_success Demo.project (Demo.clips [0; 1]%nat)
              "zoom in by 120%" p) as [Hreport _].
  destruct (Hreport action aiResponse p1 previousState e1 result e2 Hreq Hcap Hd)
    as (_ & Hsuccess & _).
  destruct (Hsuccess Hs) as (_ & Hlast & _). exact Hlast.
Defined.

(** Both scales supplied. *)
Lemma zoomOut_is_zoomIn_with_defaults_witness :
  let o : JsObject := {[ "startScale" := VNum (Num 120); "endScale" := VNum (Num 80) ]} in
  is_Some (o !! "startScale") /\ is_Some (o !! "endScale") /\
  zoomOut (Demo.clip 0) (Some o) Demo.start = zoomIn (Demo.clip 0) (Some o) Demo.start.
Proof.
  intros o.
  destruct (zoomOut_is_zoomIn_with_defaults (Demo.clip 0) (Some o) Demo.start)
    as (_ & _ & _ & _ & Hboth).
  assert (Hs : is_Some (o !! "startScale")) by (by eexists).
  assert (Ht : is_Some (o !! "endScale")) by (by eexists).
  split; [exact Hs|]. split; [exact Ht|]. exact (Hboth o eq_refl Hs Ht).
Defined.

(** An entry without clips makes the undo of the small host throw. *)
Lemma undo_exception_keeps_count_witness :
  let p := Demo.panel [Demo.entry "zoomIn" []] 0 in
  0 < 1 - 0 /\
  array_get (editHistory (ui p)) (1 - 0 - 1) = Some (Demo.entry "zoomIn" []) /\
  executeUndo (Demo.entry "zoomIn" []) (env p) = (Threw (Msg "nothing to restore"), Demo.start) /\
  chatCutUndosCount (ui (handleUndo p).2) = 0.
Proof.
  intros p. destruct (undo_exception_keeps_count p) as [Hthrow _].
  assert (Hrem : 0 < 1 - 0) by lia.
  assert (Hentry : array_get (editHistory (ui p)) (1 - 0 - 1) = Some (Demo.entry "zoomIn" []))
    by reflexivity.
  assert (Hundo : executeUndo (Demo.entry "zoomIn" []) (env p)
                  = (Threw (Msg "nothing to restore"), Demo.start)) by reflexivity.
  split; [exact Hrem|]. split; [exact Hentry|]. split; [exact Hundo|].
  destruct (Hthrow _ _ _ Hrem Hentry Hundo) as (_ & Hcount & _). exact Hcount.
Defined.

End Examples.

(** ** Further properties of the editing actions *)

Module EditingRestFacts.
Import EditingActions EditingSpec EditingFacts EditingActionsRest RestSpec.

Lemma append_two (a b : Ascii.ascii) (s : string) :
  String a (String b EmptyString) +:+ s = String a (String b s).
Proof. done. Qed.

Lemma append_one (a : Ascii.ascii) (s : string) : String a EmptyString +:+ s = String a s.
Proof. done. Qed.

(** The escaping, one character at a time. *)
Lemma escapeForExtendScript_cons (a : Ascii.ascii) (rest : string) :
  escapeForExtendScript (String a rest) =
    (if Ascii.eqb a backslash then String backslash (String backslash EmptyString)
     else if Ascii.eqb a quote then String backslash (String quote EmptyString)
     else String a EmptyString) +:+ escapeForExtendScript rest.
Proof.
  unfold escapeForExtendScript. cbn [replaceAll].
  destruct (Ascii.eqb_spec a backslash) as [->|Hb].
  - rewrite append_two. cbn [replaceAll].
    by replace (Ascii.eqb backslash quote) with false by done.
  - cbn [replaceAll]. destruct (Ascii.eqb_spec a quote) as [->|Hq]; [by rewrite append_two|done].
Qed.

(** A text without backslash or quote starts the escaped string when it
    starts the string. *)
Lemma prefix_escapeForExtendScript (t str : string) :
  (forall c, c ∈ String.list_ascii_of_string t -> c <> backslash /\ c <> quote) ->
  String.prefix t (escapeForExtendScript str) = String.prefix t str.
Proof.
  revert t. induction str as [|a rest IH]; intros t Hplain; [done|].
  rewrite escapeForExtendScript_cons.
  destruct t as [|c t].
  { destruct (Ascii.eqb a backslash); [done|]. by destruct (Ascii.eqb a quote). }
  destruct (Hplain c) as [Hcb Hcq]; [cbn; apply list_elem_of_here|].
  assert (Ht : forall c', c' ∈ String.list_ascii_of_string t -> c' <> backslash /\ c' <> quote).
  { intros c' Hc'. apply Hplain. cbn. by apply list_elem_of_further. }
  destruct (Ascii.eqb_spec a backslash) as [->|Hb]; [|destruct (Ascii.eqb_spec a quote) as [->|Hq]];
    rewrite ?append_two, ?append_one; cbn [String.prefix].
  - by destruct (Ascii.ascii_dec c backslash).
  - destruct (Ascii.ascii_dec c backslash); [done|]. by destruct (Ascii.ascii_dec c quote).
  - destruct (Ascii.ascii_dec c a); [|done]. by apply IH.
Qed.

Lemma startsWithTerminator_escaped (str : string) :
  startsWithTerminator (escapeForExtendScript str) = startsWithTerminator str.
Proof.
  unfold startsWithTerminator.
  rewrite !prefix_escapeForExtendScript; [done|..];
    intros c Hc; cbn in Hc;
    repeat (apply elem_of_cons in Hc as [->|Hc]; [done|]);
    by apply elem_of_nil in Hc.
Qed.

Lemma hasLineTerminator_cons (a : Ascii.ascii) (rest : string) :
  hasLineTerminator (String a rest) = startsWithTerminator (String a rest) || hasLineTerminator rest.
Proof.
  unfold hasLineTerminator, startsWithTerminator. cbn [includes].
  repeat match goal with |- context [String.prefix ?t ?s] => generalize (String.prefix t s) end.
  repeat match goal with |- context [includes ?s ?t] => generalize (includes s t) end.
  by intros [] [] [] [] [] [] [] [].
Qed.

(** The escaped text, read back as the body of a literal. *)
Lemma literalBody_escaped (str : string) :
  literalBody (escapeForExtendScript str) =
    if hasLineTerminator str then None else Some str.
Proof.
  induction str as [|a rest IH]; [done|].
  rewrite hasLineTerminator_cons.
  destruct (Ascii.eqb_spec a backslash) as [->|Hb];
    [|destruct (Ascii.eqb_spec a quote) as [->|Hq]].
  - rewrite escapeForExtendScript_cons. rewrite Ascii.eqb_refl, append_two.
    cbn [literalBody]. rewrite !Ascii.eqb_refl. cbn [orb]. rewrite IH.
    replace (startsWithTerminator (String backslash rest)) with false by done.
    by destruct (hasLineTerminator rest).
  - rewrite escapeForExtendScript_cons.
    replace (Ascii.eqb quote backslash) with false by done.
    rewrite Ascii.eqb_refl, append_two.
    cbn [literalBody]. rewrite !Ascii.eqb_refl. rewrite orb_true_r. rewrite IH.
    replace (startsWithTerminator (String quote rest)) with false by done.
    by destruct (hasLineTerminator rest).
  - pose proof (startsWithTerminator_escaped (String a rest)) as Hstart.
    rewrite escapeForExtendScript_cons in *.
    destruct (Ascii.eqb_spec a backslash); [done|].
    destruct (Ascii.eqb_spec a quote); [done|].
    rewrite append_one in *. cbn [literalBody].
    destruct (Ascii.eqb_spec a backslash); [done|].
    destruct (Ascii.eqb_spec a quote); [done|].
    rewrite Hstart, IH.
    destruct (startsWithTerminator (String a rest)); [done|].
    by destruct (hasLineTerminator rest).
Qed.

(** X1. What [escapeForExtendScript] achieves and what it does not. For a
    title without line terminator, the escaped title, put between double
    quotes in the script, is read back as the title: no quote of the
    title ends the literal and no backslash of it escapes anything. A
    line terminator in the title is left as it is, and the script is
    then not a string literal at all. So it is with the script that
    [beginUndoGroup] hands to the host, for the title or, when the title
    is empty, for "ChatCut Edit". *)
Theorem escapeForExtendScript_literal (str : string) :
  literalBody (escapeForExtendScript str) =
    (if hasLineTerminator str then None else Some str) /\
  exists body,
    beginUndoGroup_script str = "app.beginUndoGroup(" +:+ dquote +:+ body +:+ dquote +:+ ")" /\
    literalBody body =
      if String.eqb str "" then Some "ChatCut Edit"
      else if hasLineTerminator str then None else Some str.
Proof.
  split; [apply literalBody_escaped|].
  unfold beginUndoGroup_script. destruct (String.eqb str "") eqn:Hempty.
  - eexists. split; [reflexivity|]. by rewrite literalBody_escaped.
  - eexists. split; [reflexivity|]. apply literalBody_escaped.
Qed.

Section WithHost.
Context `{PremiereHost} `{!TimelineHost}.

(** A call to the host leaves the journal alone. *)
Lemma host_run {A} (op : Exec World A) (e : Env) :
  host op e = ((op (world e)).1, {| world := (op (world e)).2; journal := journal e |}).
Proof. unfold host, focus. by destruct (op (world e)). Qed.

Lemma issued_app (e : Env) (w : World) (calls : list HostCall) :
  issued e {| world := w; journal := journal e ++ calls |} = calls.
Proof. unfold issued. cbn. apply drop_app_length. Qed.

Lemma issued_same (e : Env) (w : World) :
  issued e {| world := w; journal := journal e |} = [].
Proof. unfold issued. cbn. apply drop_all. Qed.

(** X2. [addKeyframe] returns true exactly when the host creates the time,
    carries out the keyframe transaction, and [seconds] is a number. With
    [seconds] not a number it returns false although the transaction has
    been carried out. The mode of the transaction is the host's constant
    for the five names of [modeMap] (BEZIER when that constant is falsy),
    the inherited member for a name that every object inherits, such as
    toString, and BEZIER for any other name. *)
Theorem addKeyframe_result param project (seconds value interp : JsVal) (e : Env) :
  let interpMode := or_bezier (modeMap (or_else interp (VStr "BEZIER"))) in
  let run := addKeyframe param project seconds value interp e in
  ((run.1 = Returned true) <->
   (exists tt w1 w2,
      createWithSeconds seconds (world e) = (Returned tt, w1) /\
      keyframeTransaction param project tt (Number value) interpMode w1 = (Returned (), w2) /\
      is_number seconds = true)) /\
  (forall tt w1 w2,
     createWithSeconds seconds (world e) = (Returned tt, w1) ->
     keyframeTransaction param project tt (Number value) interpMode w1 = (Returned (), w2) ->
     is_number seconds = false ->
     run = (Returned false,
            {| world := w2;
               journal := journal e ++ [CreateWithSeconds seconds;
                                        KeyframeTransaction param seconds (Number value) interpMode] |})) /\
  (forall key, or_else interp (VStr "BEZIER") = VStr key ->
     (forall mode, (key, mode) ∈ modeNames ->
        interpMode = ModeValue (or_else (InterpolationMode mode) (InterpolationMode BEZIER))) /\
     (key ∈ inheritedKeys -> interpMode = Inherited key) /\
     (key ∉ modeNames.*1 -> key ∉ inheritedKeys ->
        interpMode = ModeValue (InterpolationMode BEZIER))).
Proof.
  intros interpMode run. subst run. apply and_assoc. split; cycle 1.
  { intros key Hkey. subst interpMode. rewrite Hkey. unfold modeMap. split; [|split].
    - intros mode Hin.
      repeat (apply elem_of_cons in Hin as [[= -> ->]|Hin]; [done|]).
      by apply elem_of_nil in Hin.
    - intros Hin.
      repeat (apply elem_of_cons in Hin as [->|Hin]; [done|]).
      by apply elem_of_nil in Hin.
    - intros Hown Hinherited.
      destruct (list_find _ modeNames) as [[i [name mode]]|] eqn:Hfind.
      + apply list_find_Some in Hfind as (Hi & Hname & _). cbn in Hname. subst name.
        destruct Hown. apply list_elem_of_fmap. exists (key, mode).
        split; [done|]. by eapply list_elem_of_lookup_2.
      + by rewrite bool_decide_eq_false_2. }
  unfold addKeyframe, try_catch, TickTime_createWithSeconds, mbind, exec_bind, Js.bind,
    issue, modify, toFixed. fold interpMode.
  rewrite host_run. cbn [fst snd world journal].
  destruct (createWithSeconds seconds (world e)) as [[tt|err] w1] eqn:Hcreate; cbn [fst snd].
  - rewrite host_run. cbn [fst snd world journal].
    destruct (keyframeTransaction param project tt (Number value) interpMode w1)
      as [[[]|err] w2] eqn:Htrans; cbn [fst snd].
    + destruct (is_number seconds) eqn:Hnum; cbn.
      * split.
        -- split; [intros _; by exists tt, w1, w2|done].
        -- by intros tt' w1' w2' [= <- <-] _ ?.
      * split.
        -- split; [done|]. by intros (? & ? & ? & _ & _ & ?).
        -- intros tt' w1' w2' [= <- <-] Htrans' _. rewrite Htrans in Htrans'.
           injection Htrans' as <-. by rewrite <- app_assoc.
    + cbn. split.
      * split; [done|]. intros (tt' & w1' & w2' & [= <- <-] & Htrans' & _).
        by rewrite Htrans in Htrans'.
      * intros tt' w1' w2' [= <- <-] Htrans'. by rewrite Htrans in Htrans'.
  - cbn. split.
    + split; [done|]. by intros (? & ? & ? & ? & _).
    + by intros tt w1' w2.
Qed.

(** What [observes] says of the calls issued in one run. *)
Lemma observes_issued {A X} (f : HostCall -> option X) (m : Exec Env A)
  (Q : Completion A -> list X -> Prop) :
  observes f m Q -> forall e, Q (m e).1 (omap f (issued e (m e).2)).
Proof.
  intros Hm e. destruct (Hm e) as (calls & Hj & HQ).
  unfold issued. by rewrite Hj, drop_app_length.
Qed.





Lemma bind_ext {S A B} (m : Exec S A) (k1 k2 : A -> Exec S B) (s : S) :
  (forall a s', k1 a s' = k2 a s') -> (m ≫= k1) s = (m ≫= k2) s.
Proof.
  intros Hk. unfold mbind, exec_bind, Js.bind. destruct (m s) as [[a|err] s']; [apply Hk|done].
Qed.

Lemma try_catch_ext {S A} (body1 body2 : Exec S A) (handler : Thrown -> Exec S A) (s : S) :
  body1 s = body2 s -> try_catch body1 handler s = try_catch body2 handler s.
Proof. intros Hb. unfold try_catch. by rewrite Hb. Qed.

(** X4. A [duration] option that is falsy (0, null, NaN, an empty string,
    false) is as good as none: [zoomIn] runs as without the key, that is,
    over the whole clip. *)
Theorem zoomIn_falsy_duration (trackItem : TrackItem) (options : JsObject) (v : JsVal) (e : Env) :
  options !! "duration" = Some v -> truthy v = false ->
  zoomIn trackItem (Some options) e = zoomIn trackItem (Some (delete "duration" options)) e.
Proof.
  intros Hv Hfalsy. unfold zoomIn, or_empty. cbn [default from_option id].
  set (l1 := zoomIn_locals options). set (l2 := zoomIn_locals (delete "duration" options)).
  assert (Hown : forall k d, k <> "duration" ->
            own_or (delete "duration" options) k d = own_or options k d).
  { intros k d Hk. rewrite !own_or_lookup. by rewrite lookup_delete_ne. }
  assert (HstartScale : startScale l2 = startScale l1) by (by apply Hown).
  assert (HendScale : endScale l2 = endScale l1) by (by apply Hown).
  assert (HstartTime : startTime l2 = startTime l1) by (by apply Hown).
  assert (Hanimated : animated l2 = animated l1) by (by apply Hown).
  assert (Hinterp : interpolation l2 = interpolation l1).
  { unfold l1, l2, zoomIn_locals. cbn [interpolation]. unfold prop.
    by rewrite lookup_delete_ne. }
  assert (Hactual : actualStartScale l2 = actualStartScale l1).
  { unfold l1, l2, zoomIn_locals. cbn [actualStartScale]. rewrite !Hown by done. done. }
  assert (HactualEnd : actualEndScale l2 = actualEndScale l1) by (by apply Hown).
  assert (Hduration : forall x, or_else (duration l1) x = or_else (duration l2) x).
  { intros x. unfold l1, l2, zoomIn_locals. cbn [duration]. rewrite !own_or_lookup.
    rewrite Hv, lookup_delete_eq. cbn [default from_option id]. unfold or_else.
    by rewrite Hfalsy. }
  apply try_catch_ext. apply bind_ext. intros validation s1.
  destruct (negb (valid validation)); [done|].
  apply bind_ext. intros [project|] s2; [|done].
  apply bind_ext. intros [componentParam|] s3; [|done].
  apply bind_ext. intros clipDuration s4.
  apply bind_ext. intros clipStartTime s5.
  destruct clipDuration as [clipDuration|]; [|done].
  destruct clipStartTime as [clipStartTime|]; [|done].
  cbv zeta. rewrite Hduration, HstartTime, Hanimated, Hinterp, Hactual, HactualEnd. done.
Qed.

Lemma batch_loop_ext (f g : TrackItem -> Exec Env bool) :
  (forall item e, f item e = g item e) ->
  forall items s k e, batch_loop f items s k e = batch_loop g items s k e.
Proof.
  intros Hfg items. induction items as [|item rest IH]; intros s k e; [done|].
  cbn [batch_loop]. unfold mbind, exec_bind, Js.bind. rewrite Hfg.
  destruct (g item e) as [[[]|err] e1]; [apply IH|apply IH|done].
Qed.

(** X5. [zoomOutBatch] on a list of clips is [zoomInBatch] on the same
    list with the options of a zoom out: the scale from 150 to 100 where
    the options give none. *)
Theorem zoomOutBatch_is_zoomInBatch (trackItems : list TrackItem) (options : option JsObject)
  (e : Env) :
  zoomOutBatch trackItems options e =
    zoomInBatch trackItems (Some (withZoomOutDefaults (or_empty options))) e.
Proof.
  unfold zoomOutBatch, zoomInBatch. apply batch_loop_ext. intros item e'.
  unfold zoomOut. by rewrite zoomOut_rest_defaults.
Qed.

Lemma batch_loop_app (apply : TrackItem -> Exec Env bool) (l1 l2 : list TrackItem) :
  forall s f e,
    batch_loop apply (l1 ++ l2) s f e =
      match batch_loop apply l1 s f e with
      | (Returned r, e1) => batch_loop apply l2 (successful r) (failed r) e1
      | (Threw err, e1) => (Threw err, e1)
      end.
Proof.
  induction l1 as [|item rest IH]; intros s f e; [done|].
  cbn [app batch_loop]. unfold mbind, exec_bind, Js.bind.
  destruct (apply item e) as [[[]|err] e1]; [apply IH|apply IH|done].
Qed.

(** X6. A batch over the clips [l1 ++ l2] is the batch over [l1] followed,
    from the host state it leaves, by the batch over [l2], the counts
    being added; a batch over no clip returns zero counts and leaves the
    host as it is. *)
Theorem zoomInBatch_app (l1 l2 : list TrackItem) (options : option JsObject) (e : Env) :
  zoomInBatch [] options e = (Returned {| successful := 0; failed := 0 |}, e) /\
  exists r1 e1 r2 e2,
    zoomInBatch l1 options e = (Returned r1, e1) /\
    zoomInBatch l2 options e1 = (Returned r2, e2) /\
    zoomInBatch (l1 ++ l2) options e =
      (Returned {| successful := successful r1 + successful r2;
                   failed := failed r1 + failed r2 |}, e2).
Proof.
  split; [done|]. unfold zoomInBatch.
  set (apply := fun item => zoomIn item (Some (or_empty options))).
  assert (Hret : forall item e, exists ok e', apply item e = (Returned ok, e'))
    by (intros item e'; apply zoomIn_returns).
  rewrite batch_loop_app.
  destruct (batch_loop_applyEach apply Hret l1 0 0 e) as [_ Hl1]. rewrite Hl1.
  eexists _, _. cbn [successful failed].
  destruct (batch_loop_applyEach apply Hret l2 0 0 (applyEach apply l1 e).2) as [_ Hl2].
  destruct (batch_loop_applyEach apply Hret l2
              (0 + count true (applyEach apply l1 e).1)
              (0 + count false (applyEach apply l1 e).1) (applyEach apply l1 e).2) as [_ Hl3].
  rewrite Hl2, Hl3. eexists _, _. split; [reflexivity|]. split; [reflexivity|].
  reflexivity.
Qed.

(** The keyframes of the loop, from any value of its counters. *)
Lemma batch_loop_keyframes (o : JsObject) (items : list TrackItem) :
  let l := zoomIn_locals o in
  forall s f,
    observes keyframeOf (batch_loop (fun item => zoomIn item (Some o)) items s f)
      (fun c kf => exists r, c = Returned r /\
         2 * (successful r - s) <= Z.of_nat (length kf) <= 2 * Z.of_nat (length items) /\
         Forall (fun k => k.2 = Number (actualStartScale l) \/ k.2 = Number (actualEndScale l)) kf).
Proof.
  intros l. induction items as [|item rest IH]; intros s f.
  - apply observes_ret. eexists. split; [done|]. cbn. split; [lia|constructor].
  - cbn [batch_loop].
    eapply observes_bind; [apply (zoomIn_keyframes item (Some o))| |].
    2: { by intros err kf (ok & ? & ? & ? & _). }
    intros ok kf1 (ok' & cst & cd & [= <-] & Hpre & Hok).
    assert (Hlen1 : (length kf1 <= 2)%nat).
    { apply prefix_length in Hpre. exact Hpre. }
    assert (Hall1 : Forall (fun k => k.2 = Number (actualStartScale l)
                                     \/ k.2 = Number (actualEndScale l)) kf1).
    { destruct Hpre as [k Hk].
      assert (Hall : Forall (fun k => k.2 = Number (actualStartScale l)
                                      \/ k.2 = Number (actualEndScale l))
                       (zoomKeyframes (zoomIn_locals (or_empty (Some o))) cst cd)).
      { unfold zoomKeyframes. constructor; [by left|]. constructor; [by right|]. constructor. }
      rewrite Hk in Hall. by apply Forall_app in Hall as [? _]. }
    destruct ok.
    + specialize (Hok eq_refl). assert (length kf1 = 2%nat) as Hlen by (by rewrite Hok).
      eapply observes_weaken; [apply (IH (s + 1) f)|].
      intros c kf2 (r & -> & Hlen2 & Hall2). exists r. split; [done|].
      rewrite length_app. cbn [length] in *. split; [lia|]. by apply Forall_app.
    + eapply observes_weaken; [apply (IH s (f + 1))|].
      intros c kf2 (r & -> & Hlen2 & Hall2). exists r. split; [done|].
      rewrite length_app. cbn [length] in *. split; [lia|]. by apply Forall_app.
Qed.

(** X7. A zoom batch over N clips writes at most 2N keyframes and at least
    two for every clip it counts as successful, and every keyframe it
    writes carries the number of the start scale in use or of the end
    scale. *)
Theorem zoomInBatch_keyframes (trackItems : list TrackItem) (options : option JsObject) (e : Env) :
  let l := zoomIn_locals (or_empty options) in
  let run := zoomInBatch trackItems options e in
  let written := keyframes (issued e run.2) in
  exists r, run.1 = Returned r /\
    2 * successful r <= Z.of_nat (length written) <= 2 * Z.of_nat (length trackItems) /\
    Forall (fun k => k.2 = Number (actualStartScale l) \/ k.2 = Number (actualEndScale l)) written.
Proof.
  intros l.
  pose proof (observes_issued _ _ _ (batch_loop_keyframes (or_empty options) trackItems 0 0) e)
    as (r & Hr & Hlen & Hall).
  exists r. split; [exact Hr|]. split; [|exact Hall].
  unfold zoomInBatch, keyframes. lia.
Qed.

(** X8. [applyBlur] appends the Gaussian blur at most once, and only before
    it sets the value; it returns true only after setting the value, which
    is the last thing it does to the clip. Without a track item it
    returns false once it has asked the host for the active project,
    which is the only call it makes. *)
Theorem applyBlur_calls (trackItem : option TrackItem) (blurriness : JsVal) (e : Env) :
  let v := Number (applyBlur_blurriness blurriness) in
  let run := applyBlur trackItem blurriness e in
  let calls := omap blurCallOf (issued e run.2) in
  (exists ok, run.1 = Returned ok /\
     (calls = [] \/ calls = [inl GaussianBlur] \/ calls = [inr v] \/
      calls = [inl GaussianBlur; inr v]) /\
     (ok = true -> last calls = Some (inr v))) /\
  (trackItem = None ->
   run = (Returned false, {| world := (getActiveProject (world e)).2; journal := journal e |})).
Proof.
  intros v run calls. subst run calls. split; cycle 1.
  { intros ->. unfold applyBlur, try_catch, mbind, exec_bind, Js.bind.
    rewrite host_run.
    by destruct (getActiveProject (world e)) as [[[project|]|err] w]. }
  enough (Hall : exists ok, (applyBlur trackItem blurriness e).1 = Returned ok /\
            (omap blurCallOf (issued e (applyBlur trackItem blurriness e).2) = [] \/
             omap blurCallOf (issued e (applyBlur trackItem blurriness e).2) = [inl GaussianBlur] \/
             omap blurCallOf (issued e (applyBlur trackItem blurriness e).2) = [inr v] \/
             omap blurCallOf (issued e (applyBlur trackItem blurriness e).2)
               = [inl GaussianBlur; inr v]) /\
            (ok = true ->
             last (omap blurCallOf (issued e (applyBlur trackItem blurriness e).2))
               = Some (inr v)) /\
            (trackItem = None ->
             ok = false /\
             omap blurCallOf (issued e (applyBlur trackItem blurriness e).2) = [])).
  { destruct Hall as (ok & Hret & Hshape & Hlast & _). by exists ok. }
  apply (observes_issued blurCallOf (applyBlur trackItem blurriness)
           (fun c xs => exists ok, c = Returned ok /\
              (xs = [] \/ xs = [inl GaussianBlur] \/ xs = [inr v] \/
               xs = [inl GaussianBlur; inr v]) /\
              (ok = true -> last xs = Some (inr v)) /\
              (trackItem = None -> ok = false /\ xs = []))).
  unfold applyBlur. fold v.
  set (shape := fun xs : list (string + JsNum) =>
         xs = [] \/ xs = [inl GaussianBlur] \/ xs = [inr v] \/ xs = [inl GaussianBlur; inr v]).
  apply observes_try with
    (P := fun c xs => match c with
                      | Returned ok =>
                        shape xs /\ (ok = true -> last xs = Some (inr v)) /\
                        (trackItem = None -> ok = false /\ xs = [])
                      | Threw _ => shape xs /\ (trackItem = None -> xs = [])
                      end).
  - assert (Hnone : shape []) by (by left).
    apply observes_bind_host; [|done]. intros [project|]; [|by apply observes_ret].
    destruct trackItem as [trackItem|]; [|by apply observes_ret].
    apply observes_bind_host; [|done]. intros [componentChain|]; [|by apply observes_ret].
    apply observes_bind_host; [|done]. intros found.
    apply observes_bind with (P := fun _ xs => xs = [] \/ xs = [inl GaussianBlur]).
    + destruct found as [p|]; [apply observes_ret; by left|].
      apply observes_bind with (P := fun c xs => c = Returned () /\ xs = [inl GaussianBlur]).
      * by apply observes_issue.
      * intros [] xs [_ ->]. apply observes_bind_host; [|by right]. intros [].
        apply observes_host. by right.
      * by intros err xs [? _].
    + intros blurParam xs Hxs. destruct blurParam as [blurParam|].
      * apply observes_bind with (P := fun c ys => c = Returned () /\ ys = [inr v]).
        -- by apply observes_issue.
        -- intros [] ys [_ ->]. apply observes_bind_host.
           ++ intros []. apply observes_ret. rewrite app_nil_r.
              destruct Hxs as [-> | ->]; (split; [unfold shape; auto|]); done.
           ++ intros err. rewrite app_nil_r.
              destruct Hxs as [-> | ->]; (split; [unfold shape; auto|]); done.
        -- by intros err ys [? _].
      * apply observes_ret. rewrite app_nil_r.
        destruct Hxs as [-> | ->]; (split; [unfold shape; auto|]); done.
    + intros err xs Hxs. destruct Hxs as [-> | ->]; (split; [unfold shape; auto|]); done.
  - intros ok xs (Hshape & Hok & Hnone). by exists ok.
  - intros err xs [Hshape Hnone]. apply observes_ret. rewrite app_nil_r.
    exists false. split; [done|]. split; [done|]. split; [done|]. auto.
Qed.



(** Running a program one call at a time. *)
Lemma bind_host {A B} (op : Exec World A) (k : A -> Exec Env B) (e : Env) :
  (host op ≫= k) e =
    match op (world e) with
    | (Returned a, w) => k a {| world := w; journal := journal e |}
    | (Threw err, w) => (Threw err, {| world := w; journal := journal e |})
    end.
Proof.
  unfold mbind, exec_bind, Js.bind. rewrite host_run.
  by destruct (op (world e)) as [[a|err] w].
Qed.

Lemma bind_issue {B} (c : HostCall) (k : unit -> Exec Env B) (e : Env) :
  (issue c ≫= k) e = k tt {| world := world e; journal := journal e ++ [c] |}.
Proof. done. Qed.

Lemma bind_ret {S A B} (a : A) (k : A -> Exec S B) (s : S) : (ret a ≫= k) s = k a s.
Proof. done. Qed.

Lemma bind_throw {S A B} (err : string) (k : A -> Exec S B) (s : S) :
  (throw err ≫= k) s = (Threw (Msg err), s).
Proof. done. Qed.

Lemma bind_assoc {S A B C} (m : Exec S A) (k1 : A -> Exec S B) (k2 : B -> Exec S C) (s : S) :
  ((m ≫= k1) ≫= k2) s = (m ≫= (fun a => k1 a ≫= k2)) s.
Proof. unfold mbind, exec_bind, Js.bind. by destruct (m s) as [[a|err] s']. Qed.

(** The end of a run: what it returned and what it issued. *)
Ltac run_end :=
  unfold ret, throw; cbn [fst snd world journal]; rewrite <- ?app_assoc;
  rewrite ?issued_app, ?issued_same; cbn.

(** What [appendTo] issues: at most the append under the given name, and
    that one when it returns. *)
Lemma appendTo_result (item : TrackItem) (name : string) (component : Component) (e : Env) :
  let run := appendTo item name component e in
  let appended := omap appendedOf (issued e run.2) in
  (appended = [] \/ appended = [name]) /\
  (forall u, run.1 = Returned u -> appended = [name]).
Proof.
  intros run appended. subst appended run. unfold appendTo.
  rewrite bind_host.
  destruct (getComponentChain item (world e)) as [[componentChain|err] w1];
    [|run_end; split; [by left|done]].
  rewrite bind_host. cbn [world journal].
  destruct (getActiveProject w1) as [[project|err] w2]; [|run_end; split; [by left|done]].
  destruct componentChain as [componentChain|]; cbn [nonNull];
    [|rewrite bind_throw; run_end; split; [by left|done]].
  rewrite bind_ret.
  destruct project as [project|]; cbn [nonNull];
    [|rewrite bind_throw; run_end; split; [by left|done]].
  rewrite bind_ret, bind_issue. cbn [world journal]. rewrite host_run.
  run_end. split; [by right|done].
Qed.

(** X10. [applyFilter] appends the filter only when the host lists its name,
    letter for letter, and then under that very name; for a name that is
    not listed, or not a string, it returns false without issuing
    anything. It never throws. *)
Theorem applyFilter_listed (item : TrackItem) (filterName : JsVal) (e : Env)
  (matchNames : option (list string)) (w1 : World) :
  let run := applyFilter item filterName e in
  let appended := omap appendedOf (issued e run.2) in
  getMatchNames (world e) = (Returned matchNames, w1) ->
  (exists ok, run.1 = Returned ok) /\
  (forall name, name ∈ appended ->
     filterName = VStr name /\ exists names, matchNames = Some names /\ name ∈ names) /\
  ((forall names name, matchNames = Some names -> filterName = VStr name -> name ∉ names) ->
   run = (Returned false, {| world := w1; journal := journal e |})).
Proof.
  intros run appended Hnames. subst appended run.
  unfold applyFilter, try_catch. rewrite bind_host, Hnames.
  destruct matchNames as [names|]; cbn [nonNull].
  2: { rewrite bind_throw. run_end.
       split; [by eexists|]. split; [intros m Hm; by apply elem_of_nil in Hm|done]. }
  rewrite bind_ret.
  destruct (listed names filterName) as [name|] eqn:Hlisted.
  2: { run_end. split; [by eexists|]. split; [intros m Hm; by apply elem_of_nil in Hm|done]. }
  assert (Hname : filterName = VStr name /\ name ∈ names).
  { unfold listed in Hlisted. destruct filterName; try done.
    case_bool_decide; [|done]. by injection Hlisted as <-. }
  destruct Hname as [-> Hin].
  assert (Hmember : forall calls : list string, calls = [] \/ calls = [name] ->
            forall m, m ∈ calls ->
            VStr name = VStr m /\ exists names', Some names = Some names' /\ m ∈ names').
  { intros calls [-> | ->] m Hm; [by apply elem_of_nil in Hm|].
    apply list_elem_of_singleton in Hm as ->. split; [done|]. by exists names. }
  rewrite bind_host. cbn [world journal].
  destruct (createComponent (Some name) w1) as [[component|err] w2].
  2: { run_end. split; [by eexists|]. split; [by apply Hmember; left|].
       intros Hno. by destruct (Hno names name eq_refl eq_refl). }
  set (e2 := {| world := w2; journal := journal e |}).
  destruct (appendTo_result item name component e2) as [Hcalls _].
  assert (Hissued : forall e', issued e2 e' = issued e e') by done.
  rewrite Hissued in Hcalls.
  unfold mbind, exec_bind, Js.bind.
  destruct (appendTo item name component e2) as [[[]|err] e3]; unfold ret; cbn [fst snd] in *.
  - split; [by eexists|]. split; [by apply Hmember|].
    intros Hno. by destruct (Hno names name eq_refl eq_refl).
  - split; [by eexists|]. split; [by apply Hmember|].
    intros Hno. by destruct (Hno names name eq_refl eq_refl).
Qed.




End WithHost.
End EditingRestFacts.

(** ** Further properties of the container *)

Module ContainerRestFacts.
Import EditingActions EditingActionsRest Container ContainerSpec ContainerFacts ContainerRest RestSpec.

Section WithServices.
Context `{FrontendServices}.

(** X13. The undo goes through the history from its end: with [c] edits
    undone, [handleUndo] hands to [executeUndo] the entry at position [c]
    of the history read backwards, and no other. *)
Theorem undo_targets_latest (p : Panel) :
  let history := editHistory (ui p) in
  let c := chatCutUndosCount (ui p) in
  0 <= c < Z.of_nat (length history) ->
  exists historyEntry,
    reverse history !! Z.to_nat c = Some historyEntry /\
    env (handleUndo p).2 = (executeUndo historyEntry (env p)).2.
Proof.
  intros history c Hc.
  pose proof (handleUndo_run p) as Hrun. cbv zeta in Hrun. fold history c in Hrun.
  destruct (Z.of_nat (length history) - c <=? 0) eqn:Hrem; [lia|].
  unfold array_get in Hrun.
  destruct (Z.of_nat (length history) - c - 1 <? 0) eqn:Hneg; [lia|].
  assert (Hlookup : reverse history !! Z.to_nat c
                    = history !! Z.to_nat (Z.of_nat (length history) - c - 1)).
  { rewrite reverse_lookup by lia. f_equal. lia. }
  destruct (lookup_lt_is_Some_2 history (Z.to_nat (Z.of_nat (length history) - c - 1)))
    as [historyEntry Hentry]; [lia|].
  rewrite Hentry in Hrun. exists historyEntry. split; [by rewrite Hlookup|].
  destruct (executeUndo historyEntry (env p)) as [[result|err] e']; [|by rewrite Hrun].
  destruct (successful result >? 0); [|by rewrite Hrun].
  rewrite Hrun. by destruct (failed result >? 0).
Qed.

(** One undo that succeeds. *)
Lemma handleUndo_success (p : Panel) :
  let history := editHistory (ui p) in
  let c := chatCutUndosCount (ui p) in
  0 <= c < Z.of_nat (length history) ->
  (forall historyEntry e, historyEntry ∈ history ->
     exists result e', executeUndo historyEntry e = (Returned result, e') /\ 0 < successful result) ->
  editHistory (ui (handleUndo p).2) = history /\
  chatCutUndosCount (ui (handleUndo p).2) = c + 1.
Proof.
  intros history c Hc Hsuccess.
  pose proof (handleUndo_run p) as Hrun. cbv zeta in Hrun. fold history c in Hrun.
  destruct (Z.of_nat (length history) - c <=? 0) eqn:Hrem; [lia|].
  unfold array_get in Hrun.
  destruct (Z.of_nat (length history) - c - 1 <? 0) eqn:Hneg; [lia|].
  destruct (lookup_lt_is_Some_2 history (Z.to_nat (Z.of_nat (length history) - c - 1)))
    as [historyEntry Hentry]; [lia|].
  rewrite Hentry in Hrun.
  destruct (Hsuccess historyEntry (env p)) as (result & e' & Hundo & Hpos).
  { by eapply list_elem_of_lookup_2. }
  rewrite Hundo in Hrun. destruct (successful result >? 0) eqn:Hs; [|lia].
  rewrite Hrun. by destruct (failed result >? 0).
Qed.

(** One undo when nothing is left to undo. *)
Lemma handleUndo_exhausted (p : Panel) :
  Z.of_nat (length (editHistory (ui p))) <= chatCutUndosCount (ui p) ->
  editHistory (ui (handleUndo p).2) = editHistory (ui p) /\
  chatCutUndosCount (ui (handleUndo p).2) = chatCutUndosCount (ui p) /\
  env (handleUndo p).2 = env p.
Proof.
  intros Hc. pose proof (handleUndo_run p) as Hrun. cbv zeta in Hrun.
  destruct (_ <=? 0) eqn:Hrem; [|lia]. by rewrite Hrun.
Qed.

(** X14. When [executeUndo] succeeds on every entry of the history, [k]
    clicks on undo from a count [c] leave the history as it is and bring
    the count to [c + k], or to the length of the history once everything
    is undone; the undo button is then disabled. *)
Theorem undo_repeated (p : Panel) (k : nat) :
  let history := editHistory (ui p) in
  let c := chatCutUndosCount (ui p) in
  let N := Z.of_nat (length history) in
  0 <= c <= N ->
  (forall historyEntry e, historyEntry ∈ history ->
     exists result e', executeUndo historyEntry e = (Returned result, e') /\ 0 < successful result) ->
  editHistory (ui (undoTimes k p)) = history /\
  chatCutUndosCount (ui (undoTimes k p)) = Z.min (c + Z.of_nat k) N /\
  (canUndo (ui (undoTimes k p)) = false <-> N <= c + Z.of_nat k).
Proof.
  intros history c N Hc Hsuccess.
  assert (Hmain : editHistory (ui (undoTimes k p)) = history /\
                  chatCutUndosCount (ui (undoTimes k p)) = Z.min (c + Z.of_nat k) N).
  { induction k as [|k [IHh IHc]]; [cbn; split; [done|lia]|].
    change (undoTimes (S k) p) with (handleUndo (undoTimes k p)).2.
    set (q := undoTimes k p) in *.
    destruct (Z_lt_le_dec (c + Z.of_nat k) N) as [Hlt|Hge].
    - destruct (handleUndo_success q) as [Hh' Hc'].
      { rewrite IHh, IHc. fold N. lia. }
      { by rewrite IHh. }
      rewrite Hh', Hc', IHh, IHc. split; [done|lia].
    - destruct (handleUndo_exhausted q) as (Hh' & Hc' & _).
      { rewrite IHh, IHc. fold N. lia. }
      rewrite Hh', Hc', IHh, IHc. split; [done|lia]. }
  destruct Hmain as [Hh Hcount]. split; [done|]. split; [done|].
  unfold canUndo. rewrite Hh, Hcount. fold N. rewrite Z.gtb_ltb, Z.ltb_ge. lia.
Qed.

(** X15. Right after an edit is recorded (from a count that is not
    negative) the undo button is enabled, and the next undo hands the
    entry just recorded to [executeUndo]. *)
Theorem undo_after_record (p : Panel) (historyEntry : EditHistoryEntry) :
  let c := chatCutUndosCount (ui p) in
  let p1 := (recordEdit c historyEntry p).2 in
  0 <= c ->
  canUndo (ui p1) = true /\
  env (handleUndo p1).2 = (executeUndo historyEntry (env p)).2 /\
  (forall result e', executeUndo historyEntry (env p) = (Returned result, e') ->
     0 < successful result -> chatCutUndosCount (ui (handleUndo p1).2) = 1).
Proof.
  intros c p1 Hc. subst p1. rewrite recordEdit_run. cbn [snd].
  set (p1 := {| ui := _; env := env p |}).
  assert (Hcount : chatCutUndosCount (ui p1) = 0).
  { cbn. fold c. destruct (c >? 0) eqn:Hpos; lia. }
  assert (Hhistory : editHistory (ui p1) = trimAndAppend c historyEntry (editHistory (ui p)))
    by done.
  assert (Henv : env p1 = env p) by done.
  pose proof (trimAndAppend_length c historyEntry (editHistory (ui p))) as Hlen.
  pose proof (trimAndAppend_last c historyEntry (editHistory (ui p))) as Hlast.
  rewrite <- Hhistory in Hlen, Hlast. clearbody p1.
  split.
  { unfold canUndo. rewrite Hcount. rewrite Z.gtb_ltb. apply Z.ltb_lt. lia. }
  pose proof (handleUndo_run p1) as Hrun. cbv zeta in Hrun. rewrite Hcount in Hrun.
  destruct (_ <=? 0) eqn:Hrem; [lia|].
  assert (Hentry : array_get (editHistory (ui p1))
                     (Z.of_nat (length (editHistory (ui p1))) - 0 - 1) = Some historyEntry).
  { unfold array_get. destruct (_ <? 0) eqn:Hneg; [lia|].
    rewrite last_lookup in Hlast. rewrite <- Hlast. f_equal. lia. }
  rewrite Hentry, Henv in Hrun.
  destruct (executeUndo historyEntry (env p)) as [[result|err] e'].
  - destruct (successful result >? 0) eqn:Hs.
    + rewrite Hrun. split; [by destruct (failed result >? 0)|].
      intros r e'' _ _. destruct (failed result >? 0); cbn; lia.
    + rewrite Hrun. split; [done|]. intros r e'' [= <- <-] Hpos. lia.
  - rewrite Hrun. split; [done|]. by intros r e''.
Qed.

(** X16. Whatever the count, recording keeps a front part of the old
    history, unchanged and in order, and puts the new entry last. The
    part kept is the whole history for a count of zero or less, the first
    N - c entries for 0 < c <= N, and, for c > N, what [slice] keeps with
    a negative end: the first 2N - c entries (none when c >= 2N). *)
Theorem trimAndAppend_keeps_prefix (c : Z) (historyEntry : EditHistoryEntry)
  (prev : list EditHistoryEntry) :
  let N := Z.of_nat (length prev) in
  let kept := if c <=? 0 then N else if c <=? N then N - c else Z.max (2 * N - c) 0 in
  trimAndAppend c historyEntry prev = take (Z.to_nat kept) prev ++ [historyEntry] /\
  take (Z.to_nat kept) prev `prefix_of` prev /\
  last (trimAndAppend c historyEntry prev) = Some historyEntry.
Proof.
  intros N kept. split; [|split; [apply prefix_take|apply trimAndAppend_last]].
  unfold trimAndAppend, slice, slice_bound. subst kept. fold N.
  destruct (c >? 0) eqn:Hpos.
  - destruct (c <=? 0) eqn:Hle; [lia|].
    destruct (0 <? 0) eqn:Hzero; [lia|]. rewrite (Z.min_l 0 N) by lia.
    cbn [Z.to_nat drop Z.sub]. rewrite Z.sub_0_r.
    destruct (c <=? N) eqn:HcN.
    + destruct (N - c <? 0) eqn:Hneg; [lia|]. by rewrite Z.min_l by lia.
    + destruct (N - c <? 0) eqn:Hneg; [|lia]. do 2 f_equal. lia.
  - destruct (c <=? 0) eqn:Hle; [|lia].
    subst N. by rewrite Nat2Z.id, firstn_all.
Qed.

(** *** Relations every handler respects *)

Section Stability.
Context (R : Panel -> Panel -> Prop) `{!Stable R}.

Lemma respects_ret {A} (a : A) : respects R (ret (S := Panel) a).
Proof. intros p. apply stable_refl. Qed.

Lemma respects_read : respects R readState.
Proof. intros p. apply stable_refl. Qed.

Lemma respects_bind {A B} (m : Exec Panel A) (k : A -> Exec Panel B) :
  respects R m -> (forall a, respects R (k a)) -> respects R (m ≫= k).
Proof.
  intros Hm Hk p. unfold mbind, exec_bind, Js.bind.
  pose proof (Hm p) as Hp. destruct (m p) as [[a|err] p1]; cbn [fst snd] in *; [|done].
  eapply stable_trans; [exact Hp|apply Hk].
Qed.

Lemma respects_try {A} (body : Exec Panel A) (handler : Thrown -> Exec Panel A) :
  respects R body -> (forall err, respects R (handler err)) ->
  respects R (try_catch body handler).
Proof.
  intros Hb Hh p. unfold try_catch.
  pose proof (Hb p) as Hp. destruct (body p) as [[a|err] p1]; cbn [fst snd] in *; [done|].
  eapply stable_trans; [exact Hp|apply Hh].
Qed.

Lemma respects_service {A} (op : Exec Env A) : respects R (service op).
Proof.
  intros p. unfold service, focus. destruct (op (env p)) as [c e].
  apply (stable_env p e).
Qed.

Lemma respects_write (text : string) : respects R (writeToConsole text).
Proof. intros p. apply (stable_told p text). Qed.

Lemma respects_nonNull {A} (o : option A) : respects R (nonNull o).
Proof. intros p. destruct o; apply stable_refl. Qed.

Lemma respects_askBackend st project text : respects R (askBackend st project text).
Proof.
  unfold askBackend. destruct (processMediaMode st); [|apply respects_service].
  apply respects_bind; [apply respects_service|]. intros filePaths.
  case_bool_decide.
  - repeat (apply respects_bind; [apply respects_write|intros _]). apply respects_service.
  - apply respects_bind; [apply respects_write|intros _].
    apply respects_bind; [apply respects_service|]. intros aiResponse.
    destruct (error_is _ _); [|apply respects_ret].
    apply respects_bind; [apply respects_write|intros _]. apply respects_service.
Qed.

Lemma respects_requestAction st project trackItems text :
  respects R (requestAction st project trackItems text).
Proof.
  unfold requestAction. case_bool_decide.
  - apply respects_bind; [apply respects_write|intros _]. apply respects_ret.
  - repeat (apply respects_bind; [apply respects_write|intros _]).
    apply respects_bind; [apply respects_askBackend|]. intros aiResponse.
    destruct (truthy_str (AiResponse.action aiResponse)) as [action|].
    + apply respects_bind; [apply respects_write|intros _].
      apply respects_bind; [|intros _; apply respects_ret].
      destruct (truthy_str _); [apply respects_write|apply respects_ret].
    + apply respects_bind; [|intros _; apply respects_ret].
      destruct (error_is _ _); [apply respects_write|].
      destruct (_ || _); [apply respects_write|].
      apply respects_bind; [apply respects_write|intros _].
      destruct (truthy_str _); [apply respects_write|apply respects_ret].
Qed.

Lemma respects_captureAndDispatch trackItems action aiResponse :
  respects R (captureAndDispatch trackItems action aiResponse).
Proof.
  unfold captureAndDispatch.
  apply respects_bind; [apply respects_write|intros _].
  apply respects_bind; [apply respects_service|intros previousState].
  apply respects_bind; [apply respects_service|intros result]. apply respects_ret.
Qed.

Lemma respects_editClips_catch err : respects R (editClips_catch err).
Proof.
  unfold editClips_catch. apply respects_bind; [apply respects_write|intros _].
  destruct err as [errorMessage|shownText]; [|intros p; apply stable_refl].
  destruct (includes _ _); [apply respects_write|].
  destruct (_ || _); [apply respects_write|apply respects_ret].
Qed.

End Stability.

#[local] Instance logged_stable : Stable logged.
Proof.
  split.
  - intros p. split; [|done]. exists []. cbn. by rewrite app_nil_r.
  - intros p q r [[texts1 Hq] Hmq] [[texts2 Hr] Hmr]. split; [|congruence].
    exists (texts1 ++ texts2). unfold botSays in *. by rewrite Hr, Hq, fmap_app, app_assoc.
  - intros p e. split; [|done]. exists []. cbn. by rewrite app_nil_r.
  - intros p text. split; [|done]. by exists [text].
Qed.

#[local] Instance inRangeAfter_stable : Stable inRangeAfter.
Proof.
  split.
  - by intros p Hp.
  - intros p q r Hpq Hqr Hp. by apply Hqr, Hpq.
  - by intros p e Hp.
  - by intros p text Hp.
Qed.

(** A setter that leaves the chat log and the media mode alone. *)
Lemma logged_setState (f : ContainerState -> ContainerState) :
  (forall st, message (f st) = message st /\ processMediaMode (f st) = processMediaMode st) ->
  respects logged (setState f).
Proof.
  intros Hf p. destruct (Hf (ui p)) as [Hm Hmode]. split; [|done].
  exists []. cbn. by rewrite app_nil_r.
Qed.

Lemma logged_storeResult st trackItems action aiResponse previousState result :
  respects logged (storeResult st trackItems action aiResponse previousState result).
Proof.
  unfold storeResult. destruct (successful result >? 0); [|apply respects_write; apply _].
  apply respects_bind; [apply _| |intros _].
  { unfold recordEdit. apply respects_bind; [apply _|by apply logged_setState|intros _].
    destruct (_ >? 0); [by apply logged_setState|apply respects_ret; apply _]. }
  apply respects_bind; [apply _|apply respects_write; apply _|intros _].
  apply respects_bind; [apply _| |intros _; apply respects_write; apply _].
  destruct (failed result >? 0); [apply respects_write|apply respects_ret]; apply _.
Qed.

Lemma logged_editClips project trackItems text :
  respects logged (editClips project trackItems text).
Proof.
  unfold editClips. apply respects_bind; [apply _|apply respects_read; apply _|intros st].
  apply respects_try; [apply _| |intros err; apply respects_editClips_catch; apply _].
  apply respects_bind; [apply _|apply respects_requestAction; apply _|].
  intros [[action aiResponse]|]; [|apply respects_ret; apply _].
  apply respects_bind; [apply _|apply respects_captureAndDispatch; apply _|].
  intros [previousState result]. apply logged_storeResult.
Qed.

Lemma logged_handleUndo : respects logged handleUndo.
Proof.
  unfold handleUndo. apply respects_bind; [apply _|apply respects_read; apply _|intros st].
  destruct (_ <=? 0).
  { apply respects_bind; [apply _|apply respects_write; apply _|intros _].
    apply respects_write; apply _. }
  destruct (array_get _ _) as [historyEntry|]; [|apply respects_write; apply _].
  apply respects_bind; [apply _|apply respects_write; apply _|intros _].
  apply respects_try; [apply _| |intros err; apply respects_write; apply _].
  apply respects_bind; [apply _|apply respects_service; apply _|intros result].
  destruct (successful result >? 0); [|apply respects_write; apply _].
  apply respects_bind; [apply _|by apply logged_setState|intros _].
  apply respects_bind; [apply _|apply respects_write; apply _|intros _].
  destruct (failed result >? 0); [apply respects_write|apply respects_ret]; apply _.
Qed.

Lemma inRange_editClips project trackItems text :
  respects inRangeAfter (editClips project trackItems text).
Proof. intros p Hp. by apply editClips_inRange. Qed.


(** *** The errors of editClips *)

Lemma prefix_contains (needle hay : string) :
  String.prefix needle hay = true <-> exists post, hay = needle +:+ post.
Proof.
  revert needle. induction hay as [|b hay IH]; intros [|a needle]; cbn.
  - split; [by exists ""|done].
  - split; [done|]. by intros [post ?].
  - split; [by eexists|done].
  - destruct (Ascii.ascii_dec a b) as [->|Hne].
    + rewrite IH. split; intros [post Hpost]; exists post; [by rewrite Hpost|by injection Hpost].
    + split; [done|]. intros [post Hpost]. by injection Hpost.
Qed.

(** [includes] decides [contains]. *)
Lemma includes_contains (hay needle : string) :
  includes hay needle = true <-> contains hay needle.
Proof.
  unfold contains. induction hay as [|b hay IH]; cbn [includes].
  - rewrite orb_false_r, prefix_contains. split.
    + intros [post Hpost]. by exists "", post.
    + intros ([|? ?] & post & Hpost); [by exists post|done].
  - rewrite orb_true_iff, prefix_contains, IH. split.
    + intros [[post Hpost]|(pre & post & Hpost)].
      * by exists "", post.
      * exists (String b pre), post. cbn. by rewrite Hpost.
    + intros ([|a pre] & post & Hpost).
      * left. by exists post.
      * right. exists pre, post. cbn in Hpost. by injection Hpost.
Qed.

(** The catch block on a message that is a string. *)
Lemma editClips_catch_run (errorMessage : string) (p : Panel) :
  exists hint,
    editClips_catch (Msg errorMessage) p =
      (Returned tt, foldl (fun q t => told t q) (told ("❌ Error: " +:+ errorMessage) p) hint) /\
    (contains errorMessage "Backend server is not running" ->
     hint = ["💡 Hint: Start the backend: cd ChatCut/backend && . .venv/bin/activate && python main.py"]) /\
    (~ contains errorMessage "Backend server is not running" ->
     contains errorMessage "503" \/ contains errorMessage "Network request failed" ->
     hint = ["💡 Hint: Make sure the backend server is running on port 3001"]) /\
    (~ contains errorMessage "Backend server is not running" ->
     ~ contains errorMessage "503" -> ~ contains errorMessage "Network request failed" ->
     hint = []).
Proof.
  unfold editClips_catch, mbind, exec_bind, Js.bind. rewrite writeToConsole_told.
  cbn [fst snd].
  destruct (includes errorMessage "Backend server is not running") eqn:Hdown.
  { apply includes_contains in Hdown. eexists [_]. split; [reflexivity|].
    split; [done|]. split; by intros ?. }
  assert (Hnot : ~ contains errorMessage "Backend server is not running").
  { rewrite <- includes_contains. by rewrite Hdown. }
  destruct (includes errorMessage "503") eqn:H503.
  { apply includes_contains in H503. eexists [_]. split; [reflexivity|].
    split; [done|]. split; [done|]. by intros _ ?. }
  destruct (includes errorMessage "Network request failed") eqn:Hnet.
  { apply includes_contains in Hnet. eexists [_]. split; [reflexivity|].
    split; [done|]. split; [done|]. by intros _ _ ?. }
  exists []. split; [reflexivity|]. split; [done|]. split; [|done].
  intros _ [Hc|Hc]; apply includes_contains in Hc; congruence.
Qed.

Lemma newTexts_told (p1 : Panel) (texts : list string) :
  newTexts p1 (foldl (fun q t => told t q) p1 texts) = texts /\
  sameHistory (ui p1) (ui (foldl (fun q t => told t q) p1 texts)) /\
  env (foldl (fun q t => told t q) p1 texts) = env p1.
Proof.
  unfold newTexts.
  assert (Hall : message (ui (foldl (fun q t => told t q) p1 texts))
                 = message (ui p1) ++ botSays texts /\
                 sameHistory (ui p1) (ui (foldl (fun q t => told t q) p1 texts)) /\
                 env (foldl (fun q t => told t q) p1 texts) = env p1).
  { induction texts as [|t texts IH] using rev_ind.
    - cbn. by rewrite app_nil_r.
    - rewrite foldl_app. cbn [foldl told ui env setMessage message].
      destruct IH as (-> & Hsame & ->). unfold botSays. rewrite fmap_app, app_assoc.
      done. }
  destruct Hall as (-> & Hsame & Henv). split; [|done].
  rewrite drop_app_length. unfold botSays. rewrite <- list_fmap_compose.
  by rewrite list_fmap_id.
Qed.

(** X17. An exception of a service inside [editClips] (in the request to
    the backend, the snapshot or the dispatch) is caught: the handler
    writes the line with the error, and the history, the undo count and
    the host are as the exception left them. When [err.message || err]
    is a string, [editClips] then returns, after one hint at most, chosen
    by what the message contains (the backend that is not running first,
    then a 503 or a failed network request). When it is not a string (an
    Error with an empty message, say), nothing more is written and the
    TypeError of the call to [includes] leaves [editClips]. *)
Theorem editClips_reports_error project trackItems text (p p1 : Panel) (err : Thrown) :
  let run := editClips project trackItems text p in
  (requestAction (ui p) project trackItems text p = (Threw err, p1) \/
   exists action aiResponse p0 e1,
     requestAction (ui p) project trackItems text p = (Returned (Some (action, aiResponse)), p0) /\
     p1 = withEnv e1 (told "📸 Capturing previous state for undo..." p0) /\
     (capturePreviousState trackItems action (env p0) = (Threw err, e1) \/
      exists previousState e0,
        capturePreviousState trackItems action (env p0) = (Returned previousState, e0) /\
        dispatchAction action trackItems
          (default ∅ (AiResponse.given (AiResponse.parameters aiResponse))) e0
          = (Threw err, e1))) ->
  sameHistory (ui p) (ui run.2) /\ env run.2 = env p1 /\
  (forall errorMessage, err = Msg errorMessage ->
     run.1 = Returned tt /\
     exists hint,
       newTexts p1 run.2 = ("❌ Error: " +:+ errorMessage) :: hint /\
       (contains errorMessage "Backend server is not running" ->
        hint = ["💡 Hint: Start the backend: cd ChatCut/backend && . .venv/bin/activate && python main.py"]) /\
       (~ contains errorMessage "Backend server is not running" ->
        contains errorMessage "503" \/ contains errorMessage "Network request failed" ->
        hint = ["💡 Hint: Make sure the backend server is running on port 3001"]) /\
       (~ contains errorMessage "Backend server is not running" ->
        ~ contains errorMessage "503" -> ~ contains errorMessage "Network request failed" ->
        hint = [])) /\
  (forall value, err = NotString value ->
     run.1 = Threw (Msg "errorMessage.includes is not a function") /\
     newTexts p1 run.2 = ["❌ Error: " +:+ value]).
Proof.
  intros run Hthrow. subst run.
  assert (Hrun : editClips project trackItems text p = editClips_catch err p1 /\
                 sameHistory (ui p) (ui p1)).
  { change (editClips project trackItems text p) with
      (try_catch
         (request ← requestAction (ui p) project trackItems text;
          match request with
          | None => ret tt
          | Some (action, aiResponse) =>
            '(previousState, result) ← captureAndDispatch trackItems action aiResponse;
            storeResult (ui p) trackItems action aiResponse previousState result
          end) editClips_catch p).
    unfold try_catch, mbind, exec_bind, Js.bind.
    pose proof (keeps_requestAction (ui p) project trackItems text p) as Hk1.
    destruct Hthrow as [Hreq|(action & aiResponse & p0 & e1 & Hreq & Hp1 & Hthrow)];
      rewrite Hreq in *.
    - done.
    - cbn [fst snd] in *.
      assert (Hcap : captureAndDispatch trackItems action aiResponse p0 = (Threw err, p1)).
      { rewrite captureAndDispatch_run, Hp1.
        destruct Hthrow as [->|(previousState & e0 & -> & ->)]; done. }
      pose proof (keeps_captureAndDispatch trackItems action aiResponse p0) as Hk2.
      rewrite Hcap in *. cbn [fst snd] in *. split; [done|].
      destruct Hk1 as [? ?], Hk2 as [? ?]. split; congruence. }
  destruct Hrun as [-> [Hh Hc]].
  split.
  { destruct (keeps_editClips_catch err p1) as [? ?]. split; congruence. }
  split; [apply editClips_catch_env|]. split.
  - intros errorMessage ->.
    destruct (editClips_catch_run errorMessage p1) as (hint & -> & Hdown & Hport & Hnone).
    cbn [fst snd]. split; [done|].
    change (foldl (fun q t => told t q) (told ("❌ Error: " +:+ errorMessage) p1) hint)
      with (foldl (fun q t => told t q) p1 (("❌ Error: " +:+ errorMessage) :: hint)).
    destruct (newTexts_told p1 (("❌ Error: " +:+ errorMessage) :: hint)) as (Htexts & _).
    exists hint. by rewrite Htexts.
  - intros text' ->. split; [done|].
    change (editClips_catch (NotString text') p1).2 with (told ("❌ Error: " +:+ text') p1).
    change (told ("❌ Error: " +:+ text') p1)
      with (foldl (fun q t => told t q) p1 ["❌ Error: " +:+ text']).
    by destruct (newTexts_told p1 ["❌ Error: " +:+ text']) as (Htexts & _).
Qed.

(** X18. Once the backend has named an action, [editClips] takes the
    snapshot first and dispatches on the host the snapshot left; the
    entry it stores on success holds that snapshot, with the action, the
    clips and the parameters it dispatched. After an exception of the
    snapshot the host is as the snapshot left it, and the history and the
    count are unchanged. *)
Theorem editClips_snapshot_first project trackItems text (p p1 : Panel) action aiResponse :
  let p' := (editClips project trackItems text p).2 in
  let params := default ∅ (AiResponse.given (AiResponse.parameters aiResponse)) in
  requestAction (ui p) project trackItems text p = (Returned (Some (action, aiResponse)), p1) ->
  match capturePreviousState trackItems action (env p1) with
  | (Threw err, e1) => env p' = e1 /\ sameHistory (ui p) (ui p')
  | (Returned previousState, e1) =>
    env p' = (dispatchAction action trackItems params e1).2 /\
    forall result e2,
      dispatchAction action trackItems params e1 = (Returned result, e2) ->
      0 < successful result ->
      last (editHistory (ui p')) =
        Some {| actionName := action; trackItems := trackItems;
                previousState := previousState; parameters := params |}
  end.
Proof.
  intros p' params Hreq. subst p'.
  change (editClips project trackItems text p) with
    (try_catch
       (request ← requestAction (ui p) project trackItems text;
        match request with
        | None => ret tt
        | Some (action, aiResponse) =>
          '(previousState, result) ← captureAndDispatch trackItems action aiResponse;
          storeResult (ui p) trackItems action aiResponse previousState result
        end) editClips_catch p).
  unfold try_catch, mbind, exec_bind, Js.bind. rewrite Hreq. cbn [fst snd].
  pose proof (keeps_requestAction (ui p) project trackItems text p) as Hk1.
  rewrite Hreq in Hk1. cbn [snd] in Hk1.
  pose proof (captureAndDispatch_run trackItems action aiResponse p1) as Hcap.
  cbv zeta in Hcap. fold params in Hcap.
  pose proof (keeps_captureAndDispatch trackItems action aiResponse p1) as Hk2.
  destruct (capturePreviousState trackItems action (env p1)) as [[previousState|err] e1].
  - destruct (dispatchAction action trackItems params e1) as [[result|err] e2].
    + rewrite Hcap in *. cbn [fst snd] in *.
      destruct (storeResult_run (ui p) trackItems action aiResponse previousState result
                  (withEnv e2 (told "📸 Capturing previous state for undo..." p1)))
        as (p3 & -> & Henv & Hstore).
      cbn [fst snd]. split; [by rewrite Henv|].
      intros r e [= <- <-] Hpos.
      destruct (successful result >? 0) eqn:Hs; [|lia].
      destruct Hstore as [-> _]. apply trimAndAppend_last.
    + rewrite Hcap in *. cbn [fst snd] in *. split; [|done].
      by rewrite editClips_catch_env.
  - rewrite Hcap in *. cbn [fst snd] in *. rewrite editClips_catch_env. split; [done|].
    destruct (keeps_editClips_catch err
                (withEnv e1 (told "📸 Capturing previous state for undo..." p1))) as [Hh Hc].
    destruct Hk1 as [? ?], Hk2 as [? ?]. split; congruence.
Qed.

End WithServices.

(** *** The selection of the clips *)

Section WithTimeline.
Context `{FrontendServices} `{!PremiereHost} `{!TimelineHost}.
Variable trim : string -> string.

#[local] Existing Instance logged_stable.
#[local] Existing Instance inRangeAfter_stable.

Lemma still_ret {A} (a : A) : still (ret a).
Proof. by intros e. Qed.

Lemma still_host {A} (op : Exec World A) : still (host op).
Proof. intros e. unfold host, focus. by destruct (op (world e)). Qed.

Lemma still_nonNull {A} (o : option A) : still (nonNull o).
Proof. intros e. by destruct o. Qed.

Lemma still_bind {A B} (m : Exec Env A) (k : A -> Exec Env B) :
  still m -> (forall a, still (k a)) -> still (m ≫= k).
Proof.
  intros Hm Hk e. unfold mbind, exec_bind, Js.bind.
  pose proof (Hm e) as He. destruct (m e) as [[a|err] e1]; cbn [fst snd] in *; [|done].
  by rewrite Hk.
Qed.

Lemma still_try {A} (body : Exec Env A) (handler : Thrown -> Exec Env A) :
  still body -> (forall err, still (handler err)) -> still (try_catch body handler).
Proof.
  intros Hb Hh e. unfold try_catch.
  pose proof (Hb e) as He. destruct (body e) as [[a|err] e1]; cbn [fst snd] in *; [done|].
  by rewrite Hh.
Qed.

Lemma still_hasVideoFrom (fuel : nat) (componentChain : ComponentChain) (j : Z) :
  still (hasVideoFrom fuel componentChain j).
Proof.
  revert j. induction fuel as [|fuel IH]; intros j; [apply still_ret|].
  cbn [hasVideoFrom]. apply still_bind.
  - apply still_try; [|intros _; apply still_ret].
    apply still_bind; [apply still_host|intros component].
    apply still_bind; [apply still_nonNull|intros component'].
    apply still_bind; [apply still_host|intros matchName]. apply still_ret.
  - intros [|]; [apply still_ret|apply IH].
Qed.

(** The test of one clip always gives an answer. *)
Lemma hasVideo_run (clip : TrackItem) (e : Env) :
  exists keep e', hasVideo clip e = (Returned keep, e') /\ journal e' = journal e.
Proof.
  assert (Hstill : still (hasVideo clip)).
  { unfold hasVideo. apply still_try; [|intros _; apply still_ret].
    apply still_bind; [apply still_host|intros componentChain].
    apply still_bind; [apply still_nonNull|intros componentChain'].
    apply still_bind; [apply still_host|intros componentCount].
    apply still_hasVideoFrom. }
  specialize (Hstill e). revert Hstill. unfold hasVideo, try_catch.
  match goal with |- context [let '(_, _) := ?body e in _] => destruct (body e) as [[keep|err] e1] end;
    cbn [fst snd]; intros Hj; by eexists _, _.
Qed.

Lemma hasVideoFrom_evidence (fuel : nat) (componentChain : ComponentChain) (j : Z)
  (e e' : Env) :
  hasVideoFrom fuel componentChain j e = (Returned true, e') ->
  exists i component matchName w1 w2 w3,
    j <= i < j + Z.of_nat fuel /\
    getComponentAtIndex componentChain i w1 = (Returned (Some component), w2) /\
    getMatchName component w2 = (Returned matchName, w3) /\
    (contains matchName "Motion" \/ contains matchName "ADBE" \/ contains matchName "Video").
Proof.
  revert j e. induction fuel as [|fuel IH]; intros j e; [done|].
  cbn [hasVideoFrom]. unfold mbind, exec_bind, Js.bind, try_catch.
  rewrite EditingRestFacts.host_run. cbn [fst snd].
  assert (Hnext : forall e1,
    hasVideoFrom fuel componentChain (j + 1) e1 = (Returned true, e') ->
    exists i component matchName w1 w2 w3,
      j <= i < j + Z.of_nat (S fuel) /\
      getComponentAtIndex componentChain i w1 = (Returned (Some component), w2) /\
      getMatchName component w2 = (Returned matchName, w3) /\
      (contains matchName "Motion" \/ contains matchName "ADBE" \/ contains matchName "Video")).
  { intros e1 Hrest.
    destruct (IH _ _ Hrest) as (i & component & matchName & w1 & w2 & w3 & Hi & Hrest').
    exists i, component, matchName, w1, w2, w3. split; [lia|done]. }
  destruct (getComponentAtIndex componentChain j (world e)) as [[[component|]|err] w1] eqn:Hget;
    cbn [fst snd nonNull ret throw]; [|by apply Hnext..].
  rewrite EditingRestFacts.host_run. cbn [fst snd world].
  destruct (getMatchName component w1) as [[matchName|err] w2] eqn:Hname;
    cbn [fst snd ret]; [|by apply Hnext].
  destruct (includes matchName "Motion" || includes matchName "ADBE"
            || includes matchName "Video") eqn:Hinc; [|by apply Hnext].
  intros _. exists j, component, matchName, (world e), w1, w2.
  split; [lia|]. split; [done|]. split; [done|].
  rewrite <- !includes_contains.
  apply orb_true_iff in Hinc as [Hinc|Hinc]; [|by auto].
  apply orb_true_iff in Hinc as [Hinc|Hinc]; by auto.
Qed.

(** X19. A clip passes the test of [selectClips] only on evidence: its
    component chain was read, and one component below the component
    count gave a match name that contains Motion, ADBE or Video. *)
Theorem hasVideo_evidence (clip : TrackItem) (e e' : Env) :
  hasVideo clip e = (Returned true, e') ->
  exists componentChain componentCount i component matchName w0 w1 w2 w3 w4 w5,
    getComponentChain clip w0 = (Returned (Some componentChain), w1) /\
    getComponentCount componentChain w1 = (Returned componentCount, w2) /\
    0 <= i < componentCount /\
    getComponentAtIndex componentChain i w3 = (Returned (Some component), w4) /\
    getMatchName component w4 = (Returned matchName, w5) /\
    (contains matchName "Motion" \/ contains matchName "ADBE" \/ contains matchName "Video").
Proof.
  unfold hasVideo, try_catch, mbind, exec_bind, Js.bind.
  rewrite EditingRestFacts.host_run. cbn [fst snd].
  destruct (getComponentChain clip (world e)) as [[[componentChain|]|err] w1] eqn:Hchain;
    cbn [fst snd nonNull ret throw]; [|done..].
  rewrite EditingRestFacts.host_run. cbn [fst snd world].
  destruct (getComponentCount componentChain w1) as [[componentCount|err] w2] eqn:Hcount;
    cbn [fst snd]; [|done].
  destruct (hasVideoFrom _ _ _ _) as [[keep|err] e1] eqn:Hfrom; [|done].
  intros [= -> ->].
  destruct (hasVideoFrom_evidence _ _ _ _ _ Hfrom)
    as (i & component & matchName & w3 & w4 & w5 & Hi & Hget & Hname & Hwords).
  exists componentChain, componentCount, i, component, matchName, (world e), w1, w2, w3, w4, w5.
  split; [done|]. split; [done|]. split; [lia|]. done.
Qed.

(** X20. The filter of [selectClips] never fails: it returns the clips it
    was given so far followed by clips of the selection, in the order of
    the selection and each at most once per occurrence, and it issues no
    editing call. *)
Theorem videoClips_keeps_order (trackItems videoTrackItems : list TrackItem) (e : Env) :
  exists kept e',
    videoClips trackItems videoTrackItems e = (Returned (videoTrackItems ++ kept), e') /\
    kept `sublist_of` trackItems /\
    journal e' = journal e.
Proof.
  revert videoTrackItems e.
  induction trackItems as [|clip rest IH]; intros videoTrackItems e.
  - exists [], e. cbn. by rewrite app_nil_r.
  - cbn [videoClips]. unfold mbind, exec_bind, Js.bind.
    destruct (hasVideo_run clip e) as (keep & e1 & -> & Hj1). cbn [fst snd].
    destruct keep.
    + destruct (IH (videoTrackItems ++ [clip]) e1) as (kept & e2 & -> & Hsub & Hj2).
      exists (clip :: kept), e2. rewrite <- app_assoc. split; [done|].
      split; [by apply sublist_skip|congruence].
    + destruct (IH videoTrackItems e1) as (kept & e2 & -> & Hsub & Hj2).
      exists kept, e2. split; [done|]. split; [by apply sublist_cons|congruence].
Qed.




Lemma respects_selectClips (R : Panel -> Panel -> Prop) `{!Stable R} (loaded : bool)
  (text : string) :
  (forall project trackItems, respects R (editClips project trackItems text)) ->
  respects R (selectClips loaded text).
Proof.
  intros Hedit. unfold selectClips.
  apply respects_try; [done| |intros err; by apply (respects_write R)].
  apply respects_bind; [done|by apply respects_service|intros project].
  apply respects_bind; [done|by apply respects_nonNull|intros project'].
  apply respects_bind; [done|by apply respects_service|intros sequence].
  apply respects_bind; [done|by apply respects_nonNull|intros sequence'].
  apply respects_bind; [done|by apply respects_service|intros selection].
  apply respects_bind; [done|by apply respects_nonNull|intros selection'].
  apply respects_bind; [done|by apply respects_service|intros trackItems].
  apply respects_bind; [done|by apply respects_nonNull|intros trackItems'].
  apply respects_bind; [done|by apply respects_service|intros videoTrackItems].
  case_bool_decide; [by apply respects_write|apply Hedit].
Qed.

(** X22. The undo button, the redo button, [editClips] and [selectClips]
    only add console lines to the chat log: no message is removed or
    rewritten, and the media mode is not switched. *)
Theorem handlers_only_log :
  respects logged handleUndo /\ respects logged handleRedo /\
  (forall project trackItems text, respects logged (editClips project trackItems text)) /\
  (forall loaded text, respects logged (selectClips loaded text)).
Proof.
  split; [apply logged_handleUndo|]. split; [apply respects_write; apply _|].
  split; [apply logged_editClips|].
  intros loaded text. apply respects_selectClips; [apply _|].
  intros project trackItems. apply logged_editClips.
Qed.

Lemma selectClips_returns (loaded : bool) (text : string) (p : Panel) :
  (selectClips loaded text p).1 = Returned tt.
Proof.
  unfold selectClips, try_catch.
  match goal with |- context [let '(_, _) := ?body p in _] => by destruct (body p) as [[[]|err] p'] end.
Qed.

(** X23. The two entry points of the chat never throw, and an undo count
    that is within its bounds stays so across them. *)
Theorem entry_points_keep_range (loaded : bool) (text : string) (p : Panel) :
  cursorInRange (ui p) ->
  (selectClips loaded text p).1 = Returned tt /\
  cursorInRange (ui (selectClips loaded text p).2) /\
  (onSend trim loaded text p).1 = Returned tt /\
  cursorInRange (ui (onSend trim loaded text p).2).
Proof.
  intros Hp.
  assert (Hselect : respects inRangeAfter (selectClips loaded text)).
  { apply respects_selectClips; [apply _|]. intros project trackItems.
    apply inRange_editClips. }
  split; [apply selectClips_returns|]. split; [by apply Hselect|].
  unfold onSend. destruct (_ || _); [done|].
  unfold mbind, exec_bind, Js.bind. cbn [addMessage setState modify fst snd].
  split; [apply selectClips_returns|]. by apply Hselect.
Qed.

(** X24. [onSend] ignores a text that is empty or blank. Any other text
    is added to the chat log as the user's message, trimmed; what
    follows it in the log are console lines, and [selectClips] gets the
    text as it was typed. *)
Theorem onSend_log (loaded : bool) (text : string) (p : Panel) :
  let said := addMessage {| sender := user; text := trim text |} p in
  (text = "" \/ trim text = "" -> onSend trim loaded text p = (Returned tt, p)) /\
  (text <> "" -> trim text <> "" ->
   onSend trim loaded text p = selectClips loaded text said.2 /\
   exists texts,
     message (ui (onSend trim loaded text p).2) =
       message (ui p) ++ {| sender := user; text := trim text |} :: botSays texts).
Proof.
  intros said. unfold onSend. split.
  - intros [->| ->]; [done|]. rewrite String.eqb_refl. by rewrite orb_true_r.
  - intros Htext Htrim.
    apply String.eqb_neq in Htext, Htrim. rewrite Htext, Htrim. cbn [orb].
    split; [done|].
    change ((addMessage {| sender := user; text := trim text |};; selectClips loaded text) p)
      with (selectClips loaded text said.2).
    assert (Hlog : respects logged (selectClips loaded text)).
    { apply respects_selectClips; [apply _|]. intros project trackItems.
      apply logged_editClips. }
    destruct (Hlog said.2) as [[texts ->] _]. exists texts.
    subst said. cbn. by rewrite <- app_assoc.
Qed.

End WithTimeline.
End ContainerRestFacts.

(** ** The further properties on the small host *)

Module RestExamples.
Import EditingActions EditingActionsRest EditingSpec RestSpec.
Import Container ContainerSpec ContainerRest.

#[local] Existing Instance Demo.types.
#[local] Existing Instance Demo.premiere.
#[local] Existing Instance Demo.services.
#[local] Existing Instance DemoRest.timeline.

(** A duration of zero is the same as none. *)
Lemma zoomIn_falsy_duration_witness :
  let o : JsObject := {[ "duration" := VNum (Num 0); "endScale" := VNum (Num 120) ]} in
  truthy (VNum (Num 0)) = false /\
  zoomIn (Demo.clip 0) (Some o) Demo.start
  = zoomIn (Demo.clip 0) (Some (delete "duration" o)) Demo.start.
Proof.
  intros o. split; [reflexivity|].
  apply (EditingRestFacts.zoomIn_falsy_duration (Demo.clip 0) o (VNum (Num 0)) Demo.start);
    reflexivity.
Defined.


(** A filter of the list is appended under its name. *)
Lemma applyFilter_listed_witness :
  let run := applyFilter (Demo.clip 0) (VStr "AE.ADBE Tint") Demo.start in
  (exists ok, run.1 = Returned ok) /\
  forall name, name ∈ omap appendedOf (issued Demo.start run.2) -> VStr "AE.ADBE Tint" = VStr name.
Proof.
  intros run.
  destruct (EditingRestFacts.applyFilter_listed (Demo.clip 0) (VStr "AE.ADBE Tint") Demo.start
              (Some ["AE.ADBE Gaussian Blur 2"; "AE.ADBE Tint"]) 1%nat)
    as (Hok & Happended & _); [reflexivity|].
  split; [exact Hok|]. intros name Hin. destruct (Happended name Hin) as [Hname _].
  exact Hname.
Defined.


(** Two edits, one of them undone: the next undo takes the first edit. *)
Lemma undo_targets_latest_witness :
  let p := Demo.panel [Demo.entry "zoomIn" [0%nat]; Demo.entry "zoomOut" [2%nat]] 1 in
  exists historyEntry,
    reverse (editHistory (ui p)) !! Z.to_nat 1 = Some historyEntry /\
    env (handleUndo p).2 = (executeUndo historyEntry (env p)).2.
Proof.
  intros p. apply (ContainerRestFacts.undo_targets_latest p). simpl. lia.
Defined.

(** Three clicks on undo with two edits: the count stops at two. *)
Lemma undo_repeated_witness :
  let p := Demo.panel [Demo.entry "zoomIn" [0%nat]; Demo.entry "zoomOut" [2%nat]] 0 in
  editHistory (ui (undoTimes 3 p)) = editHistory (ui p) /\
  chatCutUndosCount (ui (undoTimes 3 p)) = 2 /\
  (canUndo (ui (undoTimes 3 p)) = false <-> 2 <= 0 + 3).
Proof.
  intros p. apply (ContainerRestFacts.undo_repeated p 3).
  - simpl. lia.
  - intros historyEntry e Hin.
    apply elem_of_cons in Hin as [->|Hin];
      [|apply elem_of_cons in Hin as [->|Hin]; [|by apply elem_of_nil in Hin]];
      eexists _, _; split; reflexivity.
Defined.

(** Recording an edit on an empty history makes it the one to undo. *)
Lemma undo_after_record_witness :
  let p := Demo.panel [] 0 in
  let p1 := (recordEdit 0 (Demo.entry "zoomIn" [0%nat]) p).2 in
  canUndo (ui p1) = true /\
  env (handleUndo p1).2 = (executeUndo (Demo.entry "zoomIn" [0%nat]) (env p)).2.
Proof.
  intros p p1.
  destruct (ContainerRestFacts.undo_after_record p (Demo.entry "zoomIn" [0%nat]))
    as (Hcan & Henv & _); [simpl; lia|].
  split; [exact Hcan|exact Henv].
Defined.

(** The history entry of a zoom holds the snapshot taken before it. *)
Lemma editClips_snapshot_first_witness :
  let p := Demo.panel [] 0 in
  let p' := (editClips Demo.project (Demo.clips [0; 1]%nat) "zoom in by 120%" p).2 in
  exists action aiResponse p1,
    requestAction (ui p) Demo.project (Demo.clips [0; 1]%nat) "zoom in by 120%" p
      = (Returned (Some (action, aiResponse)), p1) /\
    last (editHistory (ui p')) =
      Some {| actionName := action; trackItems := Demo.clips [0; 1]%nat;
              previousState := "before " +:+ action;
              parameters := default ∅ (AiResponse.given (AiResponse.parameters aiResponse)) |}.
Proof.
  intros p p'.
  destruct (requestAction (ui p) Demo.project (Demo.clips [0; 1]%nat) "zoom in by 120%" p)
    as [[[[action aiResponse]|]|err] p1] eqn:Hreq; [|discriminate Hreq..].
  exists action, aiResponse, p1. split; [reflexivity|].
  pose proof (ContainerRestFacts.editClips_snapshot_first Demo.project (Demo.clips [0; 1]%nat)
                "zoom in by 120%" p p1 action aiResponse Hreq) as [_ Hlast].
  destruct (dispatchAction action (Demo.clips [0; 1]%nat)
              (default ∅ (AiResponse.given (AiResponse.parameters aiResponse))) (env p1)) as [result e2] eqn:Hd.
  destruct result as [result|err]; [|vm_compute in Hreq; injection Hreq as <- <- <-; discriminate Hd].
  apply (Hlast result e2 eq_refl).
  vm_compute in Hreq. injection Hreq as <- <- <-. vm_compute in Hd.
  injection Hd as <- <-. reflexivity.
Defined.

(** Clip 0 is kept for its second component, a Motion effect. *)
Lemma hasVideo_evidence_witness :
  exists componentChain componentCount i component matchName w0 w1 w2 w3 w4 w5,
    getComponentChain (Demo.clip 0) w0 = (Returned (Some componentChain), w1) /\
    getComponentCount componentChain w1 = (Returned componentCount, w2) /\
    0 <= i < componentCount /\
    getComponentAtIndex componentChain i w3 = (Returned (Some component), w4) /\
    getMatchName component w4 = (Returned matchName, w5) /\
    (contains matchName "Motion" \/ contains matchName "ADBE" \/ contains matchName "Video").
Proof.
  apply (ContainerRestFacts.hasVideo_evidence (Demo.clip 0) Demo.start
           (hasVideo (Demo.clip 0) Demo.start).2).
  reflexivity.
Defined.

(** A message sent with one of two edits undone. *)
Lemma entry_points_keep_range_witness :
  let p := Demo.panel [Demo.entry "zoomIn" [0%nat]; Demo.entry "zoomOut" [2%nat]] 1 in
  (selectClips true "zoom in by 120%" p).1 = Returned tt /\
  cursorInRange (ui (selectClips true "zoom in by 120%" p).2) /\
  (onSend id true "zoom in by 120%" p).1 = Returned tt /\
  cursorInRange (ui (onSend id true "zoom in by 120%" p).2).
Proof.
  intros p. apply (ContainerRestFacts.entry_points_keep_range id true "zoom in by 120%" p).
  unfold cursorInRange. simpl. lia.
Defined.

End RestExamples.

Module OfflineExamples.
Import Container ContainerSpec RestSpec.

#[local] Existing Instance Demo.types.
#[local] Existing Instance DemoRest.offline.

(** With the backend down, the request fails: the error line and the
    hint to start the backend are written. *)
Lemma editClips_reports_error_witness :
  let p := Demo.panel [] 0 in
  let request := requestAction (ui p) Demo.project (Demo.clips [0%nat]) "zoom in" p in
  let run := editClips Demo.project (Demo.clips [0%nat]) "zoom in" p in
  request.1 = Threw (Msg "HTTP 503: Backend server is not running") /\
  run.1 = Returned tt /\
  newTexts request.2 run.2 =
    ["❌ Error: HTTP 503: Backend server is not running";
     "💡 Hint: Start the backend: cd ChatCut/backend && . .venv/bin/activate && python main.py"].
Proof.
  intros p request run. split; [reflexivity|].
  destruct (ContainerRestFacts.editClips_reports_error Demo.project (Demo.clips [0%nat]) "zoom in"
              p request.2 (Msg "HTTP 503: Backend server is not running"))
    as (_ & _ & Hmessage & _); [left; reflexivity|].
  destruct (Hmessage _ eq_refl) as (Hret & hint & Htexts & Hdown & _).
  split; [exact Hret|].
  rewrite (Hdown (ex_intro _ "HTTP 503: " (ex_intro _ "" eq_refl))) in Htexts.
  exact Htexts.
Defined.

End OfflineExamples.

Module WordlessExamples.
Import Container ContainerSpec ContainerRest RestSpec.

#[local] Existing Instance Demo.types.
#[local] Existing Instance Demo.premiere.
#[local] Existing Instance DemoRest.timeline.
#[local] Existing Instance DemoRest.wordless.

(** An error without message: the catch block of [editClips] writes its
    line and throws; [selectClips] catches that and adds a line of its
    own; the undo button prints the error as it is. *)
Lemma error_without_message :
  let p := Demo.panel [Demo.entry "zoomIn" [0%nat]] 0 in
  let edit := editClips Demo.project (Demo.clips [0%nat]) "zoom in" p in
  let select := selectClips true "zoom in" p in
  edit.1 = Threw (Msg "errorMessage.includes is not a function") /\
  last (newTexts p edit.2) = Some "❌ Error: Error" /\
  select.1 = Returned tt /\
  drop 4 (newTexts p select.2) =
    ["❌ Error: Error"; "Error: errorMessage.includes is not a function"] /\
  (handleUndo p).1 = Returned tt /\
  last (newTexts p (handleUndo p).2) = Some "❌ Undo failed with error: Error".
Proof. vm_compute. repeat split; reflexivity. Qed.

End WordlessExamples.
